(** * Cavity dynamics of GPUMD (src/cavity/cavity.cu): a shallow embedding

    The development follows the source file top-down: the CUDA kernels
    ([sum_dipole], [get_center_of_mass], [copy_positions],
    [apply_cavity_force], ...), then the members of class [Cavity].

    Numbers.  A C++ [double] is embedded as a real number ([R]) and all
    arithmetic is exact; rounding, NaN and infinities are outside the model.
    A division is an effect: it appends its divisor to a log, so that a
    division by zero stays observable although [x / 0] is a total
    operation on [R].  The number of atoms the caller gives, and the sizes
    and indices computed from it, are natural numbers ([nat]).  The two
    products [parse] stores in [int] members are C [int] products: they
    are [Z] with the wrap-around of 32 bits written out ([int_mul]), and
    where such a member is used as a size or as a bound of a kernel it
    is read through [Z.to_nat]: a negative count, which only a product
    that wrapped around gives, reads as zero (no thread of a kernel
    passes its guard; the code cannot allocate with it, and a failing
    allocation is outside the model).  The signed quantities ([charge],
    [num_param], [nep_model_type]) are [Z].

    Memory.  A [std::vector] or [GPU_Vector] is a [list]; [v[i]] is stdpp's
    total lookup [v !!! i] and [v[i] = x] is [<[i:=x]> v].  The source
    never checks an index, and an access out of range is undefined
    behaviour there; in the model such a read gives [0] and such a write
    does nothing.  Theorems state the sizes they rely on.  A record is
    updated with [c <| field := v |>].

    Kernels.  A launch [<<<blocks, threads>>>] runs its threads one after
    the other, which is faithful where the threads write disjoint cells;
    inside a block every barrier-separated stage of the in-block tree
    reduction is one data-parallel step.

    Output.  The two files the class appends to are the lists of the
    items written to them; how [fprintf] renders a number is not
    modelled.  *)

From Stdlib Require Import Reals Lra Lia ZArith.
From Equations Require Import Equations.
From stdpp Require Import base list strings.
From coqutil Require Import Datatypes.RecordSetters.
Import RecordSetters.TriangleBracketNotations.

#[global] Instance R_inhabited : Inhabited R := populate 0%R.

(** ** Effects: fatal input errors and the log of divisors *)

Inductive outcome (A : Type) : Type :=
| Done (a : A) (divisors : list R)
| Fatal (msg : string).
Arguments Done {A} a divisors.
Arguments Fatal {A} msg.

Definition M (A : Type) : Type := list R -> outcome A.

Definition ret {A} (a : A) : M A := fun d => Done a d.

Definition bind {A B} (m : M A) (f : A -> M B) : M B :=
  fun d => match m d with
           | Done a d' => f a d'
           | Fatal msg => Fatal msg
           end.

Notation "x <- m ;; k" := (bind m (fun x => k))
  (at level 90, m at level 89, right associativity).
Notation "m ;;; k" := (bind m (fun _ => k))
  (at level 90, right associativity).

(** [a / b] on doubles. *)
Definition fdiv (a b : R) : M R := fun d => Done (a / b)%R (d ++ [b]).

(** [PRINT_INPUT_ERROR(msg)] (utilities/error.cuh): report and exit. *)
Definition PRINT_INPUT_ERROR {A} (msg : string) : M A := fun _ => Fatal msg.

(** A [for] loop over [0 .. n-1] whose body may divide or exit. *)
Fixpoint for_M {S} (idx : list nat) (body : nat -> S -> M S) (s : S) : M S :=
  match idx with
  | [] => ret s
  | i :: rest => s' <- body i s ;; for_M rest body s'
  end.

Definition aborted {A} (o : outcome A) : Prop :=
  match o with Fatal _ => True | Done _ _ => False end.

Definition divisors_of {A} (o : outcome A) : list R :=
  match o with Done _ d => d | Fatal _ => [] end.

(** ** Vectors *)

(** [std::vector::resize(n)]: keep the first [n] cells, fill with zero. *)
Definition resize {A} (zero : A) (n : nat) (v : list A) : list A :=
  take n v ++ replicate (n - length v) zero.

(** [dev.copy_from_host(host)] and [dev.copy_to_host(host)]: [size()]
    cells of the destination are overwritten. *)
Definition copy_into {A} (src dst : list A) : list A :=
  take (length dst) src ++ drop (length src) dst.

(** A one-dimensional launch: the global thread indices
    [blockIdx.x * blockDim.x + threadIdx.x]. *)
Definition launch_1d (blocks threads : nat) : list nat := seq 0 (blocks * threads).

(** [(n - 1) / d + 1] on C [int]s: [/] truncates toward zero. *)
Definition ceil_blocks (n d : nat) : nat :=
  Z.to_nat (Z.quot (Z.of_nat n - 1) (Z.of_nat d) + 1).

(** [a * b] on C [int]s, as the compiled code computes it: 32 bits in
    two's complement, wrapping around. *)
Definition int_mul (a b : Z) : Z :=
  ((a * b + 2147483648) mod 4294967296 - 2147483648)%Z.

(** ** Constants *)

Definition BOHR_IN_ANGSTROM : R := 0.529177249%R.

(** * Kernels *)

(** ** The in-block reduction shared by [sum_dipole] and [get_center_of_mass] *)

(** The first phase of both kernels: thread [tid] walks
    [atomIdx = tid + patch * 1024] and adds the term of every
    [atomIdx < N] to its private [d]. *)
Definition strided_partial (N number_of_patches : nat) (term : nat -> R) (tid : nat) : R :=
  foldl (fun d patch =>
           let atomIdx := tid + patch * 1024 in
           if decide (atomIdx < N) then (d + term atomIdx)%R else d)
        0%R (seq 0 number_of_patches).

(** One barrier-separated stage:
    [if (tid < offset) s_d[tid] += s_d[tid + offset];]. *)
Definition reduce_step (offset : nat) (s_d : list R) : list R :=
  imap (fun tid x =>
          if decide (tid < offset) then (x + s_d !!! (tid + offset)%nat)%R else x) s_d.

(** [for (offset = start; offset > lim; offset >>= 1) stage(offset)]. *)
Equations reduce_loop (offset lim : nat) (s_d : list R) : list R by wf offset lt :=
  reduce_loop offset lim s_d with decide (lim < offset) => {
    | left _ => reduce_loop (Nat.div2 offset) lim (reduce_step offset s_d)
    | right _ => s_d }.
Next Obligation. intros; apply Nat.lt_div2; lia. Qed.

Definition blockDim : nat := 1024.

(** The two loops of the kernels: [blockDim.x >> 1] down to 64 under
    [__syncthreads], then 32 down to 1 under [__syncwarp]; the result is
    read from [s_d[0]]. *)
Definition block_reduce (s_d : list R) : R :=
  reduce_loop 32 0 (reduce_loop (Nat.div2 blockDim) 32 s_d) !!! 0.

(** The value thread 0 of a block ends with: shared memory is filled by
    the [blockDim] threads of the block, then reduced. *)
Definition block_sum (N number_of_patches : nat) (term : nat -> R) : R :=
  block_reduce (strided_partial N number_of_patches term <$> seq 0 blockDim).

(** ** [sum_dipole<<<3, 1024>>>] *)

Definition sum_dipole (N number_of_patches : nat)
    (g_virial_per_atom g_dipole : list R) : list R :=
  foldl (fun g_dipole bid =>
           let componentIdx := bid * N in
           <[bid := block_sum N number_of_patches
                      (fun atomIdx => g_virial_per_atom !!! (componentIdx + atomIdx))]>
             g_dipole)
        g_dipole (seq 0 3).

(** ** [get_center_of_mass<<<3, 1024>>>] *)

Definition get_center_of_mass (N number_of_patches : nat) (total_mass : R)
    (g_mass_per_atom g_position_per_atom g_center_of_mass : list R) : M (list R) :=
  for_M (seq 0 3)
    (fun bid g_center_of_mass =>
       let componentIdx := bid * N in
       let s0 := block_sum N number_of_patches
                   (fun atomIdx => (g_mass_per_atom !!! atomIdx
                                    * g_position_per_atom !!! (componentIdx + atomIdx)%nat)%R) in
       c <- fdiv s0 total_mass ;;
       ret (<[bid := c]> g_center_of_mass))
    g_center_of_mass.

(** ** [copy_mass_and_type_to_cavity] *)

Definition copy_mass_and_type_to_cavity (blocks : nat) (N : nat)
    (ref_g_mass : list R) (ref_g_type : list Z)
    (g_mass : list R) (g_type : list Z) : list R * list Z :=
  foldl (fun '(g_mass, g_type) n1 =>
           if decide (n1 < N) then
             foldl (fun '(g_mass, g_type) i =>
                      (<[n1 + i * N := ref_g_mass !!! n1]> g_mass,
                       <[n1 + i * N := ref_g_type !!! n1]> g_type))
                   (g_mass, g_type) (seq 0 12)
           else (g_mass, g_type))
        (g_mass, g_type) (launch_1d blocks 128).

(** ** [copy_positions] *)

Definition copy_positions (blocks : nat) (N : nat) (ref_g_p g_p : list R) : list R :=
  foldl (fun g_p n1 =>
           if decide (n1 < N) then
             let g_p := <[n1 + 0 * N := ref_g_p !!! (n1 + 0 * N)]> g_p in
             let g_p := <[n1 + 1 * N := ref_g_p !!! (n1 + 1 * N)]> g_p in
             <[n1 + 2 * N := ref_g_p !!! (n1 + 2 * N)]> g_p
           else g_p)
        g_p (launch_1d blocks 128).

(** ** [apply_cavity_force] *)

Definition apply_cavity_force (blocks : nat) (N : nat) (g_force g_cav_force : list R) : list R :=
  foldl (fun g_force n1 =>
           if decide (n1 < N) then
             let g_force := <[n1 + 0 * N := (g_force !!! (n1 + 0 * N)%nat
                                            + g_cav_force !!! (n1 + 0 * N)%nat)%R]> g_force in
             let g_force := <[n1 + 1 * N := (g_force !!! (n1 + 1 * N)%nat
                                            + g_cav_force !!! (n1 + 1 * N)%nat)%R]> g_force in
             <[n1 + 2 * N := (g_force !!! (n1 + 2 * N)%nat
                             + g_cav_force !!! (n1 + 2 * N)%nat)%R]> g_force
           else g_force)
        g_force (launch_1d blocks 128).

(** ** [initialize_properties] *)

Definition initialize_properties (blocks : nat) (N : nat)
    (g_f g_pe g_virial : list R) : list R * list R * list R :=
  foldl (fun '(g_f, g_pe, g_virial) n1 =>
           if decide (n1 < N) then
             let g_f := <[n1 := 0%R]> g_f in
             let g_f := <[N + n1 := 0%R]> g_f in
             let g_f := <[N * 2 + n1 := 0%R]> g_f in
             let g_pe := <[n1 := 0%R]> g_pe in
             let g_virial :=
               foldl (fun g_virial c => <[n1 + c * N := 0%R]> g_virial) g_virial (seq 0 9) in
             (g_f, g_pe, g_virial)
           else (g_f, g_pe, g_virial))
        (g_f, g_pe, g_virial) (launch_1d blocks 128).

(** * The collaborators of the class *)

(** The code outside cavity.cu that the class calls: the NEP evaluator
    behind [potential] and [potential_jacobian] (nep3_cavity.cuh), the
    readers of utilities/read_file.cuh, the constant of
    utilities/common.cuh.  [compute] and [compute_jacobian] update the
    per-atom potential, force and virial buffers they are given, in this
    order; [fscanf_count] is what [fscanf(fid, "%s", name)] returns on the
    file of that name. *)
Class Collaborators := {
  Box : Type;
  compute : Box -> list Z -> list R -> list R * list R * list R
            -> list R * list R * list R;
  compute_jacobian : Box -> list Z -> list R -> list R * list R * list R
                     -> list nat -> list R * list R * list R;
  is_valid_real : string -> option R;
  is_valid_int : string -> option Z;
  fscanf_count : string -> Z;
  TIME_UNIT_CONVERSION : R
}.

(** [Atom] (model/atom.cuh), as far as the class touches it. *)
Module Atom.
Record t := {
  number_of_atoms : nat;
  cpu_type : list Z;
  cpu_mass : list R;
  cpu_position_per_atom : list R;
  type : list Z;
  mass : list R;
  position_per_atom : list R;
  force_per_atom : list R;
  virial_per_atom : list R;
  potential_per_atom : list R
}.
End Atom.

(** The setters behind [a <| Atom.field := v |>]: one match, so that a
    chain of updates reduces in as many steps as it has updates. *)
#[global] Instance set_Atom_number_of_atoms : Setter Atom.number_of_atoms :=
  fun f '(Atom.Build_t x1 x2 x3 x4 x5 x6 x7 x8 x9 x10) =>
    Atom.Build_t (f x1) x2 x3 x4 x5 x6 x7 x8 x9 x10.
#[global] Instance set_Atom_cpu_type : Setter Atom.cpu_type :=
  fun f '(Atom.Build_t x1 x2 x3 x4 x5 x6 x7 x8 x9 x10) =>
    Atom.Build_t x1 (f x2) x3 x4 x5 x6 x7 x8 x9 x10.
#[global] Instance set_Atom_cpu_mass : Setter Atom.cpu_mass :=
  fun f '(Atom.Build_t x1 x2 x3 x4 x5 x6 x7 x8 x9 x10) =>
    Atom.Build_t x1 x2 (f x3) x4 x5 x6 x7 x8 x9 x10.
#[global] Instance set_Atom_cpu_position_per_atom : Setter Atom.cpu_position_per_atom :=
  fun f '(Atom.Build_t x1 x2 x3 x4 x5 x6 x7 x8 x9 x10) =>
    Atom.Build_t x1 x2 x3 (f x4) x5 x6 x7 x8 x9 x10.
#[global] Instance set_Atom_type : Setter Atom.type :=
  fun f '(Atom.Build_t x1 x2 x3 x4 x5 x6 x7 x8 x9 x10) =>
    Atom.Build_t x1 x2 x3 x4 (f x5) x6 x7 x8 x9 x10.
#[global] Instance set_Atom_mass : Setter Atom.mass :=
  fun f '(Atom.Build_t x1 x2 x3 x4 x5 x6 x7 x8 x9 x10) =>
    Atom.Build_t x1 x2 x3 x4 x5 (f x6) x7 x8 x9 x10.
#[global] Instance set_Atom_position_per_atom : Setter Atom.position_per_atom :=
  fun f '(Atom.Build_t x1 x2 x3 x4 x5 x6 x7 x8 x9 x10) =>
    Atom.Build_t x1 x2 x3 x4 x5 x6 (f x7) x8 x9 x10.
#[global] Instance set_Atom_force_per_atom : Setter Atom.force_per_atom :=
  fun f '(Atom.Build_t x1 x2 x3 x4 x5 x6 x7 x8 x9 x10) =>
    Atom.Build_t x1 x2 x3 x4 x5 x6 x7 (f x8) x9 x10.
#[global] Instance set_Atom_virial_per_atom : Setter Atom.virial_per_atom :=
  fun f '(Atom.Build_t x1 x2 x3 x4 x5 x6 x7 x8 x9 x10) =>
    Atom.Build_t x1 x2 x3 x4 x5 x6 x7 x8 (f x9) x10.
#[global] Instance set_Atom_potential_per_atom : Setter Atom.potential_per_atom :=
  fun f '(Atom.Build_t x1 x2 x3 x4 x5 x6 x7 x8 x9 x10) =>
    Atom.Build_t x1 x2 x3 x4 x5 x6 x7 x8 x9 (f x10).

(** The batched system: an [Atom] with the replica tag [system_index]. *)
Module AtomCavity.
Record t := {
  number_of_atoms : Z;
  cpu_type : list Z;
  cpu_mass : list R;
  cpu_position_per_atom : list R;
  cpu_system_index : list nat;
  type : list Z;
  mass : list R;
  position_per_atom : list R;
  force_per_atom : list R;
  virial_per_atom : list R;
  potential_per_atom : list R;
  system_index : list nat
}.
End AtomCavity.

#[global] Instance set_AtomCavity_number_of_atoms : Setter AtomCavity.number_of_atoms :=
  fun f '(AtomCavity.Build_t x1 x2 x3 x4 x5 x6 x7 x8 x9 x10 x11 x12) =>
    AtomCavity.Build_t (f x1) x2 x3 x4 x5 x6 x7 x8 x9 x10 x11 x12.
#[global] Instance set_AtomCavity_cpu_type : Setter AtomCavity.cpu_type :=
  fun f '(AtomCavity.Build_t x1 x2 x3 x4 x5 x6 x7 x8 x9 x10 x11 x12) =>
    AtomCavity.Build_t x1 (f x2) x3 x4 x5 x6 x7 x8 x9 x10 x11 x12.
#[global] Instance set_AtomCavity_cpu_mass : Setter AtomCavity.cpu_mass :=
  fun f '(AtomCavity.Build_t x1 x2 x3 x4 x5 x6 x7 x8 x9 x10 x11 x12) =>
    AtomCavity.Build_t x1 x2 (f x3) x4 x5 x6 x7 x8 x9 x10 x11 x12.
#[global] Instance set_AtomCavity_cpu_position_per_atom : Setter AtomCavity.cpu_position_per_atom :=
  fun f '(AtomCavity.Build_t x1 x2 x3 x4 x5 x6 x7 x8 x9 x10 x11 x12) =>
    AtomCavity.Build_t x1 x2 x3 (f x4) x5 x6 x7 x8 x9 x10 x11 x12.
#[global] Instance set_AtomCavity_cpu_system_index : Setter AtomCavity.cpu_system_index :=
  fun f '(AtomCavity.Build_t x1 x2 x3 x4 x5 x6 x7 x8 x9 x10 x11 x12) =>
    AtomCavity.Build_t x1 x2 x3 x4 (f x5) x6 x7 x8 x9 x10 x11 x12.
#[global] Instance set_AtomCavity_type : Setter AtomCavity.type :=
  fun f '(AtomCavity.Build_t x1 x2 x3 x4 x5 x6 x7 x8 x9 x10 x11 x12) =>
    AtomCavity.Build_t x1 x2 x3 x4 x5 (f x6) x7 x8 x9 x10 x11 x12.
#[global] Instance set_AtomCavity_mass : Setter AtomCavity.mass :=
  fun f '(AtomCavity.Build_t x1 x2 x3 x4 x5 x6 x7 x8 x9 x10 x11 x12) =>
    AtomCavity.Build_t x1 x2 x3 x4 x5 x6 (f x7) x8 x9 x10 x11 x12.
#[global] Instance set_AtomCavity_position_per_atom : Setter AtomCavity.position_per_atom :=
  fun f '(AtomCavity.Build_t x1 x2 x3 x4 x5 x6 x7 x8 x9 x10 x11 x12) =>
    AtomCavity.Build_t x1 x2 x3 x4 x5 x6 x7 (f x8) x9 x10 x11 x12.
#[global] Instance set_AtomCavity_force_per_atom : Setter AtomCavity.force_per_atom :=
  fun f '(AtomCavity.Build_t x1 x2 x3 x4 x5 x6 x7 x8 x9 x10 x11 x12) =>
    AtomCavity.Build_t x1 x2 x3 x4 x5 x6 x7 x8 (f x9) x10 x11 x12.
#[global] Instance set_AtomCavity_virial_per_atom : Setter AtomCavity.virial_per_atom :=
  fun f '(AtomCavity.Build_t x1 x2 x3 x4 x5 x6 x7 x8 x9 x10 x11 x12) =>
    AtomCavity.Build_t x1 x2 x3 x4 x5 x6 x7 x8 x9 (f x10) x11 x12.
#[global] Instance set_AtomCavity_potential_per_atom : Setter AtomCavity.potential_per_atom :=
  fun f '(AtomCavity.Build_t x1 x2 x3 x4 x5 x6 x7 x8 x9 x10 x11 x12) =>
    AtomCavity.Build_t x1 x2 x3 x4 x5 x6 x7 x8 x9 x10 (f x11) x12.
#[global] Instance set_AtomCavity_system_index : Setter AtomCavity.system_index :=
  fun f '(AtomCavity.Build_t x1 x2 x3 x4 x5 x6 x7 x8 x9 x10 x11 x12) =>
    AtomCavity.Build_t x1 x2 x3 x4 x5 x6 x7 x8 x9 x10 x11 (f x12).

(** A configured potential of [Force], seen through [nep_model_type]. *)
Record Potential := { nep_model_type : Z }.

#[global] Instance Potential_inhabited : Inhabited Potential :=
  populate {| nep_model_type := 0 |}.

Module Force.
Record t := { potentials : list Potential }.
End Force.

(** The two [NEP3Cavity] objects, seen through their atom range. *)
Record NEP3Cavity := { N1 : Z; N2 : Z }.

(** The data members of [Cavity] (the output streams apart). *)
Record Cavity := {
  enabled_ : bool;
  number_of_atoms_ : nat;
  number_of_copied_systems_ : Z;
  number_of_atoms_in_copied_system_ : Z;
  potential : NEP3Cavity;
  potential_jacobian : NEP3Cavity;
  coupling_strength : R;
  cavity_frequency : R;
  charge : Z;
  mass_ : R;
  masses_ : list R;
  atom_copy : Atom.t;
  atom_cavity : AtomCavity.t;
  cpu_dipole_ : list R;
  gpu_dipole_ : list R;
  cpu_dipole_jacobian_ : list R;
  gpu_dipole_jacobian_ : list R;
  cpu_cavity_force_ : list R;
  gpu_cavity_force_ : list R;
  prevdipole : list R;
  q0 : R;
  cos_integral : R;
  sin_integral : R;
  prevtime : R;
  q : R;
  p : R;
  cavity_pot : R;
  cavity_kin : R
}.

#[global] Instance set_enabled_ : Setter enabled_ :=
  fun f '(Build_Cavity x1 x2 x3 x4 x5 x6 x7 x8 x9 x10 x11 x12 x13 x14 x15 x16 x17 x18
    x19 x20 x21 x22 x23 x24 x25 x26 x27 x28) =>
    Build_Cavity (f x1) x2 x3 x4 x5 x6 x7 x8 x9 x10 x11 x12 x13 x14 x15 x16 x17 x18 x19
      x20 x21 x22 x23 x24 x25 x26 x27 x28.
#[global] Instance set_number_of_atoms_ : Setter number_of_atoms_ :=
  fun f '(Build_Cavity x1 x2 x3 x4 x5 x6 x7 x8 x9 x10 x11 x12 x13 x14 x15 x16 x17 x18
    x19 x20 x21 x22 x23 x24 x25 x26 x27 x28) =>
    Build_Cavity x1 (f x2) x3 x4 x5 x6 x7 x8 x9 x10 x11 x12 x13 x14 x15 x16 x17 x18 x19
      x20 x21 x22 x23 x24 x25 x26 x27 x28.
#[global] Instance set_number_of_copied_systems_ : Setter number_of_copied_systems_ :=
  fun f '(Build_Cavity x1 x2 x3 x4 x5 x6 x7 x8 x9 x10 x11 x12 x13 x14 x15 x16 x17 x18
    x19 x20 x21 x22 x23 x24 x25 x26 x27 x28) =>
    Build_Cavity x1 x2 (f x3) x4 x5 x6 x7 x8 x9 x10 x11 x12 x13 x14 x15 x16 x17 x18 x19
      x20 x21 x22 x23 x24 x25 x26 x27 x28.
#[global] Instance set_number_of_atoms_in_copied_system_ : Setter number_of_atoms_in_copied_system_ :=
  fun f '(Build_Cavity x1 x2 x3 x4 x5 x6 x7 x8 x9 x10 x11 x12 x13 x14 x15 x16 x17 x18
    x19 x20 x21 x22 x23 x24 x25 x26 x27 x28) =>
    Build_Cavity x1 x2 x3 (f x4) x5 x6 x7 x8 x9 x10 x11 x12 x13 x14 x15 x16 x17 x18 x19
      x20 x21 x22 x23 x24 x25 x26 x27 x28.
#[global] Instance set_potential : Setter potential :=
  fun f '(Build_Cavity x1 x2 x3 x4 x5 x6 x7 x8 x9 x10 x11 x12 x13 x14 x15 x16 x17 x18
    x19 x20 x21 x22 x23 x24 x25 x26 x27 x28) =>
    Build_Cavity x1 x2 x3 x4 (f x5) x6 x7 x8 x9 x10 x11 x12 x13 x14 x15 x16 x17 x18 x19
      x20 x21 x22 x23 x24 x25 x26 x27 x28.
#[global] Instance set_potential_jacobian : Setter potential_jacobian :=
  fun f '(Build_Cavity x1 x2 x3 x4 x5 x6 x7 x8 x9 x10 x11 x12 x13 x14 x15 x16 x17 x18
    x19 x20 x21 x22 x23 x24 x25 x26 x27 x28) =>
    Build_Cavity x1 x2 x3 x4 x5 (f x6) x7 x8 x9 x10 x11 x12 x13 x14 x15 x16 x17 x18 x19
      x20 x21 x22 x23 x24 x25 x26 x27 x28.
#[global] Instance set_coupling_strength : Setter coupling_strength :=
  fun f '(Build_Cavity x1 x2 x3 x4 x5 x6 x7 x8 x9 x10 x11 x12 x13 x14 x15 x16 x17 x18
    x19 x20 x21 x22 x23 x24 x25 x26 x27 x28) =>
    Build_Cavity x1 x2 x3 x4 x5 x6 (f x7) x8 x9 x10 x11 x12 x13 x14 x15 x16 x17 x18 x19
      x20 x21 x22 x23 x24 x25 x26 x27 x28.
#[global] Instance set_cavity_frequency : Setter cavity_frequency :=
  fun f '(Build_Cavity x1 x2 x3 x4 x5 x6 x7 x8 x9 x10 x11 x12 x13 x14 x15 x16 x17 x18
    x19 x20 x21 x22 x23 x24 x25 x26 x27 x28) =>
    Build_Cavity x1 x2 x3 x4 x5 x6 x7 (f x8) x9 x10 x11 x12 x13 x14 x15 x16 x17 x18 x19
      x20 x21 x22 x23 x24 x25 x26 x27 x28.
#[global] Instance set_charge : Setter charge :=
  fun f '(Build_Cavity x1 x2 x3 x4 x5 x6 x7 x8 x9 x10 x11 x12 x13 x14 x15 x16 x17 x18
    x19 x20 x21 x22 x23 x24 x25 x26 x27 x28) =>
    Build_Cavity x1 x2 x3 x4 x5 x6 x7 x8 (f x9) x10 x11 x12 x13 x14 x15 x16 x17 x18 x19
      x20 x21 x22 x23 x24 x25 x26 x27 x28.
#[global] Instance set_mass_ : Setter mass_ :=
  fun f '(Build_Cavity x1 x2 x3 x4 x5 x6 x7 x8 x9 x10 x11 x12 x13 x14 x15 x16 x17 x18
    x19 x20 x21 x22 x23 x24 x25 x26 x27 x28) =>
    Build_Cavity x1 x2 x3 x4 x5 x6 x7 x8 x9 (f x10) x11 x12 x13 x14 x15 x16 x17 x18 x19
      x20 x21 x22 x23 x24 x25 x26 x27 x28.
#[global] Instance set_masses_ : Setter masses_ :=
  fun f '(Build_Cavity x1 x2 x3 x4 x5 x6 x7 x8 x9 x10 x11 x12 x13 x14 x15 x16 x17 x18
    x19 x20 x21 x22 x23 x24 x25 x26 x27 x28) =>
    Build_Cavity x1 x2 x3 x4 x5 x6 x7 x8 x9 x10 (f x11) x12 x13 x14 x15 x16 x17 x18 x19
      x20 x21 x22 x23 x24 x25 x26 x27 x28.
#[global] Instance set_atom_copy : Setter atom_copy :=
  fun f '(Build_Cavity x1 x2 x3 x4 x5 x6 x7 x8 x9 x10 x11 x12 x13 x14 x15 x16 x17 x18
    x19 x20 x21 x22 x23 x24 x25 x26 x27 x28) =>
    Build_Cavity x1 x2 x3 x4 x5 x6 x7 x8 x9 x10 x11 (f x12) x13 x14 x15 x16 x17 x18 x19
      x20 x21 x22 x23 x24 x25 x26 x27 x28.
#[global] Instance set_atom_cavity : Setter atom_cavity :=
  fun f '(Build_Cavity x1 x2 x3 x4 x5 x6 x7 x8 x9 x10 x11 x12 x13 x14 x15 x16 x17 x18
    x19 x20 x21 x22 x23 x24 x25 x26 x27 x28) =>
    Build_Cavity x1 x2 x3 x4 x5 x6 x7 x8 x9 x10 x11 x12 (f x13) x14 x15 x16 x17 x18 x19
      x20 x21 x22 x23 x24 x25 x26 x27 x28.
#[global] Instance set_cpu_dipole_ : Setter cpu_dipole_ :=
  fun f '(Build_Cavity x1 x2 x3 x4 x5 x6 x7 x8 x9 x10 x11 x12 x13 x14 x15 x16 x17 x18
    x19 x20 x21 x22 x23 x24 x25 x26 x27 x28) =>
    Build_Cavity x1 x2 x3 x4 x5 x6 x7 x8 x9 x10 x11 x12 x13 (f x14) x15 x16 x17 x18 x19
      x20 x21 x22 x23 x24 x25 x26 x27 x28.
#[global] Instance set_gpu_dipole_ : Setter gpu_dipole_ :=
  fun f '(Build_Cavity x1 x2 x3 x4 x5 x6 x7 x8 x9 x10 x11 x12 x13 x14 x15 x16 x17 x18
    x19 x20 x21 x22 x23 x24 x25 x26 x27 x28) =>
    Build_Cavity x1 x2 x3 x4 x5 x6 x7 x8 x9 x10 x11 x12 x13 x14 (f x15) x16 x17 x18 x19
      x20 x21 x22 x23 x24 x25 x26 x27 x28.
#[global] Instance set_cpu_dipole_jacobian_ : Setter cpu_dipole_jacobian_ :=
  fun f '(Build_Cavity x1 x2 x3 x4 x5 x6 x7 x8 x9 x10 x11 x12 x13 x14 x15 x16 x17 x18
    x19 x20 x21 x22 x23 x24 x25 x26 x27 x28) =>
    Build_Cavity x1 x2 x3 x4 x5 x6 x7 x8 x9 x10 x11 x12 x13 x14 x15 (f x16) x17 x18 x19
      x20 x21 x22 x23 x24 x25 x26 x27 x28.
#[global] Instance set_gpu_dipole_jacobian_ : Setter gpu_dipole_jacobian_ :=
  fun f '(Build_Cavity x1 x2 x3 x4 x5 x6 x7 x8 x9 x10 x11 x12 x13 x14 x15 x16 x17 x18
    x19 x20 x21 x22 x23 x24 x25 x26 x27 x28) =>
    Build_Cavity x1 x2 x3 x4 x5 x6 x7 x8 x9 x10 x11 x12 x13 x14 x15 x16 (f x17) x18 x19
      x20 x21 x22 x23 x24 x25 x26 x27 x28.
#[global] Instance set_cpu_cavity_force_ : Setter cpu_cavity_force_ :=
  fun f '(Build_Cavity x1 x2 x3 x4 x5 x6 x7 x8 x9 x10 x11 x12 x13 x14 x15 x16 x17 x18
    x19 x20 x21 x22 x23 x24 x25 x26 x27 x28) =>
    Build_Cavity x1 x2 x3 x4 x5 x6 x7 x8 x9 x10 x11 x12 x13 x14 x15 x16 x17 (f x18) x19
      x20 x21 x22 x23 x24 x25 x26 x27 x28.
#[global] Instance set_gpu_cavity_force_ : Setter gpu_cavity_force_ :=
  fun f '(Build_Cavity x1 x2 x3 x4 x5 x6 x7 x8 x9 x10 x11 x12 x13 x14 x15 x16 x17 x18
    x19 x20 x21 x22 x23 x24 x25 x26 x27 x28) =>
    Build_Cavity x1 x2 x3 x4 x5 x6 x7 x8 x9 x10 x11 x12 x13 x14 x15 x16 x17 x18 (f x19)
      x20 x21 x22 x23 x24 x25 x26 x27 x28.
#[global] Instance set_prevdipole : Setter prevdipole :=
  fun f '(Build_Cavity x1 x2 x3 x4 x5 x6 x7 x8 x9 x10 x11 x12 x13 x14 x15 x16 x17 x18
    x19 x20 x21 x22 x23 x24 x25 x26 x27 x28) =>
    Build_Cavity x1 x2 x3 x4 x5 x6 x7 x8 x9 x10 x11 x12 x13 x14 x15 x16 x17 x18 x19
      (f x20) x21 x22 x23 x24 x25 x26 x27 x28.
#[global] Instance set_q0 : Setter q0 :=
  fun f '(Build_Cavity x1 x2 x3 x4 x5 x6 x7 x8 x9 x10 x11 x12 x13 x14 x15 x16 x17 x18
    x19 x20 x21 x22 x23 x24 x25 x26 x27 x28) =>
    Build_Cavity x1 x2 x3 x4 x5 x6 x7 x8 x9 x10 x11 x12 x13 x14 x15 x16 x17 x18 x19 x20
      (f x21) x22 x23 x24 x25 x26 x27 x28.
#[global] Instance set_cos_integral : Setter cos_integral :=
  fun f '(Build_Cavity x1 x2 x3 x4 x5 x6 x7 x8 x9 x10 x11 x12 x13 x14 x15 x16 x17 x18
    x19 x20 x21 x22 x23 x24 x25 x26 x27 x28) =>
    Build_Cavity x1 x2 x3 x4 x5 x6 x7 x8 x9 x10 x11 x12 x13 x14 x15 x16 x17 x18 x19 x20
      x21 (f x22) x23 x24 x25 x26 x27 x28.
#[global] Instance set_sin_integral : Setter sin_integral :=
  fun f '(Build_Cavity x1 x2 x3 x4 x5 x6 x7 x8 x9 x10 x11 x12 x13 x14 x15 x16 x17 x18
    x19 x20 x21 x22 x23 x24 x25 x26 x27 x28) =>
    Build_Cavity x1 x2 x3 x4 x5 x6 x7 x8 x9 x10 x11 x12 x13 x14 x15 x16 x17 x18 x19 x20
      x21 x22 (f x23) x24 x25 x26 x27 x28.
#[global] Instance set_prevtime : Setter prevtime :=
  fun f '(Build_Cavity x1 x2 x3 x4 x5 x6 x7 x8 x9 x10 x11 x12 x13 x14 x15 x16 x17 x18
    x19 x20 x21 x22 x23 x24 x25 x26 x27 x28) =>
    Build_Cavity x1 x2 x3 x4 x5 x6 x7 x8 x9 x10 x11 x12 x13 x14 x15 x16 x17 x18 x19 x20
      x21 x22 x23 (f x24) x25 x26 x27 x28.
#[global] Instance set_q : Setter q :=
  fun f '(Build_Cavity x1 x2 x3 x4 x5 x6 x7 x8 x9 x10 x11 x12 x13 x14 x15 x16 x17 x18
    x19 x20 x21 x22 x23 x24 x25 x26 x27 x28) =>
    Build_Cavity x1 x2 x3 x4 x5 x6 x7 x8 x9 x10 x11 x12 x13 x14 x15 x16 x17 x18 x19 x20
      x21 x22 x23 x24 (f x25) x26 x27 x28.
#[global] Instance set_p : Setter p :=
  fun f '(Build_Cavity x1 x2 x3 x4 x5 x6 x7 x8 x9 x10 x11 x12 x13 x14 x15 x16 x17 x18
    x19 x20 x21 x22 x23 x24 x25 x26 x27 x28) =>
    Build_Cavity x1 x2 x3 x4 x5 x6 x7 x8 x9 x10 x11 x12 x13 x14 x15 x16 x17 x18 x19 x20
      x21 x22 x23 x24 x25 (f x26) x27 x28.
#[global] Instance set_cavity_pot : Setter cavity_pot :=
  fun f '(Build_Cavity x1 x2 x3 x4 x5 x6 x7 x8 x9 x10 x11 x12 x13 x14 x15 x16 x17 x18
    x19 x20 x21 x22 x23 x24 x25 x26 x27 x28) =>
    Build_Cavity x1 x2 x3 x4 x5 x6 x7 x8 x9 x10 x11 x12 x13 x14 x15 x16 x17 x18 x19 x20
      x21 x22 x23 x24 x25 x26 (f x27) x28.
#[global] Instance set_cavity_kin : Setter cavity_kin :=
  fun f '(Build_Cavity x1 x2 x3 x4 x5 x6 x7 x8 x9 x10 x11 x12 x13 x14 x15 x16 x17 x18
    x19 x20 x21 x22 x23 x24 x25 x26 x27 x28) =>
    Build_Cavity x1 x2 x3 x4 x5 x6 x7 x8 x9 x10 x11 x12 x13 x14 x15 x16 x17 x18 x19 x20
      x21 x22 x23 x24 x25 x26 x27 (f x28).

(** [std::copy(src.begin(), src.end(), dst.begin())]. *)
Definition std_copy {A} (src dst : list A) : list A :=
  src ++ drop (length src) dst.

(** * The members of [Cavity] *)

Section Members.
Context `{Collaborators}.

Local Open Scope R_scope.

(** ** [Cavity::parse] *)

(** [my_fopen] and the constructor of [NEP3Cavity] are code outside
    cavity.cu: here they return, and of the two potentials only the atom
    range is kept.  The two counts of the copied system are products of
    [int]s. *)
Definition parse (param : list string) (num_param : Z) (number_of_atoms : nat)
    (c : Cavity) : M Cavity :=
  let c := c <| enabled_ := true |> in
  let count := fscanf_count (param !!! 1%nat) in
  (if decide (count ≠ 1%Z)
   then PRINT_INPUT_ERROR "reading error for potential file." else ret tt) ;;;
  let c := c <| number_of_atoms_ := number_of_atoms |> in
  let c := c <| potential := {| N1 := 0; N2 := Z.of_nat number_of_atoms |} |> in
  let c := c <| number_of_copied_systems_ :=
                  int_mul 12 (Z.of_nat (number_of_atoms_ c)) |> in
  let c := c <| number_of_atoms_in_copied_system_ :=
                  int_mul (number_of_copied_systems_ c) (Z.of_nat (number_of_atoms_ c)) |> in
  let c := c <| potential_jacobian :=
                  {| N1 := 0; N2 := number_of_atoms_in_copied_system_ c |} |> in
  (if decide (num_param ≠ 5%Z)
   then PRINT_INPUT_ERROR "cavity should have 4 parameters." else ret tt) ;;;
  c <- match is_valid_real (param !!! 2%nat) with
       | Some v => ret (c <| coupling_strength := v |>)
       | None => PRINT_INPUT_ERROR "coupling strength should be a real number."
       end ;;
  (if Rlt_dec (coupling_strength c) 0.0
   then PRINT_INPUT_ERROR "coupling strength cannot be negative." else ret tt) ;;;
  c <- match is_valid_real (param !!! 3%nat) with
       | Some v => ret (c <| cavity_frequency := v |>)
       | None => PRINT_INPUT_ERROR "cavity frequency should be a real number."
       end ;;
  (if Rlt_dec (cavity_frequency c) 0.0
   then PRINT_INPUT_ERROR "cavity frequency cannot be negative." else ret tt) ;;;
  c <- match is_valid_int (param !!! 4%nat) with
       | Some v => ret (c <| charge := v |>)
       | None => PRINT_INPUT_ERROR "total system charge should be an integer."
       end ;;
  ret c.

(** ** [Cavity::get_dipole] *)

(** The three force pointers of [initialize_properties] are offsets
    [0], [N] and [2N] into [force_per_atom]. *)
Definition get_dipole (box : Box) (force : Force.t) (c : Cavity) : Cavity :=
  let N := number_of_atoms_ c in
  let ac := atom_copy c in
  let '(g_f, g_pe, g_virial) :=
    initialize_properties (ceil_blocks N 128) N
      (Atom.force_per_atom ac) (Atom.potential_per_atom ac) (Atom.virial_per_atom ac) in
  let c := c <| cpu_dipole_ := <[0%nat := 0.0]> (cpu_dipole_ c) |> in
  let c := c <| cpu_dipole_ := <[1%nat := 0.0]> (cpu_dipole_ c) |> in
  let c := c <| cpu_dipole_ := <[2%nat := 0.0]> (cpu_dipole_ c) |> in
  let c := c <| gpu_dipole_ := copy_into (cpu_dipole_ c) (gpu_dipole_ c) |> in
  let '(g_pe, g_f, g_virial) :=
    compute box (Atom.type ac) (Atom.position_per_atom ac) (g_pe, g_f, g_virial) in
  let ac := ac <| Atom.potential_per_atom := g_pe |>
               <| Atom.force_per_atom := g_f |>
               <| Atom.virial_per_atom := g_virial |> in
  let c := c <| atom_copy := ac |> in
  let number_of_threads := 1024%nat in
  let number_of_atoms_per_thread := ceil_blocks N number_of_threads in
  c <| gpu_dipole_ :=
         sum_dipole N number_of_atoms_per_thread
           (Atom.virial_per_atom (atom_copy c)) (gpu_dipole_ c) |>.

(** ** [Cavity::_get_center_of_mass] *)

Definition _get_center_of_mass (c : Cavity) (gpu_center_of_mass : list R) : M (list R) :=
  let number_of_threads := 1024%nat in
  let number_of_atoms_per_thread := ceil_blocks (number_of_atoms_ c) number_of_threads in
  get_center_of_mass (number_of_atoms_ c) number_of_atoms_per_thread (mass_ c)
    (Atom.mass (atom_copy c)) (Atom.position_per_atom (atom_copy c))
    gpu_center_of_mass.

(** ** [Cavity::get_dipole_jacobian] *)

Definition shifts (displacement : R) : list R :=
  [displacement; 2 * displacement; -1 * displacement; -2 * displacement].

(** Step 1, the body of the loops over direction [i], atom [j] and stencil
    point [k]: copy the [3N] reference coordinates to the cells from
    [copy_index * N] on, add the shift at [copy_index + displaced_index],
    tag [N] atoms with [copy_index]. *)
Definition place_replica (N : nat) (reference : list R) (shifts : list R)
    (i j k : nat) (bufs : list R * list nat) : list R * list nat :=
  let '(cpu_position_per_atom, cpu_system_index) := bufs in
  let values_per_direction := (4 * N)%nat in
  let displaced_index := (N * i + j)%nat in
  let copy_index := (values_per_direction * i + j * 4 + k)%nat in
  let cpu_position_per_atom :=
    foldl (fun pos l => <[(copy_index * N + l)%nat := reference !!! l]> pos)
          cpu_position_per_atom (seq 0 (3 * N)) in
  let cpu_position_per_atom :=
    <[(copy_index + displaced_index)%nat :=
        cpu_position_per_atom !!! (copy_index + displaced_index)%nat + shifts !!! k]>
      cpu_position_per_atom in
  let cpu_system_index :=
    foldl (fun idx l => <[(copy_index * N + l)%nat := copy_index]> idx)
          cpu_system_index (seq 0 N) in
  (cpu_position_per_atom, cpu_system_index).

(** Step 1, the loop nest. *)
Definition setup_replicas (N : nat) (reference : list R) (displacement : R)
    (bufs : list R * list nat) : list R * list nat :=
  foldl (fun bufs i =>
    foldl (fun bufs j =>
      foldl (fun bufs k => place_replica N reference (shifts displacement) i j k bufs)
            bufs (seq 0 4))
      bufs (seq 0 N))
    bufs (seq 0 3).

(** Step 3, the body of the loops over direction [i] and atom [j]: the
    four running centers of mass are moved, every component [k] of the
    entry is stored, the centers of mass are put back.  (The four
    [*_index] integers the source computes here are never read.) *)
Definition collect_entry (displacement_over_M : R) (masses_ : list R) (i j : nat)
    (st : list R * list R * list R * list R * list R)
    : list R * list R * list R * list R * list R :=
  let '(center_of_mass_forward_one_h, center_of_mass_forward_two_h,
        center_of_mass_backward_one_h, center_of_mass_backward_two_h,
        cpu_dipole_jacobian_) := st in
  let N_components := 3%nat in
  let values_per_atom := 9%nat in
  let old_center_of_mass := center_of_mass_forward_one_h !!! i in
  let center_of_mass_forward_one_h :=
    <[i := center_of_mass_forward_one_h !!! i + displacement_over_M * masses_ !!! j]>
      center_of_mass_forward_one_h in
  let center_of_mass_forward_two_h :=
    <[i := center_of_mass_forward_two_h !!! i + 2 * displacement_over_M * masses_ !!! j]>
      center_of_mass_forward_two_h in
  let center_of_mass_backward_one_h :=
    <[i := center_of_mass_backward_one_h !!! i - displacement_over_M * masses_ !!! j]>
      center_of_mass_backward_one_h in
  let center_of_mass_backward_two_h :=
    <[i := center_of_mass_backward_two_h !!! i - 2 * displacement_over_M * masses_ !!! j]>
      center_of_mass_backward_two_h in
  let cpu_dipole_jacobian_ :=
    foldl (fun jac k => <[(i * N_components + j * values_per_atom + k)%nat := 1.0]> jac)
          cpu_dipole_jacobian_ (seq 0 N_components) in
  (<[i := old_center_of_mass]> center_of_mass_forward_one_h,
   <[i := old_center_of_mass]> center_of_mass_forward_two_h,
   <[i := old_center_of_mass]> center_of_mass_backward_one_h,
   <[i := old_center_of_mass]> center_of_mass_backward_two_h,
   cpu_dipole_jacobian_).

(** Step 3, the loop nest. *)
Definition collect_jacobian (N : nat) (displacement_over_M : R) (masses_ : list R)
    (st : list R * list R * list R * list R * list R)
    : list R * list R * list R * list R * list R :=
  foldl (fun st i =>
    foldl (fun st j => collect_entry displacement_over_M masses_ i j st) st (seq 0 N))
    st (seq 0 3).

Definition get_dipole_jacobian (box : Box) (force : Force.t)
    (displacement : R) (charge : R) (c : Cavity) : M Cavity :=
  let N := number_of_atoms_ c in
  let NN := Z.to_nat (number_of_atoms_in_copied_system_ c) in
  gpu_center_of_mass <- _get_center_of_mass c (replicate 3 0) ;;
  let center_of_mass_forward_one_h := copy_into gpu_center_of_mass (replicate 3 0) in
  let center_of_mass_forward_two_h := center_of_mass_forward_one_h in
  let center_of_mass_backward_one_h := center_of_mass_forward_one_h in
  let center_of_mass_backward_two_h := center_of_mass_forward_one_h in
  displacement_over_M <- fdiv displacement (mass_ c) ;;
  one_over_displacement <- fdiv 1.0 displacement ;;
  c0 <- fdiv (-1.0) 12.0 ;;
  c1 <- fdiv 2.0 3.0 ;;
  (* Step 1 *)
  let ac := atom_copy c in
  let ac := ac <| Atom.cpu_position_per_atom :=
                    copy_into (Atom.position_per_atom ac) (Atom.cpu_position_per_atom ac) |> in
  let c := c <| atom_copy := ac |> in
  let av := atom_cavity c in
  let '(cpu_position_per_atom, cpu_system_index) :=
    setup_replicas N (Atom.cpu_position_per_atom ac) displacement
      (AtomCavity.cpu_position_per_atom av, AtomCavity.cpu_system_index av) in
  let av := av <| AtomCavity.cpu_position_per_atom := cpu_position_per_atom |>
               <| AtomCavity.cpu_system_index := cpu_system_index |> in
  let av := av <| AtomCavity.position_per_atom :=
                    copy_into (AtomCavity.cpu_position_per_atom av)
                              (AtomCavity.position_per_atom av) |> in
  let av := av <| AtomCavity.system_index :=
                    copy_into (AtomCavity.cpu_system_index av)
                              (AtomCavity.system_index av) |> in
  (* Step 2 *)
  let '(g_f, g_pe, g_virial) :=
    initialize_properties (ceil_blocks NN 128) NN
      (AtomCavity.force_per_atom av) (AtomCavity.potential_per_atom av)
      (AtomCavity.virial_per_atom av) in
  let '(g_pe, g_f, g_virial) :=
    compute_jacobian box (AtomCavity.type av) (AtomCavity.position_per_atom av)
      (g_pe, g_f, g_virial) (AtomCavity.system_index av) in
  let av := av <| AtomCavity.potential_per_atom := g_pe |>
               <| AtomCavity.force_per_atom := g_f |>
               <| AtomCavity.virial_per_atom := g_virial |> in
  let c := c <| atom_cavity := av |> in
  (* Step 3 *)
  let '(_, _, _, _, jac) :=
    collect_jacobian N displacement_over_M (masses_ c)
      (center_of_mass_forward_one_h, center_of_mass_forward_two_h,
       center_of_mass_backward_one_h, center_of_mass_backward_two_h,
       cpu_dipole_jacobian_ c) in
  ret (c <| cpu_dipole_jacobian_ := jac |>).

(** ** [Cavity::compute_dipole_and_jacobian] *)

(** The loop over the three components: Bohr to angstrom, then charge
    times the center of mass. *)
Definition convert_dipole (cpu_center_of_mass : list R) (c : Cavity) : Cavity :=
  foldl (fun c i =>
           let c := c <| cpu_dipole_ :=
                           <[i := cpu_dipole_ c !!! i * BOHR_IN_ANGSTROM]> (cpu_dipole_ c) |> in
           c <| cpu_dipole_ :=
                  <[i := cpu_dipole_ c !!! i + IZR (charge c) * cpu_center_of_mass !!! i]>
                    (cpu_dipole_ c) |>)
        c (seq 0 3).

Definition compute_dipole_and_jacobian (step : Z) (box : Box) (atom : Atom.t)
    (force : Force.t) (c : Cavity) : M Cavity :=
  if negb (enabled_ c) then ret c else
  let N := number_of_atoms_ c in
  let c := c <| atom_copy :=
                  (atom_copy c) <| Atom.position_per_atom :=
                     copy_positions (ceil_blocks N 128) N
                       (Atom.position_per_atom atom)
                       (Atom.position_per_atom (atom_copy c)) |> |> in
  let c := get_dipole box force c in
  let c := c <| cpu_dipole_ := copy_into (gpu_dipole_ c) (cpu_dipole_ c) |> in
  gpu_center_of_mass <- _get_center_of_mass c (replicate 3 0) ;;
  let cpu_center_of_mass := copy_into gpu_center_of_mass (replicate 3 0) in
  let c := convert_dipole cpu_center_of_mass c in
  get_dipole_jacobian box force 0.001 (IZR (charge c)) c.

(** ** [Cavity::initialize] *)

(** The loop over the atoms: the masses are copied to [masses_] and
    added to [mass_]. *)
Definition total_mass (atom : Atom.t) (c : Cavity) : Cavity :=
  foldl (fun c i =>
           let m_i := Atom.cpu_mass atom !!! i in
           let c := c <| masses_ := <[i := m_i]> (masses_ c) |> in
           c <| mass_ := mass_ c + m_i |>)
        c (seq 0 (number_of_atoms_ c)).

Definition initialize (box : Box) (atom : Atom.t) (force : Force.t)
    (c : Cavity) : M Cavity :=
  if enabled_ c then
    let number_of_potentials := length (Force.potentials force) in
    let N := number_of_atoms_ c in
    let NN := Z.to_nat (number_of_atoms_in_copied_system_ c) in
    let c := c <| prevdipole := resize 0 3 (prevdipole c) |> in
    let c := c <| cpu_dipole_ := resize 0 3 (cpu_dipole_ c) |> in
    let c := c <| cpu_dipole_jacobian_ := resize 0 (N * 3 * 3) (cpu_dipole_jacobian_ c) |> in
    let c := c <| cpu_cavity_force_ := resize 0 (N * 3) (cpu_cavity_force_ c) |> in
    let c := c <| gpu_dipole_ := resize 0 3 (gpu_dipole_ c) |> in
    let c := c <| gpu_dipole_jacobian_ := resize 0 (N * 3 * 3) (gpu_dipole_jacobian_ c) |> in
    let c := c <| gpu_cavity_force_ := resize 0 (N * 3) (gpu_cavity_force_ c) |> in
    let ac := atom_copy c in
    let ac := ac <| Atom.number_of_atoms := N |>
                 <| Atom.type := resize 0%Z N (Atom.type ac) |>
                 <| Atom.mass := resize 0 N (Atom.mass ac) |>
                 <| Atom.position_per_atom := resize 0 (N * 3) (Atom.position_per_atom ac) |>
                 <| Atom.force_per_atom := resize 0 (N * 3) (Atom.force_per_atom ac) |>
                 <| Atom.virial_per_atom := resize 0 (N * 9) (Atom.virial_per_atom ac) |>
                 <| Atom.potential_per_atom := resize 0 N (Atom.potential_per_atom ac) |>
                 <| Atom.cpu_type := resize 0%Z N (Atom.cpu_type ac) |>
                 <| Atom.cpu_mass := resize 0 N (Atom.cpu_mass ac) |>
                 <| Atom.cpu_position_per_atom :=
                      resize 0 (N * 3) (Atom.cpu_position_per_atom ac) |> in
    let c := c <| atom_copy := ac |> in
    let av := atom_cavity c in
    let av := av <| AtomCavity.number_of_atoms := number_of_atoms_in_copied_system_ c |>
                 <| AtomCavity.type := resize 0%Z NN (AtomCavity.type av) |>
                 <| AtomCavity.mass := resize 0 NN (AtomCavity.mass av) |>
                 <| AtomCavity.position_per_atom :=
                      resize 0 (NN * 3) (AtomCavity.position_per_atom av) |>
                 <| AtomCavity.force_per_atom :=
                      resize 0 (NN * 3) (AtomCavity.force_per_atom av) |>
                 <| AtomCavity.virial_per_atom :=
                      resize 0 (NN * 9) (AtomCavity.virial_per_atom av) |>
                 <| AtomCavity.potential_per_atom :=
                      resize 0 NN (AtomCavity.potential_per_atom av) |>
                 <| AtomCavity.cpu_type := resize 0%Z NN (AtomCavity.cpu_type av) |>
                 <| AtomCavity.cpu_mass := resize 0 NN (AtomCavity.cpu_mass av) |>
                 <| AtomCavity.cpu_position_per_atom :=
                      resize 0 (NN * 3) (AtomCavity.cpu_position_per_atom av) |>
                 <| AtomCavity.system_index := resize 0%nat NN (AtomCavity.system_index av) |>
                 <| AtomCavity.cpu_system_index :=
                      resize 0%nat NN (AtomCavity.cpu_system_index av) |> in
    let c := c <| atom_cavity := av |> in
    (if decide (number_of_potentials ≠ 2%nat)
     then PRINT_INPUT_ERROR "cavity requires two potentials to be specified."
     else ret tt) ;;;
    (if decide (nep_model_type (Force.potentials force !!! 1%nat) ≠ 1%Z)
     then PRINT_INPUT_ERROR "cavity requires the second NEP potential to be a dipole model."
     else ret tt) ;;;
    let c := c <| masses_ := resize 0 N (masses_ c) |> in
    let c := total_mass atom c in
    let ac := atom_copy c in
    let ac := ac <| Atom.type := copy_into (Atom.cpu_type atom) (Atom.type ac) |> in
    let ac := ac <| Atom.mass := copy_into (Atom.cpu_mass atom) (Atom.mass ac) |> in
    let c := c <| atom_copy := ac |> in
    let av := atom_cavity c in
    let '(g_mass, g_type) :=
      copy_mass_and_type_to_cavity (ceil_blocks N 128) N
        (Atom.mass atom) (Atom.type atom) (AtomCavity.mass av) (AtomCavity.type av) in
    let av := av <| AtomCavity.mass := g_mass |> <| AtomCavity.type := g_type |> in
    let c := c <| atom_cavity := av |> in
    c <- compute_dipole_and_jacobian 0 box atom force c ;;
    q0' <- fdiv (coupling_strength c * cpu_dipole_ c !!! 2%nat) (cavity_frequency c) ;;
    let c := c <| q0 := q0' |> in
    let c := c <| cos_integral := 0.0 |> in
    let c := c <| sin_integral := 0.0 |> in
    let c := c <| prevtime := 0.0 |> in
    ret (c <| prevdipole := std_copy (cpu_dipole_ c) (prevdipole c) |>)
  else ret c.

(** ** [Cavity::canonical_position] and [Cavity::canonical_momentum] *)

Definition canonical_position (time : R) (c : Cavity) : Cavity :=
  let phase := cavity_frequency c * time in
  c <| q := sin phase * cos_integral c
            - cos phase * sin_integral c
            + q0 c * cos phase |>.

Definition canonical_momentum (time : R) (c : Cavity) : Cavity :=
  let phase := cavity_frequency c * time in
  c <| p := cavity_frequency c * (
              cos phase * cos_integral c
              + sin phase * sin_integral c
              - q0 c * sin phase) |>.

(** ** [Cavity::cavity_potential_energy] and [Cavity::cavity_kinetic_energy] *)

Definition cavity_potential_energy (c : Cavity) : Cavity :=
  let coup_times_dip := coupling_strength c * cpu_dipole_ c !!! 2%nat in
  let cav_factor := cavity_frequency c * q c - coup_times_dip in
  c <| cavity_pot := 0.5 * cav_factor * cav_factor |>.

Definition cavity_kinetic_energy (c : Cavity) : Cavity :=
  c <| cavity_kin := 0.5 * p c * p c |>.

(** ** [Cavity::cavity_force] *)

Definition cavity_force (c : Cavity) : Cavity :=
  let N := number_of_atoms_ c in
  let c :=
    foldl (fun c i => c <| cpu_cavity_force_ := <[i := 0.0]> (cpu_cavity_force_ c) |>)
          c (seq 0 (3 * N)) in
  let cav_factor := cavity_frequency c * q c - coupling_strength c * cpu_dipole_ c !!! 2%nat in
  let N_components := 3%nat in
  let values_per_atom := 9%nat in
  foldl (fun c j =>
           let c := c <| cpu_cavity_force_ :=
                           <[(j + 0 * N)%nat :=
                               cav_factor * coupling_strength c
                               * cpu_dipole_jacobian_ c
                                   !!! (0 * N_components + j * values_per_atom + 2)%nat]>
                             (cpu_cavity_force_ c) |> in
           let c := c <| cpu_cavity_force_ :=
                           <[(j + 1 * N)%nat :=
                               cav_factor * coupling_strength c
                               * cpu_dipole_jacobian_ c
                                   !!! (1 * N_components + j * values_per_atom + 2)%nat]>
                             (cpu_cavity_force_ c) |> in
           c <| cpu_cavity_force_ :=
                  <[(j + 2 * N)%nat :=
                      cav_factor * coupling_strength c
                      * cpu_dipole_jacobian_ c
                          !!! (2 * N_components + j * values_per_atom + 2)%nat]>
                    (cpu_cavity_force_ c) |>)
        c (seq 0 N).

(** ** [Cavity::compute_and_apply_cavity_force] *)

Definition compute_and_apply_cavity_force (atom : Atom.t) (c : Cavity) : Atom.t * Cavity :=
  if negb (enabled_ c) then (atom, c) else
  let c := cavity_force c in
  let c := c <| gpu_cavity_force_ := copy_into (cpu_cavity_force_ c) (gpu_cavity_force_ c) |> in
  let N := number_of_atoms_ c in
  (atom <| Atom.force_per_atom :=
             apply_cavity_force (ceil_blocks N 128) N
               (Atom.force_per_atom atom) (gpu_cavity_force_ c) |>,
   c).

(** ** [Cavity::step_cavity] *)

Definition step_cavity (time : R) (c : Cavity) : Cavity :=
  let dt := time - prevtime c in
  let prevlmu := coupling_strength c * prevdipole c !!! 2%nat in
  let lmu := coupling_strength c * cpu_dipole_ c !!! 2%nat in
  let c := c <| cos_integral :=
                  cos_integral c + 0.5 * dt * cos (cavity_frequency c * prevtime c) * prevlmu |> in
  let c := c <| sin_integral :=
                  sin_integral c + 0.5 * dt * sin (cavity_frequency c * prevtime c) * prevlmu |> in
  let c := c <| cos_integral :=
                  cos_integral c + 0.5 * dt * cos (cavity_frequency c * time) * lmu |> in
  let c := c <| sin_integral :=
                  sin_integral c + 0.5 * dt * sin (cavity_frequency c * time) * lmu |> in
  let c := c <| prevtime := time |> in
  c <| prevdipole := std_copy (cpu_dipole_ c) (prevdipole c) |>.

(** ** [Cavity::update_cavity] *)

Definition update_cavity (step : Z) (global_time : R) (c : Cavity) : Cavity :=
  if negb (enabled_ c) then c else
  let time := global_time * TIME_UNIT_CONVERSION in
  let c := step_cavity time c in
  let c := canonical_position time c in
  let c := canonical_momentum time c in
  let c := cavity_potential_energy c in
  cavity_kinetic_energy c.

(** ** [Cavity::finalize] *)

Definition finalize (c : Cavity) : Cavity :=
  if enabled_ c then c <| enabled_ := false |> else c.

End Members.

(** * The output of the class *)

(** The streams [jacfile_] and [cavfile_] (jacobian.out and cavity.out,
    opened for appending), by what has been written to them:
    [Integer] is a value printed with [%d], [Scientific] one printed
    with [%20.10e], [Newline] the end of a line. *)
Inductive item : Type :=
| Integer (z : Z)
| Scientific (x : R)
| Newline.

Record Streams := { jacfile_ : list item; cavfile_ : list item }.

Section Output.
Context `{Collaborators}.
Local Open Scope R_scope.

(** ** [Cavity::write_dipole] *)

Definition write_dipole (step : Z) (c : Cavity) (out : Streams) : Streams :=
  let jacfile :=
    jacfile_ out
    ++ [Integer step; Scientific (cpu_dipole_ c !!! 0%nat);
        Scientific (cpu_dipole_ c !!! 1%nat); Scientific (cpu_dipole_ c !!! 2%nat)] in
  let jacfile :=
    foldl (fun jacfile i => jacfile ++ [Scientific (cpu_dipole_jacobian_ c !!! i)])
          jacfile (seq 0 (length (cpu_dipole_jacobian_ c))) in
  {| jacfile_ := jacfile ++ [Newline]; cavfile_ := cavfile_ out |}.

(** ** [Cavity::write_cavity] *)

Definition write_cavity (step : Z) (time : R) (c : Cavity) (out : Streams) : Streams :=
  let cavfile :=
    cavfile_ out
    ++ [Integer step; Scientific time; Scientific (q c); Scientific (p c);
        Scientific (cavity_pot c); Scientific (cavity_kin c)] in
  let cavfile :=
    foldl (fun cavfile i => cavfile ++ [Scientific (cpu_cavity_force_ c !!! i)])
          cavfile (seq 0 (length (cpu_cavity_force_ c))) in
  {| jacfile_ := jacfile_ out; cavfile_ := cavfile ++ [Newline] |}.

(** ** [Cavity::write] *)

Definition write (step : Z) (global_time : R) (c : Cavity) (out : Streams) : Streams :=
  if negb (enabled_ c) then out else
  let time := global_time * TIME_UNIT_CONVERSION in
  let out := write_dipole step c out in
  write_cavity step time c out.

End Output.

(** * Reference definitions of the specification *)

(** The sequential left-to-right accumulation of a list of values:
    [acc = 0; for v in values: acc += v]. *)
Definition sequential_sum (values : list R) : R := foldl Rplus 0%R values.

(** The values [f 0], ..., [f (n-1)] accumulated in this order. *)
Definition sum_upto (n : nat) (f : nat -> R) : R := sequential_sum (f <$> seq 0 n).

(** What a sequential loop over the atoms leaves in [g_dipole[bid]]. *)
Definition sum_dipole_sequential (N : nat) (g_virial_per_atom : list R) (bid : nat) : R :=
  sequential_sum
    ((fun atomIdx => g_virial_per_atom !!! (bid * N + atomIdx)) <$> seq 0 N).

(** What a sequential loop over the atoms leaves in
    [g_center_of_mass[bid]]: [sum(mass_i * position_i) / total_mass]. *)
Definition center_of_mass_sequential (N : nat) (total_mass : R)
    (g_mass_per_atom g_position_per_atom : list R) (bid : nat) : R :=
  (sequential_sum
     ((fun atomIdx => g_mass_per_atom !!! atomIdx
                      * g_position_per_atom !!! (bid * N + atomIdx)%nat)%R <$> seq 0 N)
   / total_mass)%R.

(** The trapezoidal rule for a constant sample [c] against the weight [w]
    on the uniform grid [t_n = t0 + n * dt]:
    [sum over n = 1..k of 0.5 * dt * (w t_(n-1) + w t_n) * c]. *)
Definition trapezoid_closed_form (w : R -> R) (c t0 dt : R) (k : nat) : R :=
  sum_upto k (fun n => (0.5 * dt * (w (t0 + INR n * dt) + w (t0 + INR (S n) * dt)) * c)%R).

(** [k] calls of [step] at the times [t0 + dt], [t0 + 2 dt], ...,
    [t0 + k dt], the dipole staying what it is. *)
Definition uniform_steps (t0 dt : R) (k : nat) (c : Cavity) : Cavity :=
  foldl (fun c n => step_cavity (t0 + INR (S n) * dt) c) c (seq 0 k).

(** The central difference of the specification, with [c0 = -1/12] for
    the points at [2h] and [c1 = 2/3] for the points at [h]. *)
Definition central_difference (mu : R -> R) (h : R) : R :=
  ((- (1 / 12) * mu (2 * h) + 2 / 3 * mu h - 2 / 3 * mu (- h) - - (1 / 12) * mu (- (2 * h))) / h)%R.

Section Reference.
Context `{Collaborators}.
Local Open Scope R_scope.

(** The dipole of section 4.1 for the coordinates [position] (one block of
    [N] cells per axis): the per-atom contributions of the evaluator
    summed, converted to angstrom, plus charge times the center of mass. *)
Definition corrected_dipole (box : Box) (N : nat) (type : list Z) (mass : list R)
    (charge : R) (position : list R) (k : nat) : R :=
  let '(_, _, virial) :=
    compute box type position (replicate N 0, replicate (N * 3) 0, replicate (N * 9) 0) in
  sum_dipole_sequential N virial k * BOHR_IN_ANGSTROM
  + charge * center_of_mass_sequential N (sequential_sum mass) mass position k.

(** The Jacobian entry of section 4.2 for direction [i], atom [j] and
    dipole component [k]: the central difference of the corrected dipole
    in the coordinate [i] of atom [j]. *)
Definition jacobian_entry_spec (box : Box) (N : nat) (type : list Z) (mass : list R)
    (charge : R) (position : list R) (h : R) (i j k : nat) : R :=
  central_difference
    (fun s => corrected_dipole box N type mass charge
                (<[(N * i + j)%nat := position !!! (N * i + j)%nat + s]> position) k)
    h.

End Reference.

(** The replica of section 4.2 for direction [i], atom [j] and shift [s]:
    the reference coordinates, the coordinate [i] of atom [j] moved by [s]. *)
Definition replica_spec (N : nat) (reference : list R) (i j : nat) (s : R) : list R :=
  <[(N * i + j)%nat := (reference !!! (N * i + j)%nat + s)%R]> reference.

(** * Definitions the statements and proofs use *)

Section Auxiliary.
Context `{Collaborators}.
Local Open Scope R_scope.

(** The term a thread adds for [atomIdx]: nothing from [N] on. *)
Definition guarded (N : nat) (term : nat -> R) (atomIdx : nat) : R :=
  if decide (atomIdx < N)%nat then term atomIdx else 0.

(** Three stores, one per block of [N] cells: a turn of the loop of
    [cavity_force], a thread of [copy_positions]. *)
Definition block_stores (N : nat) (F : nat -> nat -> R) (j : nat) (v : list R) : list R :=
  <[(j + 2 * N)%nat := F 2%nat j]>
    (<[(j + 1 * N)%nat := F 1%nat j]> (<[(j + 0 * N)%nat := F 0%nat j]> v)).

(** The three updates of one thread of [apply_cavity_force]. *)
Definition force_added (N : nat) (g_cav_force : list R) (n1 : nat) (v : list R) : list R :=
  let v := <[(n1 + 0 * N)%nat := v !!! (n1 + 0 * N)%nat + g_cav_force !!! (n1 + 0 * N)%nat]> v in
  let v := <[(n1 + 1 * N)%nat := v !!! (n1 + 1 * N)%nat + g_cav_force !!! (n1 + 1 * N)%nat]> v in
  <[(n1 + 2 * N)%nat := v !!! (n1 + 2 * N)%nat + g_cav_force !!! (n1 + 2 * N)%nat]> v.

(** The entry [cavity_force] stores for direction [i] and atom [j]. *)
Definition cavity_force_entry (c : Cavity) (i j : nat) : R :=
  (cavity_frequency c * q c - coupling_strength c * cpu_dipole_ c !!! 2%nat)
  * coupling_strength c
  * cpu_dipole_jacobian_ c !!! (i * 3 + j * 9 + 2)%nat.

(** The buffers the evaluator is given by [get_dipole]: those of the
    private copy, zeroed by [initialize_properties]. *)
Definition zeroed_properties (c : Cavity) : list R * list R * list R :=
  let '(g_f, g_pe, g_virial) :=
    initialize_properties (ceil_blocks (number_of_atoms_ c) 128) (number_of_atoms_ c)
      (Atom.force_per_atom (atom_copy c)) (Atom.potential_per_atom (atom_copy c))
      (Atom.virial_per_atom (atom_copy c)) in
  (g_pe, g_f, g_virial).

(** What the loops of step 3 store in [cpu_dipole_jacobian_]. *)
Definition jacobian_stored (N : nat) (jac : list R) : list R :=
  foldl (fun jac i =>
    foldl (fun jac j =>
      foldl (fun jac k => <[(i * 3 + j * 9 + k)%nat := 1.0]> jac) jac (seq 0 3))
      jac (seq 0 N))
    jac (seq 0 3).

(** The unit conversion and charge correction of
    [compute_dipole_and_jacobian], on the dipole vector alone. *)
Definition dipole_converted (ch : R) (dipole center_of_mass : list R) : list R :=
  foldl (fun d i =>
           let d := <[i := d !!! i * BOHR_IN_ANGSTROM]> d in
           <[i := d !!! i + ch * center_of_mass !!! i]> d)
        dipole (seq 0 3).

(** The dipole along axis [k] that [compute_dipole_and_jacobian] leaves
    in [cpu_dipole_] when the private copy holds the types [type], the
    masses [mass] and the coordinates [position] of [N] atoms and [mass_]
    is [total_mass]: the block [k] of what the evaluator returns on
    zeroed buffers, summed over the atoms and converted to angstrom,
    plus the charge times [sum(mass_i * position_i) / total_mass]. *)
Definition reported_dipole (box : Box) (N : nat) (type : list Z) (mass : list R)
    (ch : Z) (total_mass : R) (position : list R) (k : nat) : R :=
  let '(_, _, virial) :=
    compute box type position (replicate N 0, replicate (N * 3) 0, replicate (N * 9) 0) in
  sum_dipole_sequential N virial k * BOHR_IN_ANGSTROM
  + IZR ch * center_of_mass_sequential N total_mass mass position k.

(** The step fails fast on a configuration: it exits with an error. *)
Definition fails_fast (step : Z) (box : Box) (atom : Atom.t) (force : Force.t)
    (c : Cavity) : Prop :=
  aborted (compute_dipole_and_jacobian step box atom force c []).

End Auxiliary.

(** The cells [n1 + c * N] of the atoms [n1 < n] in [K] blocks of [N]
    cells, in the order the threads of a kernel store to them. *)
Definition strided_cells (N K n : nat) : list nat :=
  n1 ← seq 0 n; (fun c => n1 + c * N)%nat <$> seq 0 K.

(** The cells of the tag buffer step 1 of [get_dipole_jacobian] writes,
    in the order of its loops. *)
Definition tagged_cells (N : nat) : list nat :=
  i ← seq 0 3; j ← seq 0 N; k ← seq 0 4;
  (fun l => (4 * N * i + j * 4 + k) * N + l)%nat <$> seq 0 N.

(** Two buffers of one size that agree from the cell [from] on. *)
Definition agree_from (from : nat) (v w : list R) : Prop :=
  length v = length w /\ forall y, (from <= y)%nat -> v !!! y = w !!! y.

(** The object after [parse] on a well-formed command for [N] atoms, with
    coupling strength [l], frequency [w] and charge [ch]. *)
Definition configured (N : nat) (l w : R) (ch : Z) (c : Cavity) : Cavity :=
  c <| enabled_ := true |>
    <| number_of_atoms_ := N |>
    <| potential := {| N1 := 0; N2 := Z.of_nat N |} |>
    <| number_of_copied_systems_ := int_mul 12 (Z.of_nat N) |>
    <| number_of_atoms_in_copied_system_ := int_mul (int_mul 12 (Z.of_nat N)) (Z.of_nat N) |>
    <| potential_jacobian :=
         {| N1 := 0; N2 := int_mul (int_mul 12 (Z.of_nat N)) (Z.of_nat N) |} |>
    <| coupling_strength := l |>
    <| cavity_frequency := w |>
    <| charge := ch |>.

(** * A single atom and the dipole stub [mu = (0, 0, z)] *)

Section ScenarioData.
Local Open Scope R_scope.

(** The dipole evaluator of the end-to-end scenario of the specification:
    an atom contributes its z coordinate to the z component, in the third
    block of the virial buffer; there are as many atoms as cells of
    potential energy. *)
Definition stub_dipole (position : list R) (bufs : list R * list R * list R)
    : list R * list R * list R :=
  let '(pe, f, virial) := bufs in
  let N := length pe in
  (pe, f,
   imap (fun i v => if decide (2 * N <= i < 3 * N)%nat then position !!! i else v) virial).

Definition stub_real (s : string) : option R :=
  if String.eqb s "0" then Some 0
  else if String.eqb s "1" then Some 1 else None.

Definition stub_int (s : string) : option Z :=
  if String.eqb s "0" then Some 0%Z else None.

Definition scenario : Collaborators :=
  {| Box := unit;
     compute := fun _ _ position bufs => stub_dipole position bufs;
     compute_jacobian := fun _ _ position bufs _ => stub_dipole position bufs;
     is_valid_real := stub_real;
     is_valid_int := stub_int;
     fscanf_count := fun _ => 1%Z;
     TIME_UNIT_CONVERSION := 1 |}.

(** One atom of mass 1 at [(1, 2, 3)]. *)
Definition one_atom : Atom.t :=
  {| Atom.number_of_atoms := 1;
     Atom.cpu_type := [0%Z];
     Atom.cpu_mass := [1];
     Atom.cpu_position_per_atom := [1; 2; 3];
     Atom.type := [0%Z];
     Atom.mass := [1];
     Atom.position_per_atom := [1; 2; 3];
     Atom.force_per_atom := [0; 0; 0];
     Atom.virial_per_atom := replicate 9 0;
     Atom.potential_per_atom := [0] |}.

(** The batched system of one atom: twelve replicas, nothing written yet. *)
Definition twelve_replicas : AtomCavity.t :=
  {| AtomCavity.number_of_atoms := 12;
     AtomCavity.cpu_type := replicate 12 0%Z;
     AtomCavity.cpu_mass := replicate 12 0;
     AtomCavity.cpu_position_per_atom := replicate 36 0;
     AtomCavity.cpu_system_index := replicate 12 0%nat;
     AtomCavity.type := replicate 12 0%Z;
     AtomCavity.mass := replicate 12 1;
     AtomCavity.position_per_atom := replicate 36 0;
     AtomCavity.force_per_atom := replicate 36 0;
     AtomCavity.virial_per_atom := replicate 108 0;
     AtomCavity.potential_per_atom := replicate 12 0;
     AtomCavity.system_index := replicate 12 0%nat |}.

(** A force field with an energy model and a dipole model. *)
Definition two_potentials : Force.t :=
  {| Force.potentials := [ {| nep_model_type := 0 |}; {| nep_model_type := 1 |} ] |}.

(** The object after [parse] with coupling strength 1, frequency 1 and
    charge 0, its buffers allocated for the atom. *)
Definition ready : Cavity :=
  {| enabled_ := true;
     number_of_atoms_ := 1;
     number_of_copied_systems_ := 12;
     number_of_atoms_in_copied_system_ := 12;
     potential := {| N1 := 0; N2 := 1 |};
     potential_jacobian := {| N1 := 0; N2 := 12 |};
     coupling_strength := 1;
     cavity_frequency := 1;
     charge := 0;
     mass_ := 1;
     masses_ := [1];
     atom_copy := one_atom;
     atom_cavity := twelve_replicas;
     cpu_dipole_ := [0; 0; 3];
     gpu_dipole_ := [0; 0; 3];
     cpu_dipole_jacobian_ := replicate 9 0;
     gpu_dipole_jacobian_ := replicate 9 0;
     cpu_cavity_force_ := [0; 0; 0];
     gpu_cavity_force_ := [0; 0; 0];
     prevdipole := [0; 0; 3];
     q0 := 3;
     cos_integral := 0;
     sin_integral := 0;
     prevtime := 0;
     q := 3;
     p := 0;
     cavity_pot := 0;
     cavity_kin := 0 |}.

(** The same object when the atom has no mass. *)
Definition massless : Cavity :=
  ready <| mass_ := 0 |> <| masses_ := [0] |>
        <| atom_copy := one_atom <| Atom.mass := [0] |> |>.

(** The object of a system with no atom. *)
Definition no_atoms : Atom.t :=
  {| Atom.number_of_atoms := 0; Atom.cpu_type := []; Atom.cpu_mass := [];
     Atom.cpu_position_per_atom := []; Atom.type := []; Atom.mass := [];
     Atom.position_per_atom := []; Atom.force_per_atom := [];
     Atom.virial_per_atom := []; Atom.potential_per_atom := [] |}.

Definition empty : Cavity :=
  ready <| number_of_atoms_ := 0%nat |> <| number_of_copied_systems_ := 0%Z |>
        <| number_of_atoms_in_copied_system_ := 0%Z |>
        <| mass_ := 0 |> <| masses_ := [] |> <| atom_copy := no_atoms |>.

(** The same object when the coupling strength is zero. *)
Definition decoupled : Cavity := ready <| coupling_strength := 0 |>.

(** The batched system before anything is allocated. *)
Definition no_replicas : AtomCavity.t :=
  {| AtomCavity.number_of_atoms := 0; AtomCavity.cpu_type := [];
     AtomCavity.cpu_mass := []; AtomCavity.cpu_position_per_atom := [];
     AtomCavity.cpu_system_index := []; AtomCavity.type := [];
     AtomCavity.mass := []; AtomCavity.position_per_atom := [];
     AtomCavity.force_per_atom := []; AtomCavity.virial_per_atom := [];
     AtomCavity.potential_per_atom := []; AtomCavity.system_index := [] |}.

(** The object after [parse] for the single atom with coupling strength
    1, frequency 1 and charge 1, before any [initialize]: no buffer is
    allocated and [mass_] is zero. *)
Definition charged : Cavity :=
  {| enabled_ := true;
     number_of_atoms_ := 1;
     number_of_copied_systems_ := 12;
     number_of_atoms_in_copied_system_ := 12;
     potential := {| N1 := 0; N2 := 1 |};
     potential_jacobian := {| N1 := 0; N2 := 12 |};
     coupling_strength := 1;
     cavity_frequency := 1;
     charge := 1;
     mass_ := 0;
     masses_ := [];
     atom_copy := no_atoms;
     atom_cavity := no_replicas;
     cpu_dipole_ := [];
     gpu_dipole_ := [];
     cpu_dipole_jacobian_ := [];
     gpu_dipole_jacobian_ := [];
     cpu_cavity_force_ := [];
     gpu_cavity_force_ := [];
     prevdipole := [];
     q0 := 0;
     cos_integral := 0;
     sin_integral := 0;
     prevtime := 0;
     q := 0;
     p := 0;
     cavity_pot := 0;
     cavity_kin := 0 |}.

(** The command [cavity nep.txt 1 0 0]: coupling strength 1, frequency 0,
    charge 0. *)
Definition zero_frequency_command : list string :=
  ["cavity"; "nep.txt"; "1"; "0"; "0"]%string.

End ScenarioData.

(** Reduce the projections of updated records, and nothing else. *)
Ltac fields :=
  cbn [enabled_ number_of_atoms_ number_of_copied_systems_
     number_of_atoms_in_copied_system_ potential potential_jacobian
     coupling_strength cavity_frequency charge mass_ masses_ atom_copy atom_cavity
     cpu_dipole_ gpu_dipole_ cpu_dipole_jacobian_ gpu_dipole_jacobian_
     cpu_cavity_force_ gpu_cavity_force_ prevdipole q0 cos_integral sin_integral
     prevtime q p cavity_pot cavity_kin
     Atom.number_of_atoms Atom.cpu_type Atom.cpu_mass Atom.cpu_position_per_atom
     Atom.type Atom.mass Atom.position_per_atom Atom.force_per_atom
     Atom.virial_per_atom Atom.potential_per_atom
     AtomCavity.number_of_atoms AtomCavity.cpu_type AtomCavity.cpu_mass
     AtomCavity.cpu_position_per_atom AtomCavity.cpu_system_index AtomCavity.type
     AtomCavity.mass AtomCavity.position_per_atom AtomCavity.force_per_atom
     AtomCavity.virial_per_atom AtomCavity.potential_per_atom AtomCavity.system_index
     set_Atom_number_of_atoms set_Atom_cpu_type set_Atom_cpu_mass
     set_Atom_cpu_position_per_atom set_Atom_type set_Atom_mass
     set_Atom_position_per_atom set_Atom_force_per_atom set_Atom_virial_per_atom
     set_Atom_potential_per_atom set_AtomCavity_number_of_atoms
     set_AtomCavity_cpu_type set_AtomCavity_cpu_mass
     set_AtomCavity_cpu_position_per_atom set_AtomCavity_cpu_system_index
     set_AtomCavity_type set_AtomCavity_mass set_AtomCavity_position_per_atom
     set_AtomCavity_force_per_atom set_AtomCavity_virial_per_atom
     set_AtomCavity_potential_per_atom set_AtomCavity_system_index set_enabled_
     set_number_of_atoms_ set_number_of_copied_systems_
     set_number_of_atoms_in_copied_system_ set_potential set_potential_jacobian
     set_coupling_strength set_cavity_frequency set_charge set_mass_ set_masses_
     set_atom_copy set_atom_cavity set_cpu_dipole_ set_gpu_dipole_
     set_cpu_dipole_jacobian_ set_gpu_dipole_jacobian_ set_cpu_cavity_force_
     set_gpu_cavity_force_ set_prevdipole set_q0 set_cos_integral set_sin_integral
     set_prevtime set_q set_p set_cavity_pot set_cavity_kin
     apply_update constant negb fst snd];
  cbv beta delta [constant].
Tactic Notation "fields" "in" hyp(H) :=
  cbn [enabled_ number_of_atoms_ number_of_copied_systems_
     number_of_atoms_in_copied_system_ potential potential_jacobian
     coupling_strength cavity_frequency charge mass_ masses_ atom_copy atom_cavity
     cpu_dipole_ gpu_dipole_ cpu_dipole_jacobian_ gpu_dipole_jacobian_
     cpu_cavity_force_ gpu_cavity_force_ prevdipole q0 cos_integral sin_integral
     prevtime q p cavity_pot cavity_kin
     Atom.number_of_atoms Atom.cpu_type Atom.cpu_mass Atom.cpu_position_per_atom
     Atom.type Atom.mass Atom.position_per_atom Atom.force_per_atom
     Atom.virial_per_atom Atom.potential_per_atom
     AtomCavity.number_of_atoms AtomCavity.cpu_type AtomCavity.cpu_mass
     AtomCavity.cpu_position_per_atom AtomCavity.cpu_system_index AtomCavity.type
     AtomCavity.mass AtomCavity.position_per_atom AtomCavity.force_per_atom
     AtomCavity.virial_per_atom AtomCavity.potential_per_atom AtomCavity.system_index
     set_Atom_number_of_atoms set_Atom_cpu_type set_Atom_cpu_mass
     set_Atom_cpu_position_per_atom set_Atom_type set_Atom_mass
     set_Atom_position_per_atom set_Atom_force_per_atom set_Atom_virial_per_atom
     set_Atom_potential_per_atom set_AtomCavity_number_of_atoms
     set_AtomCavity_cpu_type set_AtomCavity_cpu_mass
     set_AtomCavity_cpu_position_per_atom set_AtomCavity_cpu_system_index
     set_AtomCavity_type set_AtomCavity_mass set_AtomCavity_position_per_atom
     set_AtomCavity_force_per_atom set_AtomCavity_virial_per_atom
     set_AtomCavity_potential_per_atom set_AtomCavity_system_index set_enabled_
     set_number_of_atoms_ set_number_of_copied_systems_
     set_number_of_atoms_in_copied_system_ set_potential set_potential_jacobian
     set_coupling_strength set_cavity_frequency set_charge set_mass_ set_masses_
     set_atom_copy set_atom_cavity set_cpu_dipole_ set_gpu_dipole_
     set_cpu_dipole_jacobian_ set_gpu_dipole_jacobian_ set_cpu_cavity_force_
     set_gpu_cavity_force_ set_prevdipole set_q0 set_cos_integral set_sin_integral
     set_prevtime set_q set_p set_cavity_pot set_cavity_kin
     apply_update constant negb fst snd] in H;
  cbv beta delta [constant] in H.

(** The same by need, for long chains of updates of records given by
    their fields: an updated record is copied into every field of the
    next update. *)
Ltac fields_by_need :=
  lazy beta iota zeta delta
    [enabled_ number_of_atoms_ number_of_copied_systems_
     number_of_atoms_in_copied_system_ potential potential_jacobian
     coupling_strength cavity_frequency charge mass_ masses_ atom_copy atom_cavity
     cpu_dipole_ gpu_dipole_ cpu_dipole_jacobian_ gpu_dipole_jacobian_
     cpu_cavity_force_ gpu_cavity_force_ prevdipole q0 cos_integral sin_integral
     prevtime q p cavity_pot cavity_kin
     Atom.number_of_atoms Atom.cpu_type Atom.cpu_mass Atom.cpu_position_per_atom
     Atom.type Atom.mass Atom.position_per_atom Atom.force_per_atom
     Atom.virial_per_atom Atom.potential_per_atom
     AtomCavity.number_of_atoms AtomCavity.cpu_type AtomCavity.cpu_mass
     AtomCavity.cpu_position_per_atom AtomCavity.cpu_system_index AtomCavity.type
     AtomCavity.mass AtomCavity.position_per_atom AtomCavity.force_per_atom
     AtomCavity.virial_per_atom AtomCavity.potential_per_atom AtomCavity.system_index
     set_Atom_number_of_atoms set_Atom_cpu_type set_Atom_cpu_mass
     set_Atom_cpu_position_per_atom set_Atom_type set_Atom_mass
     set_Atom_position_per_atom set_Atom_force_per_atom set_Atom_virial_per_atom
     set_Atom_potential_per_atom set_AtomCavity_number_of_atoms
     set_AtomCavity_cpu_type set_AtomCavity_cpu_mass
     set_AtomCavity_cpu_position_per_atom set_AtomCavity_cpu_system_index
     set_AtomCavity_type set_AtomCavity_mass set_AtomCavity_position_per_atom
     set_AtomCavity_force_per_atom set_AtomCavity_virial_per_atom
     set_AtomCavity_potential_per_atom set_AtomCavity_system_index set_enabled_
     set_number_of_atoms_ set_number_of_copied_systems_
     set_number_of_atoms_in_copied_system_ set_potential set_potential_jacobian
     set_coupling_strength set_cavity_frequency set_charge set_mass_ set_masses_
     set_atom_copy set_atom_cavity set_cpu_dipole_ set_gpu_dipole_
     set_cpu_dipole_jacobian_ set_gpu_dipole_jacobian_ set_cpu_cavity_force_
     set_gpu_cavity_force_ set_prevdipole set_q0 set_cos_integral set_sin_integral
     set_prevtime set_q set_p set_cavity_pot set_cavity_kin
     apply_update constant negb fst snd].

(** * The in-block reduction computes the sequential sum *)

Section Reduction.
Local Open Scope R_scope.

Lemma foldl_Rplus_acc (l : list R) (a : R) :
  foldl Rplus a l = a + sequential_sum l.
Proof.
  unfold sequential_sum. revert a.
  induction l as [|x l IH]; intros a; simpl.
  - lra.
  - rewrite (IH (a + x)), (IH (0 + x)). lra.
Qed.

Lemma sequential_sum_app (l1 l2 : list R) :
  sequential_sum (l1 ++ l2) = sequential_sum l1 + sequential_sum l2.
Proof.
  unfold sequential_sum at 1. rewrite foldl_app.
  fold (sequential_sum l1). apply foldl_Rplus_acc.
Qed.

Lemma sum_upto_0 (f : nat -> R) : sum_upto 0 f = 0.
Proof. reflexivity. Qed.

Lemma sum_upto_S (n : nat) (f : nat -> R) : sum_upto (S n) f = sum_upto n f + f n.
Proof.
  unfold sum_upto. rewrite seq_S, fmap_app, sequential_sum_app.
  simpl. unfold sequential_sum at 2. simpl. lra.
Qed.

Lemma sum_upto_ext (n : nat) (f g : nat -> R) :
  (forall i, (i < n)%nat -> f i = g i) -> sum_upto n f = sum_upto n g.
Proof.
  induction n as [|n IH]; intros E; [reflexivity|].
  rewrite !sum_upto_S, IH, (E n) by (try lia; intros; apply E; lia). reflexivity.
Qed.

Lemma sum_upto_add (n m : nat) (f : nat -> R) :
  sum_upto (n + m) f = sum_upto n f + sum_upto m (fun i => f (n + i)%nat).
Proof.
  induction m as [|m IH].
  - rewrite Nat.add_0_r, sum_upto_0. lra.
  - rewrite Nat.add_succ_r, !sum_upto_S, IH. lra.
Qed.

Lemma sum_upto_plus (n : nat) (f g : nat -> R) :
  sum_upto n (fun i => f i + g i) = sum_upto n f + sum_upto n g.
Proof.
  induction n as [|n IH]; [rewrite !sum_upto_0; lra|].
  rewrite !sum_upto_S, IH. lra.
Qed.

Lemma sum_upto_zero (n : nat) (f : nat -> R) :
  (forall i, (i < n)%nat -> f i = 0) -> sum_upto n f = 0.
Proof.
  induction n as [|n IH]; intros E; [reflexivity|].
  rewrite sum_upto_S, IH, (E n) by (try lia; intros; apply E; lia). lra.
Qed.

(** Two nested loops may be exchanged. *)
Lemma sum_upto_swap (n m : nat) (f : nat -> nat -> R) :
  sum_upto n (fun i => sum_upto m (fun j => f i j))
  = sum_upto m (fun j => sum_upto n (fun i => f i j)).
Proof.
  induction n as [|n IH].
  - rewrite sum_upto_0. symmetry. apply sum_upto_zero. intros; apply sum_upto_0.
  - rewrite sum_upto_S, IH, <- sum_upto_plus.
    apply sum_upto_ext. intros j _. now rewrite sum_upto_S.
Qed.

Lemma strided_partial_sum (N number_of_patches : nat) (term : nat -> R) (tid : nat) :
  strided_partial N number_of_patches term tid
  = sum_upto number_of_patches (fun patch => guarded N term (tid + patch * 1024)).
Proof.
  unfold strided_partial.
  induction number_of_patches as [|n IH].
  - reflexivity.
  - rewrite seq_S, foldl_app, sum_upto_S. simpl. rewrite IH.
    unfold guarded. destruct (decide _); lra.
Qed.

(** The [width] threads together cover [0 .. width * patches - 1]. *)
Lemma strided_cover (width number_of_patches : nat) (g : nat -> R) :
  sum_upto width (fun tid => sum_upto number_of_patches (fun patch => g (tid + patch * width)%nat))
  = sum_upto (number_of_patches * width) g.
Proof.
  rewrite sum_upto_swap.
  induction number_of_patches as [|n IH].
  - reflexivity.
  - rewrite sum_upto_S, IH.
    replace (S n * width)%nat with (n * width + width)%nat by lia.
    rewrite sum_upto_add. f_equal. apply sum_upto_ext. intros i _. f_equal. lia.
Qed.

Lemma sum_upto_guarded (N n : nat) (term : nat -> R) :
  (N <= n)%nat -> sum_upto n (guarded N term) = sum_upto N term.
Proof.
  intros Hle. replace n with (N + (n - N))%nat by lia.
  rewrite sum_upto_add, (sum_upto_zero (n - N)).
  - rewrite Rplus_0_r. apply sum_upto_ext. intros i Hi.
    unfold guarded. destruct (decide _); [reflexivity|lia].
  - intros i _. unfold guarded. destruct (decide _); [lia|reflexivity].
Qed.

Lemma ceil_blocks_covers (n d : nat) : (0 < d)%nat -> (n <= ceil_blocks n d * d)%nat.
Proof.
  intros Hd. unfold ceil_blocks.
  destruct n as [|n].
  - lia.
  - replace (Z.of_nat (S n) - 1)%Z with (Z.of_nat n) by lia.
    rewrite Z.quot_div_nonneg by lia.
    assert (Hm := Z.mod_pos_bound (Z.of_nat n) (Z.of_nat d) ltac:(lia)).
    assert (Hq := Z.div_mod (Z.of_nat n) (Z.of_nat d) ltac:(lia)).
    assert (0 <= Z.of_nat n / Z.of_nat d)%Z by (apply Z.div_pos; lia).
    nia.
Qed.

(** *** One stage, then both loops *)

Lemma reduce_step_length (offset : nat) (s_d : list R) :
  length (reduce_step offset s_d) = length s_d.
Proof. unfold reduce_step. apply length_imap. Qed.

Lemma reduce_step_lookup (offset : nat) (s_d : list R) (tid : nat) :
  (tid < length s_d)%nat ->
  reduce_step offset s_d !!! tid
  = if decide (tid < offset)%nat then s_d !!! tid + s_d !!! (tid + offset)%nat
    else s_d !!! tid.
Proof.
  intros Hlt. destruct (lookup_lt_is_Some_2 s_d tid Hlt) as [x Hx].
  rewrite (list_lookup_total_correct s_d tid x Hx).
  apply list_lookup_total_correct.
  unfold reduce_step. rewrite list_lookup_imap, Hx. reflexivity.
Qed.

(** A stage halves the number of live cells and keeps their sum. *)
Lemma reduce_step_sum (offset : nat) (s_d : list R) :
  (offset <= length s_d)%nat ->
  sum_upto offset (fun tid => reduce_step offset s_d !!! tid)
  = sum_upto (offset + offset) (fun tid => s_d !!! tid).
Proof.
  intros Hle. rewrite sum_upto_add, <- sum_upto_plus.
  apply sum_upto_ext. intros i Hi.
  rewrite reduce_step_lookup by lia.
  destruct (decide _); [|lia]. f_equal. f_equal. lia.
Qed.

Lemma reduce_loop_run (offset lim : nat) (s_d : list R) :
  (lim < offset)%nat ->
  reduce_loop offset lim s_d = reduce_loop (Nat.div2 offset) lim (reduce_step offset s_d).
Proof.
  intros Hlt. rewrite reduce_loop_equation_1. destruct (decide _); [reflexivity|lia].
Qed.

Lemma reduce_loop_exit (offset lim : nat) (s_d : list R) :
  ~ (lim < offset)%nat -> reduce_loop offset lim s_d = s_d.
Proof.
  intros Hge. rewrite reduce_loop_equation_1. destruct (decide _); [lia|reflexivity].
Qed.

End Reduction.

(** One turn of a reduction loop whose condition holds. *)
Ltac run_stage offset lim :=
  rewrite (reduce_loop_run offset lim) by lia; cbn [Nat.div2].

Section BlockSum.
Local Open Scope R_scope.

(** Ten stages (512, ..., 64 under [__syncthreads], 32, ..., 1 under
    [__syncwarp]) leave the sum of the 1024 cells in [s_d[0]]. *)
Lemma block_reduce_sum (s_d : list R) :
  length s_d = blockDim ->
  block_reduce s_d = sum_upto blockDim (fun tid => s_d !!! tid).
Proof.
  intros Hlen. unfold block_reduce, blockDim in *.
  change (Nat.div2 1024) with 512%nat.
  run_stage 512%nat 32%nat. run_stage 256%nat 32%nat.
  run_stage 128%nat 32%nat. run_stage 64%nat 32%nat.
  rewrite (reduce_loop_exit 32 32) by lia.
  run_stage 32%nat 0%nat. run_stage 16%nat 0%nat. run_stage 8%nat 0%nat.
  run_stage 4%nat 0%nat. run_stage 2%nat 0%nat. run_stage 1%nat 0%nat.
  rewrite (reduce_loop_exit 0 0) by lia.
  transitivity (sum_upto 1 (fun tid =>
    reduce_step 1 (reduce_step 2 (reduce_step 4 (reduce_step 8 (reduce_step 16
      (reduce_step 32 (reduce_step 64 (reduce_step 128 (reduce_step 256
        (reduce_step 512 s_d))))))))) !!! tid)).
  { rewrite sum_upto_S, sum_upto_0. lra. }
  repeat (rewrite reduce_step_sum by (rewrite ?reduce_step_length; lia); cbn [Nat.add]).
  reflexivity.
Qed.

(** A block leaves in [s_d[0]] what a sequential loop over the [N] atoms
    accumulates, whenever the patches cover the atoms. *)
Lemma block_sum_sequential (N number_of_patches : nat) (term : nat -> R) :
  (N <= number_of_patches * 1024)%nat ->
  block_sum N number_of_patches term = sum_upto N term.
Proof.
  intros Hcover. unfold block_sum.
  rewrite block_reduce_sum by (rewrite length_fmap, length_seq; reflexivity).
  unfold blockDim.
  rewrite (sum_upto_ext _ _
    (fun tid => sum_upto number_of_patches
                  (fun patch => guarded N term (tid + patch * 1024)))).
  - rewrite strided_cover. now apply sum_upto_guarded.
  - intros tid Hlt. rewrite <- strided_partial_sum.
    apply list_lookup_total_correct.
    rewrite list_lookup_fmap, lookup_seq_lt by lia. reflexivity.
Qed.

Lemma block_sum_launch (N : nat) (term : nat -> R) :
  block_sum N (ceil_blocks N 1024) term = sum_upto N term.
Proof. apply block_sum_sequential, ceil_blocks_covers. lia. Qed.

End BlockSum.

Section KernelSums.
Local Open Scope R_scope.

Lemma sum_dipole_sequential_eq (N : nat) (g_virial_per_atom g_dipole : list R) :
  sum_dipole N (ceil_blocks N 1024) g_virial_per_atom g_dipole
  = <[2%nat := sum_dipole_sequential N g_virial_per_atom 2]>
      (<[1%nat := sum_dipole_sequential N g_virial_per_atom 1]>
         (<[0%nat := sum_dipole_sequential N g_virial_per_atom 0]> g_dipole)).
Proof.
  unfold sum_dipole. cbn [seq foldl]. rewrite !block_sum_launch. reflexivity.
Qed.

Lemma get_center_of_mass_sequential_eq (N : nat) (total_mass : R)
    (g_mass_per_atom g_position_per_atom g_center_of_mass log : list R) :
  get_center_of_mass N (ceil_blocks N 1024) total_mass
    g_mass_per_atom g_position_per_atom g_center_of_mass log
  = Done
      (<[2%nat := center_of_mass_sequential N total_mass g_mass_per_atom g_position_per_atom 2]>
         (<[1%nat := center_of_mass_sequential N total_mass g_mass_per_atom g_position_per_atom 1]>
            (<[0%nat := center_of_mass_sequential N total_mass g_mass_per_atom g_position_per_atom 0]>
               g_center_of_mass)))
      (log ++ [total_mass; total_mass; total_mass]).
Proof.
  unfold get_center_of_mass. cbn [seq for_M].
  unfold bind, fdiv, ret. rewrite !block_sum_launch, <- !app_assoc. reflexivity.
Qed.

End KernelSums.

(** C8. The two-phase reduction of [sum_dipole] and [get_center_of_mass]
    (a strided partial sum per lane, then the tree over the 1024 lanes)
    stores, for every atom count [N] and all values, exactly what the
    sequential left-to-right accumulation over the [N] atoms gives, the
    arithmetic being exact. *)
Theorem parallel_reduction_is_sequential_sum (N : nat) (total_mass : R)
    (g_virial_per_atom g_dipole g_mass_per_atom g_position_per_atom
     g_center_of_mass log : list R) :
  sum_dipole N (ceil_blocks N 1024) g_virial_per_atom g_dipole
  = <[2 := sum_dipole_sequential N g_virial_per_atom 2]>
      (<[1 := sum_dipole_sequential N g_virial_per_atom 1]>
         (<[0 := sum_dipole_sequential N g_virial_per_atom 0]> g_dipole))
  /\ get_center_of_mass N (ceil_blocks N 1024) total_mass
       g_mass_per_atom g_position_per_atom g_center_of_mass log
     = Done
         (<[2 := center_of_mass_sequential N total_mass g_mass_per_atom g_position_per_atom 2]>
            (<[1 := center_of_mass_sequential N total_mass g_mass_per_atom g_position_per_atom 1]>
               (<[0 := center_of_mass_sequential N total_mass g_mass_per_atom g_position_per_atom 0]>
                  g_center_of_mass)))
         (log ++ [total_mass; total_mass; total_mass]).
Proof.
  split.
  - apply sum_dipole_sequential_eq.
  - apply get_center_of_mass_sequential_eq.
Qed.

(** * The oscillator *)

Section Oscillator.
Local Open Scope R_scope.

Lemma std_copy_lookup (src dst : list R) (i : nat) :
  std_copy src dst !!! i = if decide (i < length src)%nat then src !!! i else dst !!! i.
Proof.
  unfold std_copy. destruct (decide _) as [Hlt|Hge].
  - now apply lookup_total_app_l.
  - rewrite lookup_total_app_r by lia. rewrite lookup_total_drop. f_equal. lia.
Qed.

Lemma std_copy_same_length {A} (src dst : list A) :
  length dst = length src -> std_copy src dst = src.
Proof.
  intros Hlen. unfold std_copy.
  rewrite drop_ge by lia. apply app_nil_r.
Qed.

(** The fields of the state after one step, as the assignments of
    [step_cavity] leave them. *)
Lemma step_cavity_fields (t : R) (c : Cavity) :
  let dt := t - prevtime c in
  let prevlmu := coupling_strength c * prevdipole c !!! 2%nat in
  let lmu := coupling_strength c * cpu_dipole_ c !!! 2%nat in
  cavity_frequency (step_cavity t c) = cavity_frequency c
  /\ coupling_strength (step_cavity t c) = coupling_strength c
  /\ cpu_dipole_ (step_cavity t c) = cpu_dipole_ c
  /\ prevdipole (step_cavity t c) = std_copy (cpu_dipole_ c) (prevdipole c)
  /\ prevtime (step_cavity t c) = t
  /\ cos_integral (step_cavity t c)
     = cos_integral c + 0.5 * dt * cos (cavity_frequency c * prevtime c) * prevlmu
       + 0.5 * dt * cos (cavity_frequency c * t) * lmu
  /\ sin_integral (step_cavity t c)
     = sin_integral c + 0.5 * dt * sin (cavity_frequency c * prevtime c) * prevlmu
       + 0.5 * dt * sin (cavity_frequency c * t) * lmu.
Proof. destruct c. repeat split. Qed.

(** What [k] uniform steps keep and what they accumulate. *)
Lemma uniform_steps_invariant (c : Cavity) (dt : R) (k : nat) :
  prevdipole c !!! 2%nat = cpu_dipole_ c !!! 2%nat ->
  let c' := uniform_steps (prevtime c) dt k c in
  let lmu := coupling_strength c * cpu_dipole_ c !!! 2%nat in
  cavity_frequency c' = cavity_frequency c
  /\ coupling_strength c' = coupling_strength c
  /\ cpu_dipole_ c' = cpu_dipole_ c
  /\ prevdipole c' !!! 2%nat = cpu_dipole_ c !!! 2%nat
  /\ prevtime c' = prevtime c + INR k * dt
  /\ cos_integral c'
     = cos_integral c
       + trapezoid_closed_form (fun t => cos (cavity_frequency c * t)) lmu (prevtime c) dt k
  /\ sin_integral c'
     = sin_integral c
       + trapezoid_closed_form (fun t => sin (cavity_frequency c * t)) lmu (prevtime c) dt k.
Proof.
  intros Hprev. induction k as [|k IH].
  - cbv zeta. unfold uniform_steps, trapezoid_closed_form.
    cbn [seq foldl]. rewrite !sum_upto_0.
    repeat split; try reflexivity; try exact Hprev; cbn [INR]; lra.
  - cbv zeta in *. unfold uniform_steps in *.
    rewrite seq_S, foldl_app. cbn [foldl Nat.add].
    set (ck := foldl _ c (seq 0 k)) in *.
    destruct IH as (Hw & Hl & Hd & Hp & Ht & Hc & Hs).
    destruct (step_cavity_fields (prevtime c + INR (S k) * dt) ck)
      as (Hw' & Hl' & Hd' & Hp' & Ht' & Hc' & Hs').
    rewrite Hw', Hl', Hd', Hp', Ht', Hc', Hs'.
    unfold trapezoid_closed_form in *. rewrite !sum_upto_S.
    rewrite std_copy_lookup, Hw, Hl, Hd, Hp, Ht, Hc, Hs.
    repeat split; try reflexivity.
    + destruct (decide _); reflexivity.
    + rewrite S_INR. lra.
    + rewrite S_INR. lra.
Qed.

(** C3. One call of [step_cavity] with time [t] adds the trapezoid
    [0.5 * (t - prevtime) * (cos(w prevtime) * l * mu_z(prevtime)
    + cos(w t) * l * mu_z(t))] to [cos_integral], the same with [sin] to
    [sin_integral], then sets [prevtime = t] and [prevdipole = mu(t)];
    hence for a constant dipole, [k] uniform steps leave the integrals
    at the closed form of the trapezoidal rule. *)
Theorem step_cavity_trapezoid (c : Cavity) (t dt : R) (k : nat) :
  length (cpu_dipole_ c) = 3%nat ->
  length (prevdipole c) = 3%nat ->
  let lmu_prev := coupling_strength c * prevdipole c !!! 2%nat in
  let lmu := coupling_strength c * cpu_dipole_ c !!! 2%nat in
  let w := cavity_frequency c in
  cos_integral (step_cavity t c)
  = cos_integral c
    + 0.5 * (t - prevtime c) * (cos (w * prevtime c) * lmu_prev + cos (w * t) * lmu)
  /\ sin_integral (step_cavity t c)
     = sin_integral c
       + 0.5 * (t - prevtime c) * (sin (w * prevtime c) * lmu_prev + sin (w * t) * lmu)
  /\ prevtime (step_cavity t c) = t
  /\ prevdipole (step_cavity t c) = cpu_dipole_ c
  /\ (prevdipole c !!! 2%nat = cpu_dipole_ c !!! 2%nat ->
      cos_integral (uniform_steps (prevtime c) dt k c)
      = cos_integral c
        + trapezoid_closed_form (fun t => cos (w * t)) lmu (prevtime c) dt k
      /\ sin_integral (uniform_steps (prevtime c) dt k c)
         = sin_integral c
           + trapezoid_closed_form (fun t => sin (w * t)) lmu (prevtime c) dt k).
Proof.
  intros Hd Hp. cbv zeta.
  destruct (step_cavity_fields t c) as (_ & _ & _ & Hp' & Ht' & Hc' & Hs').
  rewrite Hp', Ht', Hc', Hs'. repeat split.
  - lra.
  - lra.
  - apply std_copy_same_length. congruence.
  - apply (uniform_steps_invariant c dt k); assumption.
  - apply (uniform_steps_invariant c dt k); assumption.
Qed.

(** C4. [canonical_position] stores
    [q = sin(w t) * Icos - cos(w t) * Isin + q0 * cos(w t)] and
    [canonical_momentum] stores
    [p = w * (cos(w t) * Icos + sin(w t) * Isin - q0 * sin(w t))]; the
    phase is [w * t] for the absolute time [t], whatever the time of the
    last sample, and nothing else of the state changes. *)
Theorem canonical_coordinates_closed_form (c : Cavity) (t t_prev : R) :
  let w := cavity_frequency c in
  let Icos := cos_integral c in
  let Isin := sin_integral c in
  q (canonical_position t c) = sin (w * t) * Icos - cos (w * t) * Isin + q0 c * cos (w * t)
  /\ p (canonical_momentum t c)
     = w * (cos (w * t) * Icos + sin (w * t) * Isin - q0 c * sin (w * t))
  /\ q (canonical_position t (c <| prevtime := t_prev |>)) = q (canonical_position t c)
  /\ p (canonical_momentum t (c <| prevtime := t_prev |>)) = p (canonical_momentum t c)
  /\ canonical_position t c = c <| q := q (canonical_position t c) |>
  /\ canonical_momentum t c = c <| p := p (canonical_momentum t c) |>.
Proof.
  destruct c. cbv zeta. repeat split.
Qed.

End Oscillator.

(** * Kernel launches and loops over the atoms *)

Section Launch.

(** The guard [n1 < N] of a kernel makes a launch of at least [N]
    threads a loop over the [N] atoms. *)
Lemma guarded_launch {S : Type} (body : nat -> S -> S) (N M : nat) (s : S) :
  N <= M ->
  foldl (fun s n1 => if decide (n1 < N) then body n1 s else s) s (seq 0 M)
  = foldl (fun s n1 => body n1 s) s (seq 0 N).
Proof.
  intros Hle. replace M with (N + (M - N)) by lia.
  rewrite seq_app, foldl_app.
  assert (Hout : forall l s', Forall (fun n1 => N <= n1) l ->
            foldl (fun s n1 => if decide (n1 < N) then body n1 s else s) s' l = s').
  { induction l as [|a l IH]; intros s' Hall; [reflexivity|].
    inversion Hall; subst. cbn [foldl].
    destruct (decide _); [lia|]. now apply IH. }
  rewrite Hout by (apply Forall_seq; intros; lia).
  assert (Hin : forall l s', Forall (fun n1 => n1 < N) l ->
            foldl (fun s n1 => if decide (n1 < N) then body n1 s else s) s' l
            = foldl (fun s n1 => body n1 s) s' l).
  { induction l as [|a l IH]; intros s' Hall; [reflexivity|].
    inversion Hall; subst. cbn [foldl].
    destruct (decide _); [|lia]. now apply IH. }
  apply Hin, Forall_seq. intros; lia.
Qed.

Lemma launch_covers (N : nat) (body : nat -> list R -> list R) (v : list R) :
  foldl (fun s n1 => if decide (n1 < N) then body n1 s else s) v
        (launch_1d (ceil_blocks N 128) 128)
  = foldl (fun s n1 => body n1 s) v (seq 0 N).
Proof. apply guarded_launch, ceil_blocks_covers. lia. Qed.

End Launch.

(** Lookups through a stack of writes at other cells, and at the cell
    written last. *)
Ltac skip_writes :=
  repeat (rewrite list_lookup_total_insert_ne by lia).
Ltac hit_write :=
  skip_writes; rewrite list_lookup_total_insert_eq by (rewrite ?length_insert; lia).

(** * The cavity force *)

Section ForceCoupler.
Local Open Scope R_scope.

Lemma block_stores_length N F j v : length (block_stores N F j v) = length v.
Proof. unfold block_stores. now rewrite !length_insert. Qed.

Lemma force_added_length N g j v : length (force_added N g j v) = length v.
Proof. unfold force_added. cbv zeta. now rewrite !length_insert. Qed.

(** After the turns [0 .. n-1], the cells of these atoms hold the stored
    entries, in each of the three blocks. *)
Lemma block_stores_loop (N : nat) (F : nat -> nat -> R) (v : list R) (n : nat) :
  (n <= N)%nat -> (3 * N <= length v)%nat ->
  let r := foldl (fun v j => block_stores N F j v) v (seq 0 n) in
  length r = length v
  /\ forall i j, (i < 3)%nat -> (j < n)%nat -> r !!! (j + i * N)%nat = F i j.
Proof.
  intros Hn Hlen. induction n as [|n IH]; cbv zeta in *.
  - split; [reflexivity|intros; lia].
  - rewrite seq_S, foldl_app. cbn [foldl Nat.add].
    destruct IH as [IHl IHv]; [lia|].
    set (r := foldl _ v (seq 0 n)) in *.
    split; [now rewrite block_stores_length|].
    intros i j Hi Hj. unfold block_stores.
    destruct (decide (j = n)) as [->|Hne].
    + destruct i as [|[|[|i]]]; [| | |lia]; hit_write; reflexivity.
    + destruct i as [|[|[|i]]]; [| | |lia]; skip_writes;
        (apply (IHv 0%nat) || apply (IHv 1%nat) || apply (IHv 2%nat)); lia.
Qed.

(** After the threads [0 .. n-1], the cells of these atoms hold the old
    force plus the cavity force and every other cell is as before. *)
Lemma force_added_loop (N : nat) (g_cav_force v : list R) (n : nat) :
  (n <= N)%nat -> (3 * N <= length v)%nat ->
  let r := foldl (fun v n1 => force_added N g_cav_force n1 v) v (seq 0 n) in
  length r = length v
  /\ (forall i j, (i < 3)%nat -> (j < n)%nat ->
        r !!! (j + i * N)%nat = v !!! (j + i * N)%nat + g_cav_force !!! (j + i * N)%nat)
  /\ (forall i j, (i < 3)%nat -> (n <= j < N)%nat ->
        r !!! (j + i * N)%nat = v !!! (j + i * N)%nat)
  /\ (forall idx, (3 * N <= idx)%nat -> r !!! idx = v !!! idx).
Proof.
  intros Hn Hlen. induction n as [|n IH]; cbv zeta in *.
  - repeat split; intros; try reflexivity; lia.
  - rewrite seq_S, foldl_app. cbn [foldl Nat.add].
    destruct IH as (IHl & IHa & IHb & IHc); [lia|].
    set (r := foldl _ v (seq 0 n)) in *.
    split; [now rewrite force_added_length|].
    assert (H0 := IHb 0%nat n ltac:(lia) ltac:(lia)).
    assert (H1 := IHb 1%nat n ltac:(lia) ltac:(lia)).
    assert (H2 := IHb 2%nat n ltac:(lia) ltac:(lia)).
    unfold force_added; cbv zeta. repeat split.
    + intros i j Hi Hj. destruct (decide (j = n)) as [->|Hne].
      * destruct i as [|[|[|i]]]; [| | |lia]; hit_write; skip_writes; congruence.
      * destruct i as [|[|[|i]]]; [| | |lia]; skip_writes;
          (apply (IHa 0%nat) || apply (IHa 1%nat) || apply (IHa 2%nat)); lia.
    + intros i j Hi Hj.
      destruct i as [|[|[|i]]]; [| | |lia]; skip_writes;
        (apply (IHb 0%nat) || apply (IHb 1%nat) || apply (IHb 2%nat)); lia.
    + intros idx Hidx. skip_writes. now apply IHc.
Qed.

(** Every cell below [3N] is the cell of an atom in one of three blocks. *)
Lemma block_cell (N idx : nat) :
  (idx < 3 * N)%nat -> exists i j, (i < 3)%nat /\ (j < N)%nat /\ idx = (j + i * N)%nat.
Proof.
  intros Hlt.
  destruct (decide (idx < N)%nat); [exists 0%nat, idx; lia|].
  destruct (decide (idx < 2 * N)%nat); [exists 1%nat, (idx - N)%nat; lia|].
  exists 2%nat, (idx - 2 * N)%nat; lia.
Qed.

End ForceCoupler.

Section ForceCouplerCode.
Local Open Scope R_scope.

Lemma cavity_force_zero_loop (l : list nat) (c : Cavity) :
  foldl (fun c i => c <| cpu_cavity_force_ := <[i := 0.0]> (cpu_cavity_force_ c) |>) c l
  = c <| cpu_cavity_force_ := foldl (fun v i => <[i := 0.0]> v) (cpu_cavity_force_ c) l |>.
Proof.
  revert c. induction l as [|a l IH]; intros c; cbn [foldl].
  - now destruct c.
  - rewrite IH. now destruct c.
Qed.

Lemma length_zero_loop (l : list nat) (v : list R) :
  length (foldl (fun v i => <[i := 0.0]> v) v l) = length v.
Proof.
  revert v. induction l as [|a l IH]; intros v; cbn [foldl]; [reflexivity|].
  now rewrite IH, length_insert.
Qed.

Lemma cavity_force_unfold (c : Cavity) :
  cavity_force c
  = c <| cpu_cavity_force_ :=
           foldl (fun v j => block_stores (number_of_atoms_ c) (cavity_force_entry c) j v)
                 (foldl (fun v i => <[i := 0.0]> v) (cpu_cavity_force_ c)
                        (seq 0 (3 * number_of_atoms_ c)))
                 (seq 0 (number_of_atoms_ c)) |>.
Proof.
  unfold cavity_force. cbv zeta. rewrite cavity_force_zero_loop.
  generalize (foldl (fun v i => <[i := 0.0]> v) (cpu_cavity_force_ c)
                    (seq 0 (3 * number_of_atoms_ c))) as v0.
  generalize (seq 0 (number_of_atoms_ c)) as l.
  intros l. destruct c. cbn.
  induction l as [|a l IH]; intros v0; cbn [foldl]; [reflexivity|].
  rewrite <- IH. reflexivity.
Qed.

Lemma apply_cavity_force_unfold (N : nat) (g_force g_cav_force : list R) :
  apply_cavity_force (ceil_blocks N 128) N g_force g_cav_force
  = foldl (fun v n1 => force_added N g_cav_force n1 v) g_force (seq 0 N).
Proof.
  unfold apply_cavity_force.
  apply (launch_covers N (fun n1 v => force_added N g_cav_force n1 v)).
Qed.

Lemma copy_into_same_length {A} (src dst : list A) :
  length dst = length src -> copy_into src dst = src.
Proof.
  intros Hlen. unfold copy_into.
  rewrite take_ge, drop_ge by lia. apply app_nil_r.
Qed.

(** C6. For every atom [j] and direction [i] the cavity force is
    [(w q - l mu_z) * l * gradient[j, i, z]], read from the z component of
    the Jacobian only; applying it adds it to the force the atom already
    has, cell by cell, and leaves every other cell of the force buffer and
    every other field of the atoms as they were. *)
Theorem cavity_force_is_added (atom : Atom.t) (c : Cavity) :
  enabled_ c = true ->
  length (cpu_cavity_force_ c) = (3 * number_of_atoms_ c)%nat ->
  length (gpu_cavity_force_ c) = (3 * number_of_atoms_ c)%nat ->
  (3 * number_of_atoms_ c <= length (Atom.force_per_atom atom))%nat ->
  let N := number_of_atoms_ c in
  let atom' := fst (compute_and_apply_cavity_force atom c) in
  let c' := snd (compute_and_apply_cavity_force atom c) in
  let g_force := Atom.force_per_atom atom in
  let g_force' := Atom.force_per_atom atom' in
  (forall i j, (i < 3)%nat -> (j < N)%nat ->
     cpu_cavity_force_ c' !!! (j + i * N)%nat
     = (cavity_frequency c * q c - coupling_strength c * cpu_dipole_ c !!! 2%nat)
       * coupling_strength c * cpu_dipole_jacobian_ c !!! (i * 3 + j * 9 + 2)%nat)
  /\ cpu_cavity_force_ c' = cpu_cavity_force_ (cavity_force c)
  /\ (forall idx, (idx < 3 * N)%nat ->
        g_force' !!! idx = g_force !!! idx + cpu_cavity_force_ c' !!! idx)
  /\ (forall idx, (3 * N <= idx)%nat -> g_force' !!! idx = g_force !!! idx)
  /\ length g_force' = length g_force
  /\ atom' = atom <| Atom.force_per_atom := g_force' |>.
Proof.
  intros Hen Hcpu Hgpu Hforce. cbv zeta.
  unfold compute_and_apply_cavity_force. rewrite Hen. cbn [negb fst snd].
  rewrite cavity_force_unfold.
  set (F := cavity_force_entry c).
  assert (HF : forall i j,
             F i j = (cavity_frequency c * q c - coupling_strength c * cpu_dipole_ c !!! 2%nat)
                     * coupling_strength c * cpu_dipole_jacobian_ c !!! (i * 3 + j * 9 + 2)%nat)
    by reflexivity.
  clearbody F.
  destruct c as [en n ncs nn pot potj cs cf ch m ms ac av cd gd cj gj ccf gcf pd
                 q0' ci si pt q' p' cp ck].
  destruct atom as [t1 t2 t3 t4 t5 t6 t7 t8 t9 t10].
  cbn [enabled_] in Hen. subst. revert Hcpu Hgpu Hforce HF. fields.
  intros Hcpu Hgpu Hforce HF.
  set (cav := foldl _ (foldl _ ccf _) (seq 0 n)).
  assert (Hz : (3 * n <= length (foldl (fun v i => <[i := 0.0%R]> v) ccf (seq 0 (3 * n))))%nat)
    by (rewrite length_zero_loop; lia).
  destruct (block_stores_loop n F _ n (le_n n) Hz) as [Hcl Hcv].
  fold cav in Hcl, Hcv. rewrite length_zero_loop in Hcl.
  rewrite (copy_into_same_length cav gcf) by congruence.
  rewrite apply_cavity_force_unfold.
  destruct (force_added_loop n cav t8 n (le_n n) Hforce) as (Hl & Ha & _ & Hc).
  set (g_force' := foldl _ t8 (seq 0 n)) in *.
  repeat split.
  - intros i j Hi Hj. now rewrite Hcv, HF.
  - intros idx Hidx. destruct (block_cell n idx Hidx) as (i & j & Hi & Hj & ->).
    now apply Ha.
  - exact Hc.
  - exact Hl.
Qed.

End ForceCouplerCode.

(** * The dipole evaluator *)

(** Name the components of a pair or triple a [let] takes apart. *)
Ltac split_lets :=
  repeat match goal with
         | |- context [let '(_, _) := ?e in _] => destruct e as [? ?] eqn:?
         | |- context [match ?e with (_, _) => _ end] => destruct e as [? ?] eqn:?
         end.

Section DipoleEvaluator.
Context `{Collaborators}.
Local Open Scope R_scope.

Lemma copy_positions_unfold (N : nat) (ref_g_p g_p : list R) :
  copy_positions (ceil_blocks N 128) N ref_g_p g_p
  = foldl (fun v n1 => block_stores N (fun i j => ref_g_p !!! (j + i * N)%nat) n1 v)
          g_p (seq 0 N).
Proof.
  unfold copy_positions.
  apply (launch_covers N
           (fun n1 v => block_stores N (fun i j => ref_g_p !!! (j + i * N)%nat) n1 v)).
Qed.

Lemma copy_positions_length (N : nat) (ref_g_p g_p : list R) :
  length (copy_positions (ceil_blocks N 128) N ref_g_p g_p) = length g_p.
Proof.
  rewrite copy_positions_unfold. generalize (seq 0 N) as l. intros l. revert g_p.
  induction l as [|a l IH]; intros g_p; cbn [foldl]; [reflexivity|].
  now rewrite IH, block_stores_length.
Qed.

(** [copy_positions] overwrites the [3N] coordinates and nothing else. *)
Lemma copy_positions_spec (N : nat) (ref_g_p g_p : list R) :
  (3 * N <= length g_p)%nat ->
  length (copy_positions (ceil_blocks N 128) N ref_g_p g_p) = length g_p
  /\ forall idx, (idx < 3 * N)%nat ->
       copy_positions (ceil_blocks N 128) N ref_g_p g_p !!! idx = ref_g_p !!! idx.
Proof.
  intros Hlen. rewrite copy_positions_unfold.
  destruct (block_stores_loop N (fun i j => ref_g_p !!! (j + i * N)%nat) g_p N
              (le_n N) Hlen) as [Hl Hv].
  split; [exact Hl|].
  intros idx Hidx. destruct (block_cell N idx Hidx) as (i & j & Hi & Hj & ->).
  now apply Hv.
Qed.

(** The state after [get_dipole]: the dipole buffers and the private
    copy of the atoms change; the copy keeps its coordinates, masses and
    types and receives what the evaluator computes from them. *)
Lemma get_dipole_fields (box : Box) (force : Force.t) (c : Cavity) :
  let c1 := get_dipole box force c in
  let N := number_of_atoms_ c in
  let zeroed := <[2%nat := 0.0]> (<[1%nat := 0.0]> (<[0%nat := 0.0]> (cpu_dipole_ c))) in
  c1 = c <| atom_copy := atom_copy c1 |>
         <| cpu_dipole_ := zeroed |>
         <| gpu_dipole_ :=
              sum_dipole N (ceil_blocks N 1024) (Atom.virial_per_atom (atom_copy c1))
                (copy_into zeroed (gpu_dipole_ c)) |>
  /\ Atom.position_per_atom (atom_copy c1) = Atom.position_per_atom (atom_copy c)
  /\ Atom.mass (atom_copy c1) = Atom.mass (atom_copy c)
  /\ Atom.type (atom_copy c1) = Atom.type (atom_copy c)
  /\ (Atom.potential_per_atom (atom_copy c1), Atom.force_per_atom (atom_copy c1),
      Atom.virial_per_atom (atom_copy c1))
     = compute box (Atom.type (atom_copy c)) (Atom.position_per_atom (atom_copy c))
         (zeroed_properties c).
Proof.
  cbv zeta. unfold get_dipole, zeroed_properties.
  destruct c as [en n ncs nn pot potj cs cf ch m ms ac av cd gd cj gj ccf gcf pd
                 q0' ci si pt q' p' cp ck].
  destruct ac as [a1 a2 a3 a4 a5 a6 a7 a8 a9 a10].
  fields. split_lets. fields. repeat split.
Qed.

End DipoleEvaluator.

(** * The Jacobian evaluator *)

Section JacobianEvaluator.
Context `{Collaborators}.
Local Open Scope R_scope.

Lemma collect_entries_jacobian (displacement_over_M : R) (masses_ : list R) (i : nat)
    (l : list nat) (st : list R * list R * list R * list R * list R) :
  snd (foldl (fun st j => collect_entry displacement_over_M masses_ i j st) st l)
  = foldl (fun jac j =>
             foldl (fun jac k => <[(i * 3 + j * 9 + k)%nat := 1.0]> jac) jac (seq 0 3))
          (snd st) l.
Proof.
  revert st. induction l as [|j l IH]; intros st; cbn [foldl]; [reflexivity|].
  rewrite IH. destruct st as [[[[f1 f2] b1] b2] jac]. reflexivity.
Qed.

Lemma collect_jacobian_stored (N : nat) (displacement_over_M : R) (masses_ : list R)
    (st : list R * list R * list R * list R * list R) :
  snd (collect_jacobian N displacement_over_M masses_ st) = jacobian_stored N (snd st).
Proof.
  unfold collect_jacobian, jacobian_stored. cbn [seq foldl].
  now rewrite !collect_entries_jacobian.
Qed.

(** A store of [1.0] keeps the length and keeps every [1.0]. *)
Lemma store_one_keeps (a idx : nat) (v : list R) :
  v !!! idx = 1.0 -> <[a := 1.0]> v !!! idx = 1.0.
Proof.
  intros Hone. rewrite list_lookup_total_insert. now destruct (decide _).
Qed.

Lemma entry_stores_ones (i j : nat) (v : list R) :
  let r := foldl (fun jac k => <[(i * 3 + j * 9 + k)%nat := 1.0]> jac) v (seq 0 3) in
  length r = length v
  /\ (forall idx, v !!! idx = 1.0 -> r !!! idx = 1.0)
  /\ (forall k, (k < 3)%nat -> (i * 3 + j * 9 + k < length v)%nat ->
        r !!! (i * 3 + j * 9 + k)%nat = 1.0).
Proof.
  cbv zeta. cbn [seq foldl]. repeat split.
  - now rewrite !length_insert.
  - intros idx Hone. now do 3 apply store_one_keeps.
  - intros k Hk Hlt. rewrite !list_lookup_total_insert, !length_insert.
    repeat destruct (decide _); try reflexivity; lia.
Qed.

Lemma pass_stores_ones (i : nat) (v : list R) (n : nat) :
  let r := foldl (fun jac j =>
                    foldl (fun jac k => <[(i * 3 + j * 9 + k)%nat := 1.0]> jac) jac (seq 0 3))
                 v (seq 0 n) in
  length r = length v
  /\ (forall idx, v !!! idx = 1.0 -> r !!! idx = 1.0)
  /\ (forall j k, (j < n)%nat -> (k < 3)%nat -> (i * 3 + j * 9 + k < length v)%nat ->
        r !!! (i * 3 + j * 9 + k)%nat = 1.0).
Proof.
  induction n as [|n IH]; cbv zeta in *.
  - cbn [seq foldl]. repeat split; try tauto. intros; lia.
  - rewrite (seq_S n), foldl_app. cbn [foldl Nat.add].
    destruct IH as (IHl & IHk & IHv).
    set (r := foldl _ v (seq 0 n)) in *.
    destruct (entry_stores_ones i n r) as (El & Ek & Ev).
    repeat split.
    + congruence.
    + intros idx Hone. now apply Ek, IHk.
    + intros j k Hj Hk Hlt. destruct (decide (j = n)) as [->|Hne].
      * apply Ev; [assumption|congruence].
      * apply Ek, IHv; [lia|assumption|assumption].
Qed.

(** Every entry of the [(N, 3, 3)] tensor is the constant [1.0] after
    step 3, whatever the replicas gave. *)
Lemma jacobian_stored_ones (N : nat) (jac : list R) :
  (9 * N <= length jac)%nat ->
  length (jacobian_stored N jac) = length jac
  /\ forall i j k, (i < 3)%nat -> (j < N)%nat -> (k < 3)%nat ->
       jacobian_stored N jac !!! (i * 3 + j * 9 + k)%nat = 1.0.
Proof.
  intros Hlen. unfold jacobian_stored. cbn [seq foldl].
  destruct (pass_stores_ones 0 jac N) as (L0 & K0 & V0).
  set (r0 := foldl _ jac (seq 0 N)) in *.
  destruct (pass_stores_ones 1 r0 N) as (L1 & K1 & V1).
  set (r1 := foldl _ r0 (seq 0 N)) in *.
  destruct (pass_stores_ones 2 r1 N) as (L2 & K2 & V2).
  set (r2 := foldl _ r1 (seq 0 N)) in *.
  split; [congruence|].
  intros i j k Hi Hj Hk.
  destruct i as [|[|[|i]]]; [| | |lia].
  - apply K2, K1, V0; [assumption|assumption|lia].
  - apply K2, V1; [assumption|assumption|lia].
  - apply V2; [assumption|assumption|lia].
Qed.

Lemma jacobian_stored_replicate (N : nat) (jac : list R) :
  length jac = (9 * N)%nat -> jacobian_stored N jac = replicate (9 * N) 1.0.
Proof.
  intros Hlen.
  destruct (jacobian_stored_ones N jac ltac:(lia)) as [Hl Hv].
  apply (list_eq_same_length _ _ (9 * N)); [now rewrite length_replicate|lia|].
  intros idx x y Hidx Hx Hy.
  apply lookup_replicate in Hy as [-> _].
  apply (list_lookup_total_correct _ _ _) in Hx. rewrite <- Hx.
  replace idx with ((idx mod 9 / 3) * 3 + (idx / 9) * 9 + idx mod 3)%nat.
  - apply Hv.
    + apply Nat.Div0.div_lt_upper_bound. apply (Nat.mod_upper_bound idx 9). lia.
    + apply Nat.Div0.div_lt_upper_bound. lia.
    + apply Nat.mod_upper_bound. lia.
  - pose proof (Nat.div_mod_eq idx 9). pose proof (Nat.div_mod_eq (idx mod 9) 3).
    assert (idx mod 9 mod 3 = idx mod 3)%nat.
    { change 9%nat with (3 * 3)%nat. rewrite Nat.Div0.mod_mul_r.
      rewrite Nat.mul_comm, Nat.Div0.mod_add. apply Nat.Div0.mod_mod. }
    lia.
Qed.

End JacobianEvaluator.

Section JacobianEvaluatorCode.
Context `{Collaborators}.
Local Open Scope R_scope.

(** [get_dipole_jacobian] never exits: it divides by the total mass
    (three times in the center-of-mass kernel, once for
    [displacement_over_M]), by the displacement and by the constants 12
    and 3, fills the replica buffers and stores the result of step 3. *)
Lemma get_dipole_jacobian_done (box : Box) (force : Force.t) (displacement ch : R)
    (c : Cavity) (log : list R) :
  let N := number_of_atoms_ c in
  let ac := (atom_copy c) <| Atom.cpu_position_per_atom :=
                               copy_into (Atom.position_per_atom (atom_copy c))
                                         (Atom.cpu_position_per_atom (atom_copy c)) |> in
  exists av,
    get_dipole_jacobian box force displacement ch c log
    = Done (c <| atom_copy := ac |>
              <| atom_cavity := av |>
              <| cpu_dipole_jacobian_ := jacobian_stored N (cpu_dipole_jacobian_ c) |>)
           (log ++ [mass_ c; mass_ c; mass_ c; mass_ c; displacement; 12.0; 3.0])
    /\ (AtomCavity.cpu_position_per_atom av, AtomCavity.cpu_system_index av)
       = setup_replicas N (Atom.cpu_position_per_atom ac) displacement
           (AtomCavity.cpu_position_per_atom (atom_cavity c),
            AtomCavity.cpu_system_index (atom_cavity c)).
Proof.
  cbv zeta. unfold get_dipole_jacobian, _get_center_of_mass.
  unfold bind at 1. rewrite get_center_of_mass_sequential_eq.
  destruct c as [en n ncs nn pot potj cs cf ch' m ms ac av cd gd cj gj ccf gcf pd
                 q0' ci si pt q' p' cp ck].
  destruct ac as [a1 a2 a3 a4 a5 a6 a7 a8 a9 a10].
  destruct av as [v1 v2 v3 v4 v5 v6 v7 v8 v9 v10 v11 v12].
  unfold bind, fdiv, ret. fields.
  destruct (setup_replicas _ _ _ _) as [pos idx] eqn:Esetup. fields.
  destruct (initialize_properties _ _ _ _ _) as [[g_f g_pe] g_virial] eqn:Einit.
  destruct (compute_jacobian _ _ _ _ _) as [[g_pe' g_f'] g_virial'] eqn:Ecomp. fields.
  destruct (collect_jacobian _ _ _ _) as [[[[f1 f2] b1] b2] jac] eqn:Ecollect.
  apply (f_equal snd) in Ecollect. rewrite collect_jacobian_stored in Ecollect.
  cbn [snd] in Ecollect. subst jac.
  eexists. split.
  - rewrite <- !app_assoc. cbn [app]. reflexivity.
  - reflexivity.
Qed.

Lemma convert_dipole_fields (center_of_mass : list R) (c : Cavity) :
  convert_dipole center_of_mass c
  = c <| cpu_dipole_ := dipole_converted (IZR (charge c)) (cpu_dipole_ c) center_of_mass |>.
Proof.
  unfold convert_dipole, dipole_converted.
  generalize (seq 0 3) as l. intros l.
  destruct c as [en n ncs nn pot potj cs cf ch m ms ac av cd gd cj gj ccf gcf pd
                 q0' ci si pt q' p' cp ck].
  fields. revert cd.
  induction l as [|a l IH]; intros cd; cbn [foldl]; [reflexivity|].
  fields. rewrite IH. reflexivity.
Qed.

End JacobianEvaluatorCode.

(** * The dipole and the Jacobian, per step *)

Section DipoleCode.
Context `{Collaborators}.
Local Open Scope R_scope.

Lemma dipole_converted_lookup (ch : R) (dipole center_of_mass : list R) (k : nat) :
  length dipole = 3%nat -> (k < 3)%nat ->
  dipole_converted ch dipole center_of_mass !!! k
  = dipole !!! k * BOHR_IN_ANGSTROM + ch * center_of_mass !!! k.
Proof.
  intros Hlen Hk. unfold dipole_converted. cbn [seq foldl].
  destruct k as [|[|[|k]]]; [| | |lia];
    rewrite !list_lookup_total_insert, !length_insert;
    repeat (destruct (decide _); try lia); reflexivity.
Qed.

Lemma dipole_converted_length (ch : R) (dipole center_of_mass : list R) :
  length (dipole_converted ch dipole center_of_mass) = length dipole.
Proof. unfold dipole_converted. cbn [seq foldl]. now rewrite !length_insert. Qed.

(** [compute_dipole_and_jacobian] on an enabled object never exits: it
    runs both center-of-mass kernels and [get_dipole_jacobian], dividing
    by the total mass seven times, and changes only the private copies,
    the dipole and the Jacobian. *)
Lemma compute_dipole_and_jacobian_done (step : Z) (box : Box) (atom : Atom.t)
    (force : Force.t) (c : Cavity) (log : list R) :
  enabled_ c = true ->
  let N := number_of_atoms_ c in
  let M := mass_ c in
  let zeroed := <[2%nat := 0.0]> (<[1%nat := 0.0]> (<[0%nat := 0.0]> (cpu_dipole_ c))) in
  exists c',
    compute_dipole_and_jacobian step box atom force c log
    = Done c' (log ++ [M; M; M] ++ [M; M; M; M; 0.001; 12.0; 3.0])
    /\ c' = c <| atom_copy := atom_copy c' |> <| atom_cavity := atom_cavity c' |>
              <| cpu_dipole_ := cpu_dipole_ c' |> <| gpu_dipole_ := gpu_dipole_ c' |>
              <| cpu_dipole_jacobian_ := cpu_dipole_jacobian_ c' |>
    /\ cpu_dipole_jacobian_ c' = jacobian_stored N (cpu_dipole_jacobian_ c)
    /\ Atom.position_per_atom (atom_copy c')
       = copy_positions (ceil_blocks N 128) N (Atom.position_per_atom atom)
           (Atom.position_per_atom (atom_copy c))
    /\ Atom.mass (atom_copy c') = Atom.mass (atom_copy c)
    /\ Atom.type (atom_copy c') = Atom.type (atom_copy c)
    /\ (Atom.potential_per_atom (atom_copy c'), Atom.force_per_atom (atom_copy c'),
        Atom.virial_per_atom (atom_copy c'))
       = compute box (Atom.type (atom_copy c)) (Atom.position_per_atom (atom_copy c'))
           (zeroed_properties c)
    /\ gpu_dipole_ c'
       = sum_dipole N (ceil_blocks N 1024) (Atom.virial_per_atom (atom_copy c'))
           (copy_into zeroed (gpu_dipole_ c))
    /\ cpu_dipole_ c'
       = dipole_converted (IZR (charge c))
           (copy_into
              (sum_dipole N (ceil_blocks N 1024) (Atom.virial_per_atom (atom_copy c'))
                 (copy_into zeroed (gpu_dipole_ c)))
              zeroed)
           (copy_into
              (<[2%nat := center_of_mass_sequential N M (Atom.mass (atom_copy c'))
                            (Atom.position_per_atom (atom_copy c')) 2]>
                 (<[1%nat := center_of_mass_sequential N M (Atom.mass (atom_copy c'))
                               (Atom.position_per_atom (atom_copy c')) 1]>
                    (<[0%nat := center_of_mass_sequential N M (Atom.mass (atom_copy c'))
                                  (Atom.position_per_atom (atom_copy c')) 0]>
                       (replicate 3 0))))
              (replicate 3 0)).
Proof.
  intros Hen.
  destruct c as [en n ncs nn pot potj cs cf ch m ms ac av cd gd cj gj ccf gcf pd
                 q0' ci si pt q' p' cp ck].
  destruct ac as [b1 b2 b3 b4 b5 b6 b7 b8 b9 b10].
  cbn [enabled_] in Hen. subst.
  unfold compute_dipole_and_jacobian. fields.
  match goal with
  | |- context [get_dipole box force ?c0] =>
      destruct (get_dipole_fields box force c0) as (E & Hpos & Hmass & Htype & Hcomp);
      set (c1 := get_dipole box force c0) in *
  end.
  unfold zeroed_properties in *.
  set (ac1 := atom_copy c1) in *. clearbody ac1.
  revert E Hpos Hmass Htype Hcomp. fields. intros E Hpos Hmass Htype Hcomp.
  clearbody c1. subst c1.
  destruct ac1 as [a1 a2 a3 a4 a5 a6 a7 a8 a9 a10].
  revert Hpos Hmass Htype Hcomp. fields. intros Hpos Hmass Htype Hcomp. subst.
  unfold bind at 1. unfold _get_center_of_mass. fields.
  rewrite get_center_of_mass_sequential_eq, convert_dipole_fields. fields.
  match goal with
  | |- context [get_dipole_jacobian box force ?h ?ch ?cc ?lg] =>
      destruct (get_dipole_jacobian_done box force h ch cc lg) as (av' & Egdj & _)
  end.
  revert Egdj. fields. intros Egdj. rewrite Egdj. clear Egdj.
  eexists. split; [rewrite <- app_assoc; reflexivity|].
  fields. repeat split. exact Hcomp.
Qed.

(** The dipole after [compute_dipole_and_jacobian], once the dipole
    buffers have their three cells. *)
Lemma compute_dipole_and_jacobian_spec (step : Z) (box : Box) (atom : Atom.t)
    (force : Force.t) (c : Cavity) (log : list R) :
  enabled_ c = true ->
  length (cpu_dipole_ c) = 3%nat ->
  length (gpu_dipole_ c) = 3%nat ->
  let N := number_of_atoms_ c in
  let M := mass_ c in
  exists c',
    compute_dipole_and_jacobian step box atom force c log
    = Done c' (log ++ [M; M; M] ++ [M; M; M; M; 0.001; 12.0; 3.0])
    /\ c' = c <| atom_copy := atom_copy c' |> <| atom_cavity := atom_cavity c' |>
              <| cpu_dipole_ := cpu_dipole_ c' |> <| gpu_dipole_ := gpu_dipole_ c' |>
              <| cpu_dipole_jacobian_ := cpu_dipole_jacobian_ c' |>
    /\ cpu_dipole_jacobian_ c' = jacobian_stored N (cpu_dipole_jacobian_ c)
    /\ Atom.position_per_atom (atom_copy c')
       = copy_positions (ceil_blocks N 128) N (Atom.position_per_atom atom)
           (Atom.position_per_atom (atom_copy c))
    /\ Atom.mass (atom_copy c') = Atom.mass (atom_copy c)
    /\ (Atom.potential_per_atom (atom_copy c'), Atom.force_per_atom (atom_copy c'),
        Atom.virial_per_atom (atom_copy c'))
       = compute box (Atom.type (atom_copy c)) (Atom.position_per_atom (atom_copy c'))
           (zeroed_properties c)
    /\ length (cpu_dipole_ c') = 3%nat
    /\ (forall k, (k < 3)%nat ->
         cpu_dipole_ c' !!! k
         = sum_dipole_sequential N (Atom.virial_per_atom (atom_copy c')) k
           * BOHR_IN_ANGSTROM
           + IZR (charge c)
             * center_of_mass_sequential N M (Atom.mass (atom_copy c'))
                 (Atom.position_per_atom (atom_copy c')) k)
    /\ length (gpu_dipole_ c') = 3%nat
    /\ length (Atom.position_per_atom (atom_copy c'))
       = length (Atom.position_per_atom (atom_copy c))
    /\ Atom.type (atom_copy c') = Atom.type (atom_copy c).
Proof.
  intros Hen Hcpu Hgpu. cbv zeta.
  destruct (compute_dipole_and_jacobian_done step box atom force c log Hen)
    as (c' & Erun & Ef & Ej & Ep & Em & Ety & Ec & Eg & Ed).
  exists c'. repeat (split; [assumption|]).
  set (zeroed := <[2%nat := 0.0]> (<[1%nat := 0.0]> (<[0%nat := 0.0]> (cpu_dipole_ c)))) in *.
  assert (Hz : length zeroed = 3%nat) by (unfold zeroed; now rewrite !length_insert).
  rewrite (copy_into_same_length zeroed (gpu_dipole_ c)) in Ed by congruence.
  rewrite sum_dipole_sequential_eq in Ed.
  rewrite (copy_into_same_length _ zeroed) in Ed by (rewrite !length_insert; congruence).
  rewrite (copy_into_same_length _ (replicate 3 0)) in Ed
    by (now rewrite !length_insert).
  split; [|split; [|split; [|split]]].
  - now rewrite Ed, dipole_converted_length, !length_insert.
  - intros k Hk.
    rewrite Ed, dipole_converted_lookup by (rewrite ?length_insert; lia).
    destruct k as [|[|[|k]]]; [| | |lia];
      rewrite !list_lookup_total_insert, !length_insert, ?length_replicate;
      repeat (destruct (decide _); try lia); reflexivity.
  - rewrite Eg, (copy_into_same_length zeroed (gpu_dipole_ c)) by congruence.
    now rewrite sum_dipole_sequential_eq, !length_insert.
  - rewrite Ep. apply copy_positions_length.
  - exact Ety.
Qed.

End DipoleCode.

(** * Initialization *)

Section Initialization.
Context `{Collaborators}.
Local Open Scope R_scope.

Lemma length_resize {A} (zero : A) (n : nat) (v : list A) :
  length (resize zero n v) = n.
Proof. unfold resize. rewrite length_app, length_take, length_replicate. lia. Qed.

Lemma length_copy_into {A} (src dst : list A) :
  length (copy_into src dst) = length dst.
Proof. unfold copy_into. rewrite length_app, length_take, length_drop. lia. Qed.

Lemma total_mass_fields (atom : Atom.t) (c : Cavity) :
  total_mass atom c
  = c <| masses_ := foldl (fun v i => <[i := Atom.cpu_mass atom !!! i]> v) (masses_ c)
                          (seq 0 (number_of_atoms_ c)) |>
      <| mass_ := mass_ c + sum_upto (number_of_atoms_ c) (fun i => Atom.cpu_mass atom !!! i) |>.
Proof.
  unfold total_mass. generalize (number_of_atoms_ c) as n.
  destruct c as [en n0 ncs nn pot potj cs cf ch m ms ac av cd gd cj gj ccf gcf pd
                 q0' ci si pt q' p' cp ck].
  fields. induction n as [|n IH].
  - cbn [seq foldl]. rewrite sum_upto_0. fields. f_equal. lra.
  - rewrite seq_S, !foldl_app. cbn [foldl Nat.add]. rewrite IH. fields.
    rewrite sum_upto_S. fields. f_equal. lra.
Qed.

Lemma initialize_done (box : Box) (atom : Atom.t) (force : Force.t) (c : Cavity)
    (log : list R) :
  enabled_ c = true ->
  length (Force.potentials force) = 2%nat ->
  nep_model_type (Force.potentials force !!! 1%nat) = 1%Z ->
  let N := number_of_atoms_ c in
  let M := mass_ c + sum_upto N (fun i => Atom.cpu_mass atom !!! i) in
  exists c',
    initialize box atom force c log
    = Done c' (log ++ [M; M; M] ++ [M; M; M; M; 0.001; 12.0; 3.0] ++ [cavity_frequency c])
    /\ q0 c' = coupling_strength c * cpu_dipole_ c' !!! 2%nat / cavity_frequency c
    /\ cos_integral c' = 0 /\ sin_integral c' = 0 /\ prevtime c' = 0
    /\ prevdipole c' = cpu_dipole_ c'
    /\ length (cpu_dipole_ c') = 3%nat
    /\ (forall k, (k < 3)%nat ->
          cpu_dipole_ c' !!! k
          = sum_dipole_sequential N (Atom.virial_per_atom (atom_copy c')) k
            * BOHR_IN_ANGSTROM
            + IZR (charge c)
              * center_of_mass_sequential N M (Atom.mass (atom_copy c'))
                  (Atom.position_per_atom (atom_copy c')) k)
    /\ enabled_ c' = true /\ number_of_atoms_ c' = N
    /\ coupling_strength c' = coupling_strength c
    /\ cavity_frequency c' = cavity_frequency c
    /\ charge c' = charge c /\ mass_ c' = M
    /\ Atom.mass (atom_copy c')
       = copy_into (Atom.cpu_mass atom) (resize 0 N (Atom.mass (atom_copy c)))
    /\ length (cpu_cavity_force_ c') = (N * 3)%nat
    /\ length (gpu_cavity_force_ c') = (N * 3)%nat
    /\ cpu_dipole_jacobian_ c' = replicate (9 * N) 1.0
    /\ length (gpu_dipole_ c') = 3%nat
    /\ length (Atom.position_per_atom (atom_copy c')) = (N * 3)%nat
    /\ Atom.type (atom_copy c')
       = copy_into (Atom.cpu_type atom) (resize 0%Z N (Atom.type (atom_copy c)))
    /\ Atom.position_per_atom (atom_copy c')
       = copy_positions (ceil_blocks N 128) N (Atom.position_per_atom atom)
           (resize 0 (N * 3) (Atom.position_per_atom (atom_copy c)))
    /\ (Atom.potential_per_atom (atom_copy c'), Atom.force_per_atom (atom_copy c'),
        Atom.virial_per_atom (atom_copy c'))
       = compute box (Atom.type (atom_copy c')) (Atom.position_per_atom (atom_copy c'))
           (let '(g_f, g_pe, g_virial) :=
              initialize_properties (ceil_blocks N 128) N
                (resize 0 (N * 3) (Atom.force_per_atom (atom_copy c)))
                (resize 0 N (Atom.potential_per_atom (atom_copy c)))
                (resize 0 (N * 9) (Atom.virial_per_atom (atom_copy c))) in
            (g_pe, g_f, g_virial))
    /\ masses_ c'
       = foldl (fun v i => <[i := Atom.cpu_mass atom !!! i]> v) (resize 0 N (masses_ c))
           (seq 0 N)
    /\ length (gpu_dipole_jacobian_ c') = (N * 3 * 3)%nat.
Proof.
  intros Hen Hpot Hnep.
  destruct c as [en n ncs nn pot potj cs cf ch m ms ac av cd gd cj gj ccf gcf pd
                 q0' ci si pt q' p' cp ck].
  destruct ac as [a1 a2 a3 a4 a5 a6 a7 a8 a9 a10].
  destruct av as [v1 v2 v3 v4 v5 v6 v7 v8 v9 v10 v11 v12].
  destruct atom as [t1 t2 t3 t4 t5 t6 t7 t8 t9 t10].
  cbn [enabled_] in Hen. subst. lazy delta [initialize]. fields_by_need.
  unfold bind at 1. destruct (decide _) as [Hne|_]; [contradiction|]. unfold ret at 1.
  unfold bind at 1. destruct (decide _) as [Hne|_]; [contradiction|]. unfold ret at 1.
  lazy beta. rewrite total_mass_fields. fields_by_need.
  destruct (copy_mass_and_type_to_cavity _ _ _ _ _ _) as [g_mass g_type] eqn:Ecopy.
  fields_by_need. unfold bind at 1.
  match goal with
  | |- context [compute_dipole_and_jacobian ?s ?b ?a ?f ?cc ?lg] =>
      destruct (compute_dipole_and_jacobian_spec s b a f cc lg eq_refl
                  (length_resize 0 3 cd) (length_resize 0 3 gd))
        as (c1 & Erun & Ef & Ej & Ep & Em & Ec & Hl & Hd & Hg & Hpl & Ety)
  end.
  rewrite Erun. clear Erun. unfold zeroed_properties in Ec.
  destruct c1 as [en1 n1 ncs1 nn1 pot1 potj1 cs1 cf1 ch1 m1 ms1 ac1 av1 cd1 gd1 cj1 gj1
                  ccf1 gcf1 pd1 q01 ci1 si1 pt1 q1 p1 cp1 ck1].
  revert Ef Ej Ep Em Ec Hl Hd Hg Hpl Ety. fields_by_need.
  intros Ef Ej Ep Em Ec Hl Hd Hg Hpl Ety.
  injection Ef as -> -> -> -> -> -> -> -> -> -> -> -> -> -> -> -> -> -> -> -> -> -> ->.
  unfold bind, fdiv, ret. eexists. split.
  { rewrite <- !app_assoc. reflexivity. }
  fields_by_need. repeat split; try reflexivity; try lra;
    try assumption; try apply length_resize.
  - apply std_copy_same_length. rewrite length_resize. congruence.
  - rewrite Ej. apply jacobian_stored_replicate. rewrite length_resize. lia.
  - rewrite Hpl. apply length_resize.
  - rewrite Ec, Ety. reflexivity.
Qed.

Lemma sum_upto_lookup (l : list R) :
  sum_upto (length l) (fun i => l !!! i) = sequential_sum l.
Proof.
  unfold sum_upto. f_equal. apply list_eq. intros i.
  rewrite list_lookup_fmap.
  destruct (decide (i < length l)%nat) as [Hlt|Hge].
  - rewrite lookup_seq_lt by assumption. cbn.
    symmetry. now apply list_lookup_lookup_total_lt.
  - rewrite lookup_seq_ge by lia. cbn. symmetry. apply lookup_ge_None. lia.
Qed.

End Initialization.

(** * Divisions by zero *)

Section Safety.
Context `{Collaborators}.
Local Open Scope R_scope.

(** [parse] on a well-formed command, as a function of the frequency
    read from [param[3]]: the only test on it is [cavity_frequency < 0.0]. *)
Lemma parse_frequency_check (param : list string) (N : nat) (c : Cavity)
    (log : list R) (l w : R) (ch : Z) :
  fscanf_count (param !!! 1%nat) = 1%Z ->
  is_valid_real (param !!! 2%nat) = Some l ->
  ~ l < 0 ->
  is_valid_real (param !!! 3%nat) = Some w ->
  is_valid_int (param !!! 4%nat) = Some ch ->
  parse param 5 N c log
  = if Rlt_dec w 0 then Fatal "cavity frequency cannot be negative."
    else Done (c <| enabled_ := true |>
                 <| number_of_atoms_ := N |>
                 <| potential := {| N1 := 0; N2 := Z.of_nat N |} |>
                 <| number_of_copied_systems_ := int_mul 12 (Z.of_nat N) |>
                 <| number_of_atoms_in_copied_system_ :=
                      int_mul (int_mul 12 (Z.of_nat N)) (Z.of_nat N) |>
                 <| potential_jacobian :=
                      {| N1 := 0; N2 := int_mul (int_mul 12 (Z.of_nat N)) (Z.of_nat N) |} |>
                 <| coupling_strength := l |>
                 <| cavity_frequency := w |>
                 <| charge := ch |>) log.
Proof.
  intros Hcount Hl Hl0 Hw Hch.
  destruct c as [en n ncs nn pot potj cs cf ch' m ms ac av cd gd cj gj ccf gcf pd
                 q0' ci si pt q' p' cp ck].
  unfold parse. fields. unfold bind, ret, PRINT_INPUT_ERROR.
  rewrite Hcount, Hl, Hw, Hch. fields.
  destruct (decide (1%Z <> 1%Z)) as [Hne|_]; [congruence|].
  destruct (decide (5%Z <> 5%Z)) as [Hne|_]; [congruence|].
  destruct (Rlt_dec l 0.0) as [Hlt|_]; [exfalso; lra|].
  destruct (Rlt_dec w 0.0) as [Hlt|Hge]; destruct (Rlt_dec w 0) as [Hlt'|Hge'].
  - reflexivity.
  - exfalso; lra.
  - exfalso; lra.
  - reflexivity.
Qed.

Lemma parse_rejects_non_numeric_frequency (param : list string) (N : nat) (c : Cavity)
    (log : list R) (l : R) :
  fscanf_count (param !!! 1%nat) = 1%Z ->
  is_valid_real (param !!! 2%nat) = Some l ->
  ~ l < 0 ->
  is_valid_real (param !!! 3%nat) = None ->
  parse param 5 N c log = Fatal "cavity frequency should be a real number.".
Proof.
  intros Hcount Hl Hl0 Hw.
  destruct c as [en n ncs nn pot potj cs cf ch' m ms ac av cd gd cj gj ccf gcf pd
                 q0' ci si pt q' p' cp ck].
  unfold parse. fields. unfold bind, ret, PRINT_INPUT_ERROR.
  rewrite Hcount, Hl, Hw. fields.
  destruct (decide (1%Z <> 1%Z)) as [Hne|_]; [congruence|].
  destruct (decide (5%Z <> 5%Z)) as [Hne|_]; [congruence|].
  destruct (Rlt_dec l 0.0) as [Hlt|_]; [exfalso; lra|]. reflexivity.
Qed.

(** C10. [parse] accepts a cavity frequency of exactly zero: it exits on
    a frequency that is not a number or is below zero, and on nothing else
    about it.  [initialize] then divides [coupling_strength * mu_z] by
    that zero: the last divisor of the run is the frequency, and nothing
    tests it before. *)
Theorem zero_frequency_is_divided_by (param : list string) (N : nat) (box : Box)
    (atom : Atom.t) (force : Force.t) (c : Cavity) (log : list R) (l w : R) (ch : Z) :
  fscanf_count (param !!! 1%nat) = 1%Z ->
  is_valid_real (param !!! 2%nat) = Some l ->
  ~ l < 0 ->
  is_valid_real (param !!! 3%nat) = Some w ->
  is_valid_int (param !!! 4%nat) = Some ch ->
  length (Force.potentials force) = 2%nat ->
  nep_model_type (Force.potentials force !!! 1%nat) = 1%Z ->
  (aborted (parse param 5 N c log) <-> w < 0)
  /\ (w = 0 ->
      exists c1 c2 evaluation,
        parse param 5 N c log = Done c1 log
        /\ enabled_ c1 = true
        /\ coupling_strength c1 = l
        /\ cavity_frequency c1 = 0
        /\ initialize box atom force c1 log = Done c2 (log ++ evaluation ++ [0])
        /\ q0 c2 = l * cpu_dipole_ c2 !!! 2%nat / 0).
Proof.
  intros Hcount Hl Hl0 Hw Hch Hpot Hnep.
  pose proof (parse_frequency_check param N c log l w ch Hcount Hl Hl0 Hw Hch) as Eparse.
  split.
  - rewrite Eparse. destruct (Rlt_dec w 0); cbn [aborted]; tauto.
  - intros ->. destruct (Rlt_dec 0 0) as [Hlt|_]; [exfalso; lra|].
    match type of Eparse with _ = Done ?c1 _ =>
      assert (Hen : enabled_ c1 = true) by (destruct c; reflexivity);
      assert (Hcs : coupling_strength c1 = l) by (destruct c; reflexivity);
      assert (Hcf : cavity_frequency c1 = 0) by (destruct c; reflexivity);
      destruct (initialize_done box atom force c1 log Hen Hpot Hnep)
        as (c2 & Erun & Hq0 & _);
      set (M := mass_ c1 + sum_upto (number_of_atoms_ c1)
                                (fun i => Atom.cpu_mass atom !!! i)) in *;
      exists c1, c2, [M; M; M; M; M; M; M; 0.001; 12.0; 3.0]
    end.
    cbv zeta in Erun. rewrite Hcf in Erun. rewrite Hcs, Hcf in Hq0.
    split; [exact Eparse|]. split; [exact Hen|]. split; [exact Hcs|].
    split; [exact Hcf|]. split; [exact Erun|exact Hq0].
Qed.

(** C9, amended. With a total mass of zero (as with no atom at all) the
    dipole and Jacobian computation does not exit: it runs to its end and
    divides by the zero total mass seven times, three times in each
    launch of the center-of-mass kernel and once for
    [displacement / mass_]. *)
Theorem zero_mass_is_divided_by (step : Z) (box : Box) (atom : Atom.t)
    (force : Force.t) (c : Cavity) (log : list R) :
  enabled_ c = true ->
  mass_ c = 0 ->
  ~ aborted (compute_dipole_and_jacobian step box atom force c log)
  /\ divisors_of (compute_dipole_and_jacobian step box atom force c log)
     = log ++ [0; 0; 0] ++ [0; 0; 0; 0; 0.001; 12.0; 3.0].
Proof.
  intros Hen Hmass.
  destruct (compute_dipole_and_jacobian_done step box atom force c log Hen)
    as (c' & Erun & _).
  cbv zeta in Erun. rewrite Erun, Hmass. cbn [aborted divisors_of]. tauto.
Qed.

End Safety.

(** * Stores and loops *)

Section Stores.

Lemma foldl_ext {S X : Type} (f g : S -> X -> S) (l : list X) (s : S) :
  (forall s x, f s x = g s x) -> foldl f s l = foldl g s l.
Proof.
  intros Hfg. revert s. induction l as [|x l IH]; intros s; cbn [foldl]; [reflexivity|].
  now rewrite Hfg, IH.
Qed.

(** Stores of a value that depends on the cell only: the length stays,
    a cell holds the value iff it was stored to. *)
Lemma stores_length {A} (F : nat -> A) (cells : list nat) (v : list A) :
  length (foldl (fun v k => <[k := F k]> v) v cells) = length v.
Proof.
  revert v. induction cells as [|k cells IH]; intros v; cbn [foldl]; [reflexivity|].
  now rewrite IH, length_insert.
Qed.

Lemma stores_lookup {A} `{Inhabited A} (F : nat -> A) (cells : list nat) (v : list A)
    (i : nat) :
  (i < length v)%nat ->
  foldl (fun v k => <[k := F k]> v) v cells !!! i
  = if decide (i ∈ cells) then F i else v !!! i.
Proof.
  revert v. induction cells as [|k cells IH]; intros v Hi; cbn [foldl].
  - destruct (decide _) as [Hin|_]; [|reflexivity]. now apply elem_of_nil in Hin.
  - rewrite IH by now rewrite length_insert.
    destruct (decide (i ∈ cells)) as [Hin|Hnin].
    + destruct (decide _) as [_|Hn]; [reflexivity|]. exfalso. apply Hn. now right.
    + destruct (decide (i = k)) as [->|Hne].
      * rewrite list_lookup_total_insert_eq by assumption.
        destruct (decide _) as [_|Hn]; [reflexivity|]. exfalso. apply Hn. now left.
      * rewrite list_lookup_total_insert_ne by congruence.
        destruct (decide _) as [Hin|_]; [|reflexivity].
        apply elem_of_cons in Hin as [->|Hin]; congruence.
Qed.

Lemma stores_lookup_other {A} `{Inhabited A} (F : nat -> A) (cells : list nat)
    (v : list A) (i : nat) :
  i ∉ cells -> foldl (fun v k => <[k := F k]> v) v cells !!! i = v !!! i.
Proof.
  revert v. induction cells as [|k cells IH]; intros v Hnin; cbn [foldl]; [reflexivity|].
  apply not_elem_of_cons in Hnin as [Hne Hnin].
  rewrite IH by assumption. now apply list_lookup_total_insert_ne.
Qed.

(** Two vectors of one length with the same cells are equal. *)
Lemma vector_eq {A} `{Inhabited A} (v w : list A) :
  length v = length w ->
  (forall i, (i < length v)%nat -> v !!! i = w !!! i) ->
  v = w.
Proof.
  intros Hlen Hcells. apply list_eq. intros i.
  destruct (decide (i < length v)%nat) as [Hlt|Hge].
  - rewrite (list_lookup_lookup_total_lt v i Hlt).
    rewrite (list_lookup_lookup_total_lt w i) by lia.
    now rewrite Hcells.
  - rewrite !(proj2 (lookup_ge_None _ _)) by lia. reflexivity.
Qed.

Lemma strided_cells_S (N K n : nat) :
  strided_cells N K (S n) = strided_cells N K n ++ ((fun c => n + c * N)%nat <$> seq 0 K).
Proof.
  unfold strided_cells. rewrite seq_S, bind_app. cbn. now rewrite app_nil_r.
Qed.

Lemma elem_of_strided_cells (N K n i : nat) :
  (n <= N)%nat ->
  i ∈ strided_cells N K n <-> (i < K * N)%nat /\ (i mod N < n)%nat.
Proof.
  intros Hn. unfold strided_cells. rewrite list_elem_of_bind. split.
  - intros (n1 & Hin & Hn1). apply list_elem_of_fmap in Hin as (c & -> & Hc).
    apply elem_of_seq in Hn1, Hc.
    assert (HN : (0 < N)%nat) by lia.
    rewrite Nat.Div0.mod_add, Nat.mod_small by lia. split; [nia|lia].
  - intros [Hlt Hmod].
    assert (HN : (N <> 0)%nat) by lia.
    exists (i mod N)%nat. split.
    + apply list_elem_of_fmap. exists (i / N)%nat. split.
      * pose proof (Nat.div_mod_eq i N). lia.
      * apply elem_of_seq. split; [lia|]. rewrite Nat.add_0_l.
        apply Nat.Div0.div_lt_upper_bound. lia.
    + apply elem_of_seq. lia.
Qed.

End Stores.

(** * The kernels over the atoms *)

Section LaunchGeometry.

(** X1. The grid [(N - 1) / 128 + 1] of the kernels over the atoms has a
    thread for every atom and less than one block of idle threads; for
    no atom it is one block, not none. *)
Theorem launch_has_a_thread_per_atom (N : nat) :
  (forall n1, n1 < N -> n1 ∈ launch_1d (ceil_blocks N 128) 128)
  /\ (0 < N -> length (launch_1d (ceil_blocks N 128) 128) < N + 128)
  /\ launch_1d (ceil_blocks 0 128) 128 = seq 0 128.
Proof.
  pose proof (ceil_blocks_covers N 128 ltac:(lia)) as Hcover.
  split; [|split].
  - intros n1 Hn1. unfold launch_1d. apply elem_of_seq. lia.
  - intros HN. unfold launch_1d. rewrite length_seq.
    unfold ceil_blocks in *.
    assert (E : (Z.quot (Z.of_nat N - 1) (Z.of_nat 128) + 1 = (Z.of_nat N - 1) / 128 + 1)%Z).
    { rewrite Z.quot_div_nonneg by lia. reflexivity. }
    rewrite E in *.
    pose proof (Z.div_mod (Z.of_nat N - 1) 128 ltac:(lia)).
    pose proof (Z.mod_pos_bound (Z.of_nat N - 1) 128 ltac:(lia)).
    lia.
  - reflexivity.
Qed.

End LaunchGeometry.

Section KernelStores.
Local Open Scope R_scope.

Lemma foldl_ext_in {S X : Type} (f g : S -> X -> S) (l : list X) (s : S) :
  (forall s x, x ∈ l -> f s x = g s x) -> foldl f s l = foldl g s l.
Proof.
  revert s. induction l as [|x l IH]; intros s Hfg; cbn [foldl]; [reflexivity|].
  rewrite Hfg by now left. apply IH. intros s' y Hy. apply Hfg. now right.
Qed.

Lemma foldl_fmap_list {S X Y : Type} (f : S -> Y -> S) (g : X -> Y) (l : list X) (s : S) :
  foldl f s (g <$> l) = foldl (fun s x => f s (g x)) s l.
Proof. revert s. induction l as [|x l IH]; intros s; cbn; [reflexivity|apply IH]. Qed.

Lemma foldl_bind_list {S X Y : Type} (f : S -> Y -> S) (g : X -> list Y) (l : list X)
    (s : S) :
  foldl f s (l ≫= g) = foldl (fun s x => foldl f s (g x)) s l.
Proof.
  revert s. induction l as [|x l IH]; intros s; [reflexivity|].
  rewrite bind_cons, foldl_app. cbn [foldl]. apply IH.
Qed.

(** A launch of [initialize_properties] is a loop over the atoms. *)
Lemma initialize_properties_unfold (N : nat) (g_f g_pe g_virial : list R) :
  initialize_properties (ceil_blocks N 128) N g_f g_pe g_virial
  = (foldl (fun v k => <[k := 0]> v) g_f (strided_cells N 3 N),
     foldl (fun v k => <[k := 0]> v) g_pe (strided_cells N 1 N),
     foldl (fun v k => <[k := 0]> v) g_virial (strided_cells N 9 N)).
Proof.
  unfold initialize_properties.
  set (body := fun (n1 : nat) (s : list R * list R * list R) =>
         let '(g_f, g_pe, g_virial) := s in
         (<[(N * 2 + n1)%nat := 0]> (<[(N + n1)%nat := 0]> (<[n1 := 0]> g_f)),
          <[n1 := 0]> g_pe,
          foldl (fun g_virial c => <[(n1 + c * N)%nat := 0]> g_virial) g_virial (seq 0 9))).
  rewrite (foldl_ext _ (fun s n1 => if decide (n1 < N)%nat then body n1 s else s)).
  2:{ intros [[a b] c] n1. destruct (decide _); reflexivity. }
  unfold launch_1d. rewrite guarded_launch by (apply ceil_blocks_covers; lia).
  assert (Hloop : forall n, (n <= N)%nat ->
            foldl (fun s n1 => body n1 s) (g_f, g_pe, g_virial) (seq 0 n)
            = (foldl (fun v k => <[k := 0]> v) g_f (strided_cells N 3 n),
               foldl (fun v k => <[k := 0]> v) g_pe (strided_cells N 1 n),
               foldl (fun v k => <[k := 0]> v) g_virial (strided_cells N 9 n))).
  { induction n as [|n IH]; intros Hn; [reflexivity|].
    rewrite seq_S, foldl_app, IH by lia. cbn [foldl Nat.add].
    rewrite !strided_cells_S, !foldl_app, !foldl_fmap_list. unfold body.
    cbn [seq foldl].
    replace (n + 0 * N)%nat with n by lia.
    replace (n + 1 * N)%nat with (N + n)%nat by lia.
    replace (n + 2 * N)%nat with (N * 2 + n)%nat by lia.
    reflexivity. }
  apply Hloop. lia.
Qed.

Lemma zeroed_block (K N : nat) (v : list R) :
  (K * N <= length v)%nat ->
  foldl (fun v k => <[k := 0]> v) v (strided_cells N K N)
  = replicate (K * N) 0 ++ drop (K * N) v.
Proof.
  intros Hlen. apply vector_eq.
  - rewrite (stores_length (fun _ => 0)), length_app, length_replicate, length_drop. lia.
  - intros i Hi. rewrite (stores_length (fun _ => 0)) in Hi.
    rewrite (stores_lookup (fun _ => 0)) by assumption.
    destruct (decide (i ∈ strided_cells N K N)) as [Hin|Hnin].
    + apply elem_of_strided_cells in Hin as [Hlt _]; [|lia].
      rewrite lookup_total_app_l by (rewrite length_replicate; lia).
      symmetry. apply lookup_total_replicate_2. lia.
    + assert (Hge : (K * N <= i)%nat).
      { destruct (decide (i < K * N)%nat) as [Hlt|]; [|lia].
        exfalso. apply Hnin. apply elem_of_strided_cells; [lia|].
        split; [assumption|]. apply Nat.mod_upper_bound. nia. }
      rewrite lookup_total_app_r by (rewrite length_replicate; lia).
      rewrite lookup_total_drop, length_replicate. f_equal. lia.
Qed.

(** The buffers after [initialize_properties], when they hold the
    properties of [N] atoms at least. *)
Lemma initialize_properties_closed_form (N : nat) (g_f g_pe g_virial : list R) :
  (3 * N <= length g_f)%nat ->
  (N <= length g_pe)%nat ->
  (9 * N <= length g_virial)%nat ->
  initialize_properties (ceil_blocks N 128) N g_f g_pe g_virial
  = (replicate (3 * N) 0 ++ drop (3 * N) g_f,
     replicate N 0 ++ drop N g_pe,
     replicate (9 * N) 0 ++ drop (9 * N) g_virial).
Proof.
  intros Hf Hpe Hvirial. rewrite initialize_properties_unfold.
  rewrite (zeroed_block 3), (zeroed_block 9) by assumption.
  rewrite (zeroed_block 1) by lia.
  replace (1 * N)%nat with N by lia. reflexivity.
Qed.

Lemma zeroed_prefix_lookup (n : nat) (v : list R) (idx : nat) :
  (n <= length v)%nat ->
  (replicate n 0 ++ drop n v) !!! idx = if decide (idx < n)%nat then 0 else v !!! idx.
Proof.
  intros Hlen. destruct (decide _) as [Hlt|Hge].
  - rewrite lookup_total_app_l by (rewrite length_replicate; lia).
    apply lookup_total_replicate_2. lia.
  - rewrite lookup_total_app_r by (rewrite length_replicate; lia).
    rewrite lookup_total_drop, length_replicate. f_equal. lia.
Qed.

(** X2. [initialize_properties] on [N] atoms sets the first [3N] cells of
    the force buffer, the first [N] of the potential and the first [9N]
    of the virial to zero, and leaves every cell behind them and the
    sizes of the three buffers as they are. *)
Theorem initialize_properties_zeroes (N : nat) (g_f g_pe g_virial : list R) :
  (3 * N <= length g_f)%nat ->
  (N <= length g_pe)%nat ->
  (9 * N <= length g_virial)%nat ->
  let zeroed := initialize_properties (ceil_blocks N 128) N g_f g_pe g_virial in
  (length (fst (fst zeroed)) = length g_f
   /\ forall idx, fst (fst zeroed) !!! idx
                  = if decide (idx < 3 * N)%nat then 0 else g_f !!! idx)
  /\ (length (snd (fst zeroed)) = length g_pe
      /\ forall idx, snd (fst zeroed) !!! idx
                     = if decide (idx < N)%nat then 0 else g_pe !!! idx)
  /\ (length (snd zeroed) = length g_virial
      /\ forall idx, snd zeroed !!! idx
                     = if decide (idx < 9 * N)%nat then 0 else g_virial !!! idx).
Proof.
  intros Hf Hpe Hvirial. cbv zeta.
  rewrite initialize_properties_closed_form by assumption. cbn [fst snd].
  rewrite !length_app, !length_replicate, !length_drop.
  repeat split; try lia; intros idx; now apply zeroed_prefix_lookup.
Qed.

(** A launch of [copy_mass_and_type_to_cavity] is a loop over the atoms
    and the twelve copies. *)
Lemma copy_mass_and_type_to_cavity_unfold (N : nat) (ref_g_mass : list R)
    (ref_g_type : list Z) (g_mass : list R) (g_type : list Z) :
  copy_mass_and_type_to_cavity (ceil_blocks N 128) N ref_g_mass ref_g_type g_mass g_type
  = (foldl (fun v k => <[k := ref_g_mass !!! (k mod N)%nat]> v) g_mass (strided_cells N 12 N),
     foldl (fun v k => <[k := ref_g_type !!! (k mod N)%nat]> v) g_type (strided_cells N 12 N)).
Proof.
  unfold copy_mass_and_type_to_cavity.
  set (body := fun (n1 : nat) (s : list R * list Z) =>
         foldl (fun '(g_mass, g_type) i =>
                  (<[(n1 + i * N)%nat := ref_g_mass !!! n1]> g_mass,
                   <[(n1 + i * N)%nat := ref_g_type !!! n1]> g_type))
               s (seq 0 12)).
  rewrite (foldl_ext _ (fun s n1 => if decide (n1 < N)%nat then body n1 s else s)).
  2:{ intros [a b] n1. destruct (decide _); reflexivity. }
  unfold launch_1d. rewrite guarded_launch by (apply ceil_blocks_covers; lia).
  assert (Hloop : forall n, (n <= N)%nat ->
            foldl (fun s n1 => body n1 s) (g_mass, g_type) (seq 0 n)
            = (foldl (fun v k => <[k := ref_g_mass !!! (k mod N)%nat]> v) g_mass
                     (strided_cells N 12 n),
               foldl (fun v k => <[k := ref_g_type !!! (k mod N)%nat]> v) g_type
                     (strided_cells N 12 n))).
  { induction n as [|n IH]; intros Hn; [reflexivity|].
    rewrite seq_S, foldl_app, IH by lia. cbn [foldl Nat.add].
    rewrite !strided_cells_S, !foldl_app, !foldl_fmap_list. unfold body.
    assert (Hmod : forall i, ((n + i * N) mod N = n)%nat).
    { intros i. rewrite Nat.Div0.mod_add. apply Nat.mod_small. lia. }
    generalize (foldl (fun v k => <[k := ref_g_mass !!! (k mod N)%nat]> v) g_mass
                      (strided_cells N 12 n)) as m.
    generalize (foldl (fun v k => <[k := ref_g_type !!! (k mod N)%nat]> v) g_type
                      (strided_cells N 12 n)) as t.
    generalize (seq 0 12) as l.
    induction l as [|i l IHl]; intros t m; cbn [foldl]; [reflexivity|].
    rewrite IHl, !Hmod. reflexivity. }
  apply Hloop. lia.
Qed.

(** X3. [copy_mass_and_type_to_cavity] gives the first [12 N] cells of the
    batched mass and type buffers the mass and type of the atom
    [idx mod N], twelve copies of the [N] atoms, and leaves the cells
    from [12 N] on as they are. *)
Theorem copy_mass_and_type_fills_twelve_copies (N : nat) (ref_g_mass : list R)
    (ref_g_type : list Z) (g_mass : list R) (g_type : list Z) :
  (12 * N <= length g_mass)%nat ->
  (12 * N <= length g_type)%nat ->
  let filled :=
    copy_mass_and_type_to_cavity (ceil_blocks N 128) N ref_g_mass ref_g_type g_mass g_type in
  length (fst filled) = length g_mass
  /\ length (snd filled) = length g_type
  /\ (forall idx, (idx < 12 * N)%nat ->
        fst filled !!! idx = ref_g_mass !!! (idx mod N)%nat
        /\ snd filled !!! idx = ref_g_type !!! (idx mod N)%nat)
  /\ (forall idx, (12 * N <= idx)%nat ->
        fst filled !!! idx = g_mass !!! idx /\ snd filled !!! idx = g_type !!! idx).
Proof.
  intros Hm Ht. cbv zeta. rewrite copy_mass_and_type_to_cavity_unfold. cbn [fst snd].
  rewrite !stores_length. split; [reflexivity|]. split; [reflexivity|]. split.
  - intros idx Hidx.
    assert (Hin : idx ∈ strided_cells N 12 N).
    { apply elem_of_strided_cells; [lia|]. split; [lia|].
      apply Nat.mod_upper_bound. lia. }
    rewrite !stores_lookup by lia.
    destruct (decide _); [|contradiction]. split; reflexivity.
  - intros idx Hidx.
    assert (Hnin : idx ∉ strided_cells N 12 N).
    { intros Hin. apply elem_of_strided_cells in Hin as [Hlt _]; lia. }
    rewrite !stores_lookup_other by assumption. split; reflexivity.
Qed.

End KernelStores.

(** * The dipole of the atoms given *)

Section OscillatorStart.
Context `{Collaborators}.
Local Open Scope R_scope.

(** Stores of [F i] to every cell [i] of a vector. *)
Lemma stores_all (F : nat -> R) (v w : list R) :
  length v = length w ->
  (forall i, (i < length w)%nat -> F i = w !!! i) ->
  foldl (fun v i => <[i := F i]> v) v (seq 0 (length w)) = w.
Proof.
  intros Hlen Hcells. apply vector_eq.
  - now rewrite stores_length.
  - intros i Hi. rewrite stores_length in Hi.
    rewrite stores_lookup by assumption.
    destruct (decide _) as [_|Hn]; [apply Hcells; lia|].
    exfalso. apply Hn, elem_of_seq. lia.
Qed.

Lemma three_cells_eq (v : list R) (x0 x1 x2 : R) :
  length v = 3%nat ->
  v !!! 0%nat = x0 -> v !!! 1%nat = x1 -> v !!! 2%nat = x2 ->
  v = [x0; x1; x2].
Proof.
  intros Hlen E0 E1 E2.
  destruct v as [|y0 [|y1 [|y2 [|y3 v]]]]; try discriminate.
  cbn in E0, E1, E2. now subst.
Qed.

(** [initialize] on [N] atoms that come with a type, a mass and three
    coordinates each: the private copy receives them, [mass_] grows by
    the sum of the masses, and the dipole is the one of these atoms,
    with the new [mass_] as the divisor of the center of mass. *)
Lemma initialize_evaluation (box : Box) (atom : Atom.t) (force : Force.t) (c : Cavity)
    (log : list R) :
  enabled_ c = true ->
  length (Force.potentials force) = 2%nat ->
  nep_model_type (Force.potentials force !!! 1%nat) = 1%Z ->
  let N := number_of_atoms_ c in
  length (Atom.cpu_type atom) = N ->
  length (Atom.cpu_mass atom) = N ->
  length (Atom.position_per_atom atom) = (3 * N)%nat ->
  let M := mass_ c + sequential_sum (Atom.cpu_mass atom) in
  let mu := reported_dipole box N (Atom.cpu_type atom) (Atom.cpu_mass atom) (charge c) M
              (Atom.position_per_atom atom) in
  exists c',
    initialize box atom force c log
    = Done c' (log ++ [M; M; M; M; M; M; M; 0.001; 12.0; 3.0] ++ [cavity_frequency c])
    /\ cpu_dipole_ c' = [mu 0%nat; mu 1%nat; mu 2%nat]
    /\ q0 c' = coupling_strength c * mu 2%nat / cavity_frequency c
    /\ cos_integral c' = 0 /\ sin_integral c' = 0 /\ prevtime c' = 0
    /\ prevdipole c' = [mu 0%nat; mu 1%nat; mu 2%nat]
    /\ enabled_ c' = true /\ number_of_atoms_ c' = N
    /\ coupling_strength c' = coupling_strength c
    /\ cavity_frequency c' = cavity_frequency c
    /\ charge c' = charge c
    /\ mass_ c' = M
    /\ masses_ c' = Atom.cpu_mass atom
    /\ Atom.type (atom_copy c') = Atom.cpu_type atom
    /\ Atom.mass (atom_copy c') = Atom.cpu_mass atom
    /\ Atom.position_per_atom (atom_copy c') = Atom.position_per_atom atom
    /\ (Atom.potential_per_atom (atom_copy c'), Atom.force_per_atom (atom_copy c'),
        Atom.virial_per_atom (atom_copy c'))
       = compute box (Atom.cpu_type atom) (Atom.position_per_atom atom)
           (replicate N 0, replicate (N * 3) 0, replicate (N * 9) 0)
    /\ length (gpu_dipole_ c') = 3%nat
    /\ length (cpu_cavity_force_ c') = (3 * N)%nat
    /\ length (gpu_cavity_force_ c') = (3 * N)%nat
    /\ cpu_dipole_jacobian_ c' = replicate (9 * N) 1.0
    /\ length (gpu_dipole_jacobian_ c') = (9 * N)%nat.
Proof.
  intros Hen Hpot Hnep N Htypes Hmasses Hpositions M mu.
  destruct (initialize_done box atom force c log Hen Hpot Hnep)
    as (c' & Erun & Hq0 & Hcos & Hsin & Ht & Hprev & Hlen & Hd & Hen' & HN & Hl & Hw & Hch
        & HM & Em & Hcf & Hgf & Hjac & Hg & Hpl & Ety & Ep & Ec & Ems & Hgj).
  cbv zeta in Erun, Hd, HN, HM, Em, Hcf, Hgf, Hjac, Hpl, Ety, Ep, Ec, Ems, Hgj.
  fold N in Erun, Hd, HN, HM, Em, Hcf, Hgf, Hjac, Hpl, Ety, Ep, Ec, Ems, Hgj.
  assert (EM : mass_ c + sum_upto N (fun i => Atom.cpu_mass atom !!! i) = M).
  { unfold M. now rewrite <- Hmasses, sum_upto_lookup. }
  rewrite EM in Erun, Hd, HM.
  assert (Etype : Atom.type (atom_copy c') = Atom.cpu_type atom).
  { rewrite Ety. apply copy_into_same_length. now rewrite length_resize. }
  assert (Emass : Atom.mass (atom_copy c') = Atom.cpu_mass atom).
  { rewrite Em. apply copy_into_same_length. now rewrite length_resize. }
  assert (Epos : Atom.position_per_atom (atom_copy c') = Atom.position_per_atom atom).
  { destruct (copy_positions_spec N (Atom.position_per_atom atom)
                (resize 0 (N * 3) (Atom.position_per_atom (atom_copy c))))
      as [Hlp Hcells]; [rewrite length_resize; lia|].
    rewrite Ep. apply vector_eq.
    - rewrite Hlp, length_resize. lia.
    - intros i Hi. apply Hcells. rewrite Hlp, length_resize in Hi. lia. }
  assert (Ecomp : (Atom.potential_per_atom (atom_copy c'), Atom.force_per_atom (atom_copy c'),
                   Atom.virial_per_atom (atom_copy c'))
                  = compute box (Atom.cpu_type atom) (Atom.position_per_atom atom)
                      (replicate N 0, replicate (N * 3) 0, replicate (N * 9) 0)).
  { rewrite Ec, Etype, Epos.
    rewrite initialize_properties_closed_form by (rewrite length_resize; lia).
    rewrite !drop_ge, !app_nil_r by (rewrite length_resize; lia).
    now rewrite (Nat.mul_comm 3), (Nat.mul_comm 9). }
  assert (Edip : cpu_dipole_ c' = [mu 0%nat; mu 1%nat; mu 2%nat]).
  { apply three_cells_eq; [exact Hlen| | |];
      (rewrite Hd by lia; unfold mu, reported_dipole; rewrite <- Ecomp, Emass, Epos;
       reflexivity). }
  exists c'. split; [exact Erun|]. split; [exact Edip|].
  split; [rewrite Hq0, Edip; reflexivity|].
  split; [exact Hcos|]. split; [exact Hsin|]. split; [exact Ht|].
  split; [now rewrite Hprev|].
  split; [exact Hen'|]. split; [exact HN|]. split; [exact Hl|]. split; [exact Hw|].
  split; [exact Hch|]. split; [exact HM|].
  split; [rewrite Ems, <- Hmasses; apply stores_all;
          [now rewrite length_resize|reflexivity]|].
  split; [exact Etype|]. split; [exact Emass|]. split; [exact Epos|].
  split; [exact Ecomp|]. split; [exact Hg|].
  split; [rewrite Hcf; lia|]. split; [rewrite Hgf; lia|].
  split; [exact Hjac|]. rewrite Hgj. lia.
Qed.

(** C7. [initialize] first evaluates the dipole [mu] of the atoms it is
    given (ten divisions, seven of them by the total mass), then divides
    by the frequency and sets [q0 = l * mu_z / w] with the coupling
    strength [l] and the frequency [w] of the object, both integrals and
    [prevtime] to zero, and [prevdipole] to [mu]. *)
Theorem initialize_sets_oscillator (box : Box) (atom : Atom.t) (force : Force.t)
    (c : Cavity) (log : list R) :
  enabled_ c = true ->
  length (Force.potentials force) = 2%nat ->
  nep_model_type (Force.potentials force !!! 1%nat) = 1%Z ->
  let N := number_of_atoms_ c in
  length (Atom.cpu_type atom) = N ->
  length (Atom.cpu_mass atom) = N ->
  length (Atom.position_per_atom atom) = (3 * N)%nat ->
  let M := mass_ c + sequential_sum (Atom.cpu_mass atom) in
  let mu := reported_dipole box N (Atom.cpu_type atom) (Atom.cpu_mass atom) (charge c) M
              (Atom.position_per_atom atom) in
  exists c',
    initialize box atom force c log
    = Done c' (log ++ [M; M; M; M; M; M; M; 0.001; 12.0; 3.0] ++ [cavity_frequency c])
    /\ cpu_dipole_ c' = [mu 0%nat; mu 1%nat; mu 2%nat]
    /\ q0 c' = coupling_strength c * mu 2%nat / cavity_frequency c
    /\ cos_integral c' = 0
    /\ sin_integral c' = 0
    /\ prevtime c' = 0
    /\ prevdipole c' = [mu 0%nat; mu 1%nat; mu 2%nat]
    /\ coupling_strength c' = coupling_strength c
    /\ cavity_frequency c' = cavity_frequency c
    /\ charge c' = charge c.
Proof.
  intros Hen Hpot Hnep N Htypes Hmasses Hpositions M mu.
  destruct (initialize_evaluation box atom force c log Hen Hpot Hnep Htypes Hmasses
              Hpositions)
    as (c' & Erun & Ed & Hq0 & Hcos & Hsin & Ht & Hprev & _ & _ & Hl & Hw & Hch & _).
  exists c'. repeat (split; [assumption|]). exact Hch.
Qed.

(** X7. After [initialize] on [N] atoms with one mass each the object
    still counts [N] atoms and its buffers have the sizes the other
    members rely on: three cells for the dipoles, [3 N] for the cavity
    force, [9 N] for the Jacobian, [3 N] coordinates in the private copy;
    the private copy and [masses_] hold the [N] masses given, and
    [mass_] has grown by their sum. *)
Theorem initialize_allocates (box : Box) (atom : Atom.t) (force : Force.t) (c : Cavity)
    (log : list R) :
  enabled_ c = true ->
  length (Force.potentials force) = 2%nat ->
  nep_model_type (Force.potentials force !!! 1%nat) = 1%Z ->
  let N := number_of_atoms_ c in
  length (Atom.cpu_mass atom) = N ->
  exists c' log',
    initialize box atom force c log = Done c' log'
    /\ enabled_ c' = true
    /\ number_of_atoms_ c' = N
    /\ length (cpu_dipole_ c') = 3%nat
    /\ length (gpu_dipole_ c') = 3%nat
    /\ length (prevdipole c') = 3%nat
    /\ length (cpu_cavity_force_ c') = (3 * N)%nat
    /\ length (gpu_cavity_force_ c') = (3 * N)%nat
    /\ length (cpu_dipole_jacobian_ c') = (9 * N)%nat
    /\ length (gpu_dipole_jacobian_ c') = (9 * N)%nat
    /\ length (Atom.position_per_atom (atom_copy c')) = (3 * N)%nat
    /\ Atom.mass (atom_copy c') = Atom.cpu_mass atom
    /\ masses_ c' = Atom.cpu_mass atom
    /\ mass_ c' = mass_ c + sequential_sum (Atom.cpu_mass atom).
Proof.
  intros Hen Hpot Hnep N Hmasses.
  destruct (initialize_done box atom force c log Hen Hpot Hnep)
    as (c' & Erun & _ & _ & _ & _ & Hprev & Hl & _ & Hen' & HN & _ & _ & _ & HM & Em
        & Hcf & Hgf & Hjac & Hg & Hpl & _ & _ & _ & Ems & Hgj).
  cbv zeta in Erun, HN, HM, Em, Hcf, Hgf, Hjac, Hpl, Ems, Hgj.
  fold N in Erun, HN, HM, Em, Hcf, Hgf, Hjac, Hpl, Ems, Hgj.
  exists c'. eexists. split; [exact Erun|].
  split; [exact Hen'|]. split; [exact HN|]. split; [exact Hl|]. split; [exact Hg|].
  split; [now rewrite Hprev|].
  split; [rewrite Hcf; lia|]. split; [rewrite Hgf; lia|].
  split; [now rewrite Hjac, length_replicate|]. split; [rewrite Hgj; lia|].
  split; [rewrite Hpl; lia|].
  split; [rewrite Em; apply copy_into_same_length; now rewrite length_resize|].
  split; [rewrite Ems, <- Hmasses; apply stores_all;
          [now rewrite length_resize|reflexivity]|].
  now rewrite HM, <- Hmasses, sum_upto_lookup.
Qed.

(** The dipole after [compute_dipole_and_jacobian] on an object whose
    buffers have the sizes [initialize] gives them: the dipole of the
    coordinates of [atom], computed with the types and masses of the
    private copy and with [mass_], whatever it holds, as the divisor of
    the center of mass. *)
Lemma compute_dipole_and_jacobian_reports (step : Z) (box : Box) (atom : Atom.t)
    (force : Force.t) (c : Cavity) (log : list R) :
  enabled_ c = true ->
  length (cpu_dipole_ c) = 3%nat ->
  length (gpu_dipole_ c) = 3%nat ->
  let N := number_of_atoms_ c in
  length (Atom.position_per_atom (atom_copy c)) = (3 * N)%nat ->
  length (Atom.force_per_atom (atom_copy c)) = (3 * N)%nat ->
  length (Atom.potential_per_atom (atom_copy c)) = N ->
  length (Atom.virial_per_atom (atom_copy c)) = (9 * N)%nat ->
  length (Atom.position_per_atom atom) = (3 * N)%nat ->
  let M := mass_ c in
  let mu := reported_dipole box N (Atom.type (atom_copy c)) (Atom.mass (atom_copy c))
              (charge c) M (Atom.position_per_atom atom) in
  exists c',
    compute_dipole_and_jacobian step box atom force c log
    = Done c' (log ++ [M; M; M; M; M; M; M; 0.001; 12.0; 3.0])
    /\ cpu_dipole_ c' = [mu 0%nat; mu 1%nat; mu 2%nat]
    /\ Atom.mass (atom_copy c') = Atom.mass (atom_copy c)
    /\ Atom.position_per_atom (atom_copy c') = Atom.position_per_atom atom
    /\ mass_ c' = M
    /\ charge c' = charge c.
Proof.
  intros Hen Hcpu Hgpu N Hpos Hf Hpe Hvirial Hpositions M mu.
  destruct (compute_dipole_and_jacobian_spec step box atom force c log Hen Hcpu Hgpu)
    as (c' & Erun & Ef & _ & Ep & Em & Ec & Hl & Hd & _ & _ & _).
  cbv zeta in Erun, Ep, Ec, Hd. fold N in Erun, Ep, Ec, Hd. fold M in Erun, Hd.
  assert (Epos : Atom.position_per_atom (atom_copy c') = Atom.position_per_atom atom).
  { destruct (copy_positions_spec N (Atom.position_per_atom atom)
                (Atom.position_per_atom (atom_copy c))) as [Hlp Hcells]; [lia|].
    rewrite Ep. apply vector_eq.
    - rewrite Hlp. lia.
    - intros i Hi. apply Hcells. rewrite Hlp in Hi. lia. }
  assert (Ecomp : (Atom.potential_per_atom (atom_copy c'), Atom.force_per_atom (atom_copy c'),
                   Atom.virial_per_atom (atom_copy c'))
                  = compute box (Atom.type (atom_copy c)) (Atom.position_per_atom atom)
                      (replicate N 0, replicate (N * 3) 0, replicate (N * 9) 0)).
  { rewrite Ec, Epos. unfold zeroed_properties. fold N.
    rewrite initialize_properties_closed_form by lia.
    rewrite !drop_ge, !app_nil_r by lia.
    now rewrite (Nat.mul_comm 3), (Nat.mul_comm 9). }
  exists c'. split; [exact Erun|].
  split; [|split; [exact Em|split; [exact Epos|split]]].
  - apply three_cells_eq; [exact Hl| | |];
      (rewrite Hd by lia; unfold mu, reported_dipole; rewrite <- Ecomp, Em, Epos;
       reflexivity).
  - rewrite Ef. now destruct c.
  - rewrite Ef. now destruct c.
Qed.

End OscillatorStart.

(** * The batched system of the Jacobian *)

Section ReplicaTags.
Context `{Collaborators}.
Local Open Scope R_scope.

Lemma foldl_snd {S1 S2 X : Type} (f : S1 * S2 -> X -> S1 * S2) (g : S2 -> X -> S2)
    (l : list X) (s : S1 * S2) :
  (forall s x, snd (f s x) = g (snd s) x) -> snd (foldl f s l) = foldl g (snd s) l.
Proof.
  intros Hfg. revert s. induction l as [|x l IH]; intros s; cbn [foldl]; [reflexivity|].
  now rewrite IH, Hfg.
Qed.

Lemma div_block (c N l : nat) : (l < N)%nat -> ((c * N + l) / N = c)%nat.
Proof. intros Hl. symmetry. apply (Nat.div_unique _ _ _ l); lia. Qed.

Lemma elem_of_tagged_cells (N x : nat) :
  x ∈ tagged_cells N <-> (x < 12 * N * N)%nat.
Proof.
  unfold tagged_cells. split.
  - intros (i & Hx & Hi)%list_elem_of_bind.
    apply list_elem_of_bind in Hx as (j & Hx & Hj).
    apply list_elem_of_bind in Hx as (k & Hx & Hk).
    apply list_elem_of_fmap in Hx as (l & -> & Hl).
    apply elem_of_seq in Hi, Hj, Hk, Hl.
    assert (4 * N * i + j * 4 + k <= 12 * N - 1)%nat by nia. nia.
  - intros Hx.
    assert (HN : (N <> 0)%nat) by lia.
    set (c := (x / N)%nat).
    assert (Hc : (c < 12 * N)%nat) by (apply Nat.Div0.div_lt_upper_bound; lia).
    pose proof (Nat.div_mod_eq x N) as Ex. fold c in Ex.
    pose proof (Nat.mod_upper_bound x N HN) as Hl.
    pose proof (Nat.div_mod_eq c (4 * N)) as Ec.
    pose proof (Nat.mod_upper_bound c (4 * N) ltac:(lia)) as Hr.
    pose proof (Nat.div_mod_eq (c mod (4 * N)) 4) as Er.
    pose proof (Nat.mod_upper_bound (c mod (4 * N)) 4 ltac:(lia)) as Hk.
    apply list_elem_of_bind. exists (c / (4 * N))%nat. split.
    2:{ apply elem_of_seq. split; [lia|]. rewrite Nat.add_0_l.
        apply Nat.Div0.div_lt_upper_bound. lia. }
    apply list_elem_of_bind. exists (c mod (4 * N) / 4)%nat. split.
    2:{ apply elem_of_seq. split; [lia|]. rewrite Nat.add_0_l.
        apply Nat.Div0.div_lt_upper_bound. lia. }
    apply list_elem_of_bind. exists (c mod (4 * N) mod 4)%nat. split.
    2:{ apply elem_of_seq. lia. }
    apply list_elem_of_fmap. exists (x mod N)%nat. split.
    2:{ apply elem_of_seq. lia. }
    nia.
Qed.

(** The tags step 1 writes, as stores of [cell / N] to [tagged_cells]. *)
Lemma setup_replicas_tags (N : nat) (reference : list R) (displacement : R)
    (bufs : list R * list nat) :
  snd (setup_replicas N reference displacement bufs)
  = foldl (fun idx x => <[x := (x / N)%nat]> idx) (snd bufs) (tagged_cells N).
Proof.
  unfold setup_replicas, tagged_cells.
  rewrite foldl_bind_list.
  rewrite (foldl_snd _ (fun idx i =>
             foldl (fun idx x => <[x := (x / N)%nat]> idx) idx
                   (j ← seq 0 N; k ← seq 0 4;
                    (fun l => (4 * N * i + j * 4 + k) * N + l)%nat <$> seq 0 N)));
    [reflexivity|].
  intros s i. rewrite foldl_bind_list.
  rewrite (foldl_snd _ (fun idx j =>
             foldl (fun idx x => <[x := (x / N)%nat]> idx) idx
                   (k ← seq 0 4;
                    (fun l => (4 * N * i + j * 4 + k) * N + l)%nat <$> seq 0 N)));
    [reflexivity|].
  intros s' j. rewrite foldl_bind_list.
  rewrite (foldl_snd _ (fun idx k =>
             foldl (fun idx x => <[x := (x / N)%nat]> idx) idx
                   ((fun l => (4 * N * i + j * 4 + k) * N + l)%nat <$> seq 0 N)));
    [reflexivity|].
  intros [pos idx] k. unfold place_replica. cbn [snd].
  rewrite foldl_fmap_list. apply foldl_ext_in.
  intros idx' l Hl. apply elem_of_seq in Hl.
  f_equal. symmetry. apply div_block. lia.
Qed.

(** Step 1 tags the [N] atom slots of every copy [copy_index < 12 N]
    with [copy_index] and writes no tag behind the [12 N] copies. *)
Lemma setup_replicas_tagged (N : nat) (reference : list R) (displacement : R)
    (cpu_position_per_atom : list R) (cpu_system_index : list nat) :
  (12 * N * N <= length cpu_system_index)%nat ->
  let tags :=
    snd (setup_replicas N reference displacement (cpu_position_per_atom, cpu_system_index)) in
  length tags = length cpu_system_index
  /\ (forall copy_index l, (copy_index < 12 * N)%nat -> (l < N)%nat ->
        tags !!! (copy_index * N + l)%nat = copy_index)
  /\ (forall x, (12 * N * N <= x)%nat -> tags !!! x = cpu_system_index !!! x).
Proof.
  intros Hlen. cbv zeta. rewrite setup_replicas_tags. cbn [snd].
  split; [apply (stores_length (fun x => (x / N)%nat))|]. split.
  - intros c l Hc Hl.
    assert (Hx : (c * N + l < 12 * N * N)%nat) by nia.
    rewrite (stores_lookup (fun x => (x / N)%nat)) by lia.
    destruct (decide _) as [_|Hnin]; [|now apply elem_of_tagged_cells in Hx].
    now apply div_block.
  - intros x Hx. apply (stores_lookup_other (fun x => (x / N)%nat)).
    intros Hin. apply elem_of_tagged_cells in Hin. lia.
Qed.

End ReplicaTags.

Section BatchedEvaluation.
Context `{Collaborators}.
Local Open Scope R_scope.

(** The batched system after [get_dipole_jacobian]: the replicas and
    tags of step 1 on host and device, and what the evaluator of step 2
    returns for them on the property buffers [initialize_properties]
    leaves. *)
Lemma get_dipole_jacobian_batch (box : Box) (force : Force.t) (displacement ch : R)
    (c : Cavity) (log : list R) :
  let N := number_of_atoms_ c in
  let NN := Z.to_nat (number_of_atoms_in_copied_system_ c) in
  let av := atom_cavity c in
  let reference := copy_into (Atom.position_per_atom (atom_copy c))
                             (Atom.cpu_position_per_atom (atom_copy c)) in
  let replicas := setup_replicas N reference displacement
                    (AtomCavity.cpu_position_per_atom av, AtomCavity.cpu_system_index av) in
  exists c' log',
    get_dipole_jacobian box force displacement ch c log = Done c' log'
    /\ AtomCavity.cpu_position_per_atom (atom_cavity c') = fst replicas
    /\ AtomCavity.cpu_system_index (atom_cavity c') = snd replicas
    /\ AtomCavity.position_per_atom (atom_cavity c')
       = copy_into (fst replicas) (AtomCavity.position_per_atom av)
    /\ AtomCavity.system_index (atom_cavity c')
       = copy_into (snd replicas) (AtomCavity.system_index av)
    /\ AtomCavity.type (atom_cavity c') = AtomCavity.type av
    /\ AtomCavity.mass (atom_cavity c') = AtomCavity.mass av
    /\ (AtomCavity.potential_per_atom (atom_cavity c'),
        AtomCavity.force_per_atom (atom_cavity c'),
        AtomCavity.virial_per_atom (atom_cavity c'))
       = compute_jacobian box (AtomCavity.type av)
           (AtomCavity.position_per_atom (atom_cavity c'))
           (let '(g_f, g_pe, g_virial) :=
              initialize_properties (ceil_blocks NN 128) NN
                (AtomCavity.force_per_atom av) (AtomCavity.potential_per_atom av)
                (AtomCavity.virial_per_atom av) in
            (g_pe, g_f, g_virial))
           (AtomCavity.system_index (atom_cavity c')).
Proof.
  cbv zeta. unfold get_dipole_jacobian, _get_center_of_mass.
  unfold bind at 1. rewrite get_center_of_mass_sequential_eq.
  destruct c as [en n ncs nn pot potj cs cf ch' m ms ac av cd gd cj gj ccf gcf pd
                 q0' ci si pt q' p' cp ck].
  destruct ac as [a1 a2 a3 a4 a5 a6 a7 a8 a9 a10].
  destruct av as [v1 v2 v3 v4 v5 v6 v7 v8 v9 v10 v11 v12].
  unfold bind, fdiv, ret. fields.
  destruct (setup_replicas _ _ _ _) as [pos idx] eqn:Esetup. fields.
  destruct (initialize_properties _ _ _ _ _) as [[g_f g_pe] g_virial] eqn:Einit.
  destruct (compute_jacobian _ _ _ _ _) as [[g_pe' g_f'] g_virial'] eqn:Ecomp. fields.
  destruct (collect_jacobian _ _ _ _) as [[[[f1 f2] b1] b2] jac] eqn:Ecollect.
  eexists. eexists. split; [reflexivity|]. fields.
  repeat split. symmetry. exact Ecomp.
Qed.

(** X12. The batched evaluator of step 2 is called on property buffers
    that are all zero, with the tags of step 1: in the device buffer it
    is given, the [N] atom slots of copy [copy_index] carry
    [copy_index], for each of the [12 N] copies. *)
Theorem batched_evaluation_is_tagged (box : Box) (force : Force.t) (displacement ch : R)
    (c : Cavity) (log : list R) :
  let N := number_of_atoms_ c in
  let NN := Z.to_nat (number_of_atoms_in_copied_system_ c) in
  let av := atom_cavity c in
  NN = (12 * N * N)%nat ->
  length (AtomCavity.cpu_system_index av) = NN ->
  length (AtomCavity.system_index av) = NN ->
  length (AtomCavity.potential_per_atom av) = NN ->
  length (AtomCavity.force_per_atom av) = (NN * 3)%nat ->
  length (AtomCavity.virial_per_atom av) = (NN * 9)%nat ->
  exists c' log',
    get_dipole_jacobian box force displacement ch c log = Done c' log'
    /\ length (AtomCavity.system_index (atom_cavity c')) = NN
    /\ (forall copy_index l, (copy_index < 12 * N)%nat -> (l < N)%nat ->
          AtomCavity.system_index (atom_cavity c') !!! (copy_index * N + l)%nat
          = copy_index)
    /\ (AtomCavity.potential_per_atom (atom_cavity c'),
        AtomCavity.force_per_atom (atom_cavity c'),
        AtomCavity.virial_per_atom (atom_cavity c'))
       = compute_jacobian box (AtomCavity.type av)
           (AtomCavity.position_per_atom (atom_cavity c'))
           (replicate NN 0, replicate (NN * 3) 0, replicate (NN * 9) 0)
           (AtomCavity.system_index (atom_cavity c')).
Proof.
  cbv zeta. intros HNN Hcpu Hgpu Hpe Hf Hvirial.
  destruct (get_dipole_jacobian_batch box force displacement ch c log)
    as (c' & log' & Erun & _ & _ & _ & Etags & _ & _ & Ecomp).
  cbv zeta in Etags, Ecomp.
  assert (Hroom : (12 * number_of_atoms_ c * number_of_atoms_ c
                   <= length (AtomCavity.cpu_system_index (atom_cavity c)))%nat)
    by (rewrite Hcpu, HNN; reflexivity).
  destruct (setup_replicas_tagged (number_of_atoms_ c)
              (copy_into (Atom.position_per_atom (atom_copy c))
                         (Atom.cpu_position_per_atom (atom_copy c)))
              displacement (AtomCavity.cpu_position_per_atom (atom_cavity c))
              (AtomCavity.cpu_system_index (atom_cavity c)) Hroom)
    as (Hlen & Htag & _).
  cbv zeta in Hlen, Htag.
  rewrite copy_into_same_length in Etags by congruence.
  rewrite initialize_properties_closed_form in Ecomp by lia.
  rewrite !drop_ge, !app_nil_r in Ecomp by lia.
  exists c', log'. split; [exact Erun|]. split; [|split].
  - rewrite Etags. congruence.
  - intros copy_index l Hc Hl. rewrite Etags. now apply Htag.
  - rewrite Ecomp, (Nat.mul_comm 3), (Nat.mul_comm 9). reflexivity.
Qed.

End BatchedEvaluation.

Section ReplicaExtent.
Context `{Collaborators}.
Local Open Scope R_scope.

Lemma foldl_invariant {S X : Type} (P : S -> Prop) (f : S -> X -> S) (l : list X) (s : S) :
  (forall s x, x ∈ l -> P s -> P (f s x)) -> P s -> P (foldl f s l).
Proof.
  revert s. induction l as [|x l IH]; intros s Hstep Hs; cbn [foldl]; [exact Hs|].
  apply IH.
  - intros s' y Hy. apply Hstep. now right.
  - apply Hstep; [now left|exact Hs].
Qed.

(** Stores to cells other than [x] keep the length and the cell [x]. *)
Lemma stores_frame {A} `{Inhabited A} (g : nat -> nat) (h : nat -> A) (ls : list nat)
    (v : list A) (x : nat) :
  (forall l, l ∈ ls -> g l <> x) ->
  length (foldl (fun v l => <[g l := h l]> v) v ls) = length v
  /\ foldl (fun v l => <[g l := h l]> v) v ls !!! x = v !!! x.
Proof.
  intros Hother.
  apply (foldl_invariant (fun w => length w = length v /\ w !!! x = v !!! x)).
  - intros w l Hl [Hlen Hx]. rewrite length_insert. split; [exact Hlen|].
    rewrite list_lookup_total_insert_ne by now apply Hother. exact Hx.
  - split; reflexivity.
Qed.

Lemma place_replica_extent (N : nat) (reference shifts : list R) (i j k : nat)
    (bufs : list R * list nat) (x : nat) :
  (i < 3)%nat -> (j < N)%nat -> (k < 4)%nat ->
  (12 * N * N + 2 * N <= x)%nat ->
  length (fst (place_replica N reference shifts i j k bufs)) = length (fst bufs)
  /\ fst (place_replica N reference shifts i j k bufs) !!! x = fst bufs !!! x.
Proof.
  intros Hi Hj Hk Hx. destruct bufs as [pos idx]. unfold place_replica. cbn [fst].
  assert (Hc : (4 * N * i + j * 4 + k <= 12 * N - 1)%nat) by nia.
  destruct (stores_frame (fun l => ((4 * N * i + j * 4 + k) * N + l)%nat)
              (fun l => reference !!! l) (seq 0 (3 * N)) pos x) as [Hlen Hcell].
  { intros l Hl. apply elem_of_seq in Hl. nia. }
  rewrite length_insert, list_lookup_total_insert_ne by nia.
  split; assumption.
Qed.

(** X13. Step 1 of [get_dipole_jacobian] writes the first [12 N N + 2 N]
    cells of the host buffer of replica coordinates, at most: every
    cell from there on, in a buffer of [36 N N] cells, keeps what it
    held. *)
Theorem replicas_leave_most_of_the_buffer (box : Box) (force : Force.t)
    (displacement ch : R) (c : Cavity) (log : list R) :
  let N := number_of_atoms_ c in
  exists c' log',
    get_dipole_jacobian box force displacement ch c log = Done c' log'
    /\ length (AtomCavity.cpu_position_per_atom (atom_cavity c'))
       = length (AtomCavity.cpu_position_per_atom (atom_cavity c))
    /\ forall x, (12 * N * N + 2 * N <= x)%nat ->
         AtomCavity.cpu_position_per_atom (atom_cavity c') !!! x
         = AtomCavity.cpu_position_per_atom (atom_cavity c) !!! x.
Proof.
  cbv zeta.
  destruct (get_dipole_jacobian_batch box force displacement ch c log)
    as (c' & log' & Erun & Epos & _).
  cbv zeta in Epos. exists c', log'. split; [exact Erun|]. rewrite Epos.
  set (N := number_of_atoms_ c). unfold setup_replicas.
  assert (Hall : forall x, (12 * N * N + 2 * N <= x)%nat ->
            forall bufs,
              length (fst (foldl (fun bufs i =>
                       foldl (fun bufs j =>
                         foldl (fun bufs k =>
                                  place_replica N
                                    (copy_into (Atom.position_per_atom (atom_copy c))
                                       (Atom.cpu_position_per_atom (atom_copy c)))
                                    (shifts displacement) i j k bufs)
                               bufs (seq 0 4))
                         bufs (seq 0 N))
                       bufs (seq 0 3)))
              = length (fst bufs)
              /\ fst (foldl (fun bufs i =>
                       foldl (fun bufs j =>
                         foldl (fun bufs k =>
                                  place_replica N
                                    (copy_into (Atom.position_per_atom (atom_copy c))
                                       (Atom.cpu_position_per_atom (atom_copy c)))
                                    (shifts displacement) i j k bufs)
                               bufs (seq 0 4))
                         bufs (seq 0 N))
                       bufs (seq 0 3)) !!! x
                 = fst bufs !!! x).
  { intros x Hx bufs.
    apply (foldl_invariant
             (fun s => length (fst s) = length (fst bufs) /\ fst s !!! x = fst bufs !!! x));
      [|split; reflexivity].
    intros s i Hi%elem_of_seq Hs.
    apply (foldl_invariant
             (fun s => length (fst s) = length (fst bufs) /\ fst s !!! x = fst bufs !!! x));
      [|exact Hs].
    intros s' j Hj%elem_of_seq Hs'.
    apply (foldl_invariant
             (fun s => length (fst s) = length (fst bufs) /\ fst s !!! x = fst bufs !!! x));
      [|exact Hs'].
    intros s'' k Hk%elem_of_seq [Hlen Hcell].
    destruct (place_replica_extent N
                (copy_into (Atom.position_per_atom (atom_copy c))
                   (Atom.cpu_position_per_atom (atom_copy c)))
                (shifts displacement) i j k s'' x) as [Hlen' Hcell']; try lia.
    split; congruence. }
  split.
  - apply (Hall (12 * N * N + 2 * N)%nat (le_n _)).
  - intros x Hx. now apply Hall.
Qed.

End ReplicaExtent.

Section DisplacementReach.
Context `{Collaborators}.
Local Open Scope R_scope.

Lemma foldl_invariant2 {S S' X : Type} (P : S -> S' -> Prop) (f : S -> X -> S)
    (f' : S' -> X -> S') (l : list X) (s : S) (s' : S') :
  (forall s s' x, x ∈ l -> P s s' -> P (f s x) (f' s' x)) ->
  P s s' -> P (foldl f s l) (foldl f' s' l).
Proof.
  revert s s'. induction l as [|x l IH]; intros s s' Hstep Hs; cbn [foldl]; [exact Hs|].
  apply IH.
  - intros t t' y Hy. apply Hstep. now right.
  - apply Hstep; [now left|exact Hs].
Qed.

Lemma agree_from_insert (from cell : nat) (x : R) (v w : list R) :
  agree_from from v w -> agree_from from (<[cell := x]> v) (<[cell := x]> w).
Proof.
  intros [Hlen Hcells]. split; [now rewrite !length_insert|].
  intros y Hy. rewrite !list_lookup_total_insert, Hlen.
  destruct (decide _); [reflexivity|now apply Hcells].
Qed.

Lemma agree_from_below (from cell : nat) (x x' : R) (v w : list R) :
  (cell < from)%nat ->
  agree_from from v w -> agree_from from (<[cell := x]> v) (<[cell := x']> w).
Proof.
  intros Hlt [Hlen Hcells]. split; [now rewrite !length_insert|].
  intros y Hy. rewrite !list_lookup_total_insert_ne by lia. now apply Hcells.
Qed.

Lemma place_replica_reach (N : nat) (reference shifts shifts' : list R) (i j k : nat)
    (bufs bufs' : list R * list nat) :
  (i < 3)%nat -> (j < N)%nat -> (k < 4)%nat ->
  agree_from (15 * N - 1) (fst bufs) (fst bufs') ->
  agree_from (15 * N - 1) (fst (place_replica N reference shifts i j k bufs))
                          (fst (place_replica N reference shifts' i j k bufs')).
Proof.
  intros Hi Hj Hk Hagree. destruct bufs as [pos idx], bufs' as [pos' idx'].
  unfold place_replica. cbn [fst] in *.
  apply agree_from_below; [nia|].
  apply (foldl_invariant2 (agree_from (15 * N - 1))); [|exact Hagree].
  intros v w l _ Hvw. now apply agree_from_insert.
Qed.

(** X22. Whatever the displacement, step 1 of [get_dipole_jacobian]
    leaves the same coordinates in every cell from [15 N - 1] on of the
    host replica buffer: the shifts it adds at [copy_index +
    displaced_index] reach the first [15 N - 1] cells only. *)
Theorem displacement_reaches_the_first_cells_only (box : Box) (force : Force.t)
    (displacement displacement' ch : R) (c : Cavity) (log : list R) :
  let N := number_of_atoms_ c in
  exists c1 c2 log1 log2,
    get_dipole_jacobian box force displacement ch c log = Done c1 log1
    /\ get_dipole_jacobian box force displacement' ch c log = Done c2 log2
    /\ forall x, (15 * N - 1 <= x)%nat ->
         AtomCavity.cpu_position_per_atom (atom_cavity c1) !!! x
         = AtomCavity.cpu_position_per_atom (atom_cavity c2) !!! x.
Proof.
  cbv zeta.
  destruct (get_dipole_jacobian_batch box force displacement ch c log)
    as (c1 & log1 & Erun1 & Epos1 & _).
  destruct (get_dipole_jacobian_batch box force displacement' ch c log)
    as (c2 & log2 & Erun2 & Epos2 & _).
  cbv zeta in Epos1, Epos2.
  exists c1, c2, log1, log2. split; [exact Erun1|]. split; [exact Erun2|].
  rewrite Epos1, Epos2. set (N := number_of_atoms_ c). unfold setup_replicas.
  apply (foldl_invariant2
           (fun s s' => agree_from (15 * N - 1) (fst s) (fst s'))); [|split; reflexivity].
  intros s s' i Hi%elem_of_seq Hs.
  apply (foldl_invariant2
           (fun s s' => agree_from (15 * N - 1) (fst s) (fst s'))); [|exact Hs].
  intros t t' j Hj%elem_of_seq Ht.
  apply (foldl_invariant2
           (fun s s' => agree_from (15 * N - 1) (fst s) (fst s'))); [|exact Ht].
  intros u u' k Hk%elem_of_seq Hu.
  apply place_replica_reach; try lia. exact Hu.
Qed.

End DisplacementReach.

(** * The dipole and the force, per step *)

Section DipolePerStep.
Context `{Collaborators}.
Local Open Scope R_scope.

Lemma three_cells (x0 x1 x2 : R) (v : list R) :
  length v = 3%nat -> <[2%nat := x2]> (<[1%nat := x1]> (<[0%nat := x0]> v)) = [x0; x1; x2].
Proof.
  intros Hlen. destruct v as [|a [|b [|d [|e v]]]]; try discriminate. reflexivity.
Qed.

(** X10. [get_dipole] runs the evaluator on the coordinates and types of
    the private copy and on property buffers that are all zero, stores
    what it returns, and leaves the three sums of the per-atom
    contributions in [gpu_dipole_] and zeros in [cpu_dipole_]: nothing
    of the previous dipole or of the previous forces and virials
    survives. *)
Theorem get_dipole_sums_a_fresh_evaluation (box : Box) (force : Force.t) (c : Cavity) :
  let N := number_of_atoms_ c in
  let ac := atom_copy c in
  length (Atom.force_per_atom ac) = (N * 3)%nat ->
  length (Atom.potential_per_atom ac) = N ->
  length (Atom.virial_per_atom ac) = (N * 9)%nat ->
  length (cpu_dipole_ c) = 3%nat ->
  length (gpu_dipole_ c) = 3%nat ->
  let c' := get_dipole box force c in
  let evaluation :=
    compute box (Atom.type ac) (Atom.position_per_atom ac)
      (replicate N 0, replicate (N * 3) 0, replicate (N * 9) 0) in
  (Atom.potential_per_atom (atom_copy c'), Atom.force_per_atom (atom_copy c'),
   Atom.virial_per_atom (atom_copy c')) = evaluation
  /\ cpu_dipole_ c' = [0.0; 0.0; 0.0]
  /\ gpu_dipole_ c' = [sum_dipole_sequential N (snd evaluation) 0;
                       sum_dipole_sequential N (snd evaluation) 1;
                       sum_dipole_sequential N (snd evaluation) 2]
  /\ Atom.position_per_atom (atom_copy c') = Atom.position_per_atom ac
  /\ Atom.mass (atom_copy c') = Atom.mass ac
  /\ Atom.type (atom_copy c') = Atom.type ac.
Proof.
  cbv zeta. intros Hf Hpe Hvirial Hcpu Hgpu.
  destruct (get_dipole_fields box force c) as (E & Hpos & Hmass & Htype & Hcomp).
  cbv zeta in E, Hpos, Hmass, Htype, Hcomp.
  unfold zeroed_properties in Hcomp.
  rewrite initialize_properties_closed_form in Hcomp by lia.
  rewrite !drop_ge, !app_nil_r, (Nat.mul_comm 3), (Nat.mul_comm 9) in Hcomp by lia.
  set (c' := get_dipole box force c) in *.
  set (zeroed := <[2%nat := 0.0]> (<[1%nat := 0.0]> (<[0%nat := 0.0]> (cpu_dipole_ c)))) in *.
  assert (Ez : zeroed = [0.0; 0.0; 0.0]) by now apply three_cells.
  assert (Ecpu : cpu_dipole_ c' = zeroed) by (rewrite E; now destruct c).
  assert (Egpu : gpu_dipole_ c'
                 = sum_dipole (number_of_atoms_ c) (ceil_blocks (number_of_atoms_ c) 1024)
                     (Atom.virial_per_atom (atom_copy c'))
                     (copy_into zeroed (gpu_dipole_ c)))
    by (rewrite E at 1; now destruct c).
  split; [exact Hcomp|]. split; [congruence|]. split; [|tauto].
  rewrite Egpu, sum_dipole_sequential_eq.
  rewrite three_cells by (rewrite length_copy_into; assumption).
  rewrite <- Hcomp. reflexivity.
Qed.

(** X11. [compute_dipole_and_jacobian] never exits, changes the private
    copies, the dipole buffers and the Jacobian buffer and nothing else
    of the object (the oscillator, the masses and the cavity force are
    as before), and divides by zero exactly when the object is enabled
    and its total mass is zero. *)
Theorem dipole_step_frame_and_divisions (step : Z) (box : Box) (atom : Atom.t)
    (force : Force.t) (c : Cavity) (log : list R) :
  exists c' divisors,
    compute_dipole_and_jacobian step box atom force c log = Done c' (log ++ divisors)
    /\ c' = c <| atom_copy := atom_copy c' |> <| atom_cavity := atom_cavity c' |>
              <| cpu_dipole_ := cpu_dipole_ c' |> <| gpu_dipole_ := gpu_dipole_ c' |>
              <| cpu_dipole_jacobian_ := cpu_dipole_jacobian_ c' |>
    /\ (enabled_ c = false -> c' = c /\ divisors = [])
    /\ (In 0 divisors <-> enabled_ c = true /\ mass_ c = 0).
Proof.
  destruct (enabled_ c) eqn:Hen.
  - destruct (compute_dipole_and_jacobian_done step box atom force c log Hen)
      as (c' & Erun & Ef & _).
    cbv zeta in Erun. exists c'. eexists. split; [exact Erun|].
    split; [exact Ef|]. split; [discriminate|].
    cbn [In app]. split.
    + intros Hin. split; [reflexivity|].
      repeat (destruct Hin as [Hin|Hin]; [first [exact Hin | exfalso; lra]|]).
      contradiction.
    + intros [_ Hzero]. now left.
  - exists c, []. unfold compute_dipole_and_jacobian. rewrite Hen. cbn [negb].
    unfold ret. rewrite app_nil_r. split; [reflexivity|].
    split; [now destruct c|]. split; [tauto|].
    cbn [In]. split; [contradiction|]. intros [Habs _]. discriminate.
Qed.

(** The cells [0 .. 3N-1] after [cavity_force]. *)
Lemma cavity_force_cells (c : Cavity) :
  length (cpu_cavity_force_ c) = (3 * number_of_atoms_ c)%nat ->
  length (cpu_cavity_force_ (cavity_force c)) = (3 * number_of_atoms_ c)%nat
  /\ forall i j, (i < 3)%nat -> (j < number_of_atoms_ c)%nat ->
       cpu_cavity_force_ (cavity_force c) !!! (j + i * number_of_atoms_ c)%nat
       = cavity_force_entry c i j.
Proof.
  intros Hlen. rewrite cavity_force_unfold.
  set (N := number_of_atoms_ c) in *.
  set (zeroed := foldl (fun v i => <[i := 0.0]> v) (cpu_cavity_force_ c) (seq 0 (3 * N))).
  assert (Hz : (3 * N <= length zeroed)%nat)
    by (unfold zeroed; rewrite length_zero_loop; lia).
  destruct (block_stores_loop N (cavity_force_entry c) zeroed N (le_n N) Hz) as [Hl Hv].
  cbv zeta in Hl, Hv.
  assert (E : cpu_cavity_force_
                (c <| cpu_cavity_force_ :=
                        foldl (fun v j => block_stores N (cavity_force_entry c) j v)
                              zeroed (seq 0 N) |>)
              = foldl (fun v j => block_stores N (cavity_force_entry c) j v) zeroed (seq 0 N))
    by now destruct c.
  rewrite E. split; [|exact Hv].
  rewrite Hl. unfold zeroed. now rewrite length_zero_loop.
Qed.

(** X14. After [compute_dipole_and_jacobian] the Jacobian buffer holds
    [1.0] in each of its [9 N] cells, so that [cavity_force] gives every
    atom the same force [(w q - l mu_z) * l * 1.0] along every axis. *)
Theorem cavity_force_is_the_same_for_all_atoms (step : Z) (box : Box) (atom : Atom.t)
    (force : Force.t) (c : Cavity) (log : list R) :
  let N := number_of_atoms_ c in
  enabled_ c = true ->
  length (cpu_dipole_jacobian_ c) = (9 * N)%nat ->
  length (cpu_cavity_force_ c) = (3 * N)%nat ->
  exists c' log',
    compute_dipole_and_jacobian step box atom force c log = Done c' log'
    /\ cpu_dipole_jacobian_ c' = replicate (9 * N) 1.0
    /\ cpu_cavity_force_ (cavity_force c')
       = replicate (3 * N)
           ((cavity_frequency c * q c - coupling_strength c * cpu_dipole_ c' !!! 2%nat)
            * coupling_strength c * 1.0).
Proof.
  cbv zeta. intros Hen Hjac Hcf.
  destruct (compute_dipole_and_jacobian_done step box atom force c log Hen)
    as (c' & Erun & Ef & Ej & _).
  cbv zeta in Erun, Ej.
  rewrite jacobian_stored_replicate in Ej by assumption.
  assert (HN : number_of_atoms_ c' = number_of_atoms_ c) by (rewrite Ef; now destruct c).
  assert (Hw : cavity_frequency c' = cavity_frequency c) by (rewrite Ef; now destruct c).
  assert (Hq : q c' = q c) by (rewrite Ef; now destruct c).
  assert (Hl : coupling_strength c' = coupling_strength c) by (rewrite Ef; now destruct c).
  assert (Hcf' : cpu_cavity_force_ c' = cpu_cavity_force_ c) by (rewrite Ef; now destruct c).
  exists c'. eexists. split; [exact Erun|]. split; [exact Ej|].
  destruct (cavity_force_cells c') as [Hlen Hcell]; [rewrite Hcf', HN; exact Hcf|].
  rewrite HN in Hlen, Hcell.
  apply vector_eq; [now rewrite length_replicate|].
  intros idx Hidx. rewrite Hlen in Hidx.
  destruct (block_cell (number_of_atoms_ c) idx Hidx) as (i & j & Hi & Hj & ->).
  rewrite Hcell by assumption.
  rewrite lookup_total_replicate_2 by lia.
  unfold cavity_force_entry. rewrite Hw, Hq, Hl, Ej.
  rewrite lookup_total_replicate_2 by lia. reflexivity.
Qed.

Lemma insert_same {A} `{Inhabited A} (v : list A) (k : nat) (x : A) :
  x = v !!! k -> <[k := x]> v = v.
Proof.
  intros ->. destruct (decide (k < length v)%nat) as [Hlt|Hge].
  - apply list_insert_id. now apply list_lookup_lookup_total_lt.
  - apply list_insert_ge. lia.
Qed.

(** X15. With a coupling strength of zero the cavity is decoupled:
    [compute_and_apply_cavity_force] returns the atoms it is given, and
    [step_cavity] leaves both integrals where they are. *)
Theorem zero_coupling_decouples (atom : Atom.t) (c : Cavity) (time : R) :
  coupling_strength c = 0 ->
  length (cpu_cavity_force_ c) = (3 * number_of_atoms_ c)%nat ->
  length (gpu_cavity_force_ c) = (3 * number_of_atoms_ c)%nat ->
  fst (compute_and_apply_cavity_force atom c) = atom
  /\ cos_integral (step_cavity time c) = cos_integral c
  /\ sin_integral (step_cavity time c) = sin_integral c.
Proof.
  intros Hl Hcpu Hgpu. split.
  - unfold compute_and_apply_cavity_force.
    destruct (enabled_ c) eqn:Hen; cbn [negb fst]; [|reflexivity].
    destruct (cavity_force_cells c Hcpu) as [Hlen Hcell].
    set (c1 := cavity_force c) in *.
    assert (HN : number_of_atoms_ c1 = number_of_atoms_ c)
      by (unfold c1; rewrite cavity_force_unfold; now destruct c).
    assert (Hg1 : gpu_cavity_force_ c1 = gpu_cavity_force_ c)
      by (unfold c1; rewrite cavity_force_unfold; now destruct c).
    assert (Hcav : forall idx, cpu_cavity_force_ c1 !!! idx = 0).
    { intros idx. destruct (decide (idx < 3 * number_of_atoms_ c)%nat) as [Hlt|Hge].
      - destruct (block_cell _ idx Hlt) as (i & j & Hi & Hj & ->).
        rewrite Hcell by assumption. unfold cavity_force_entry. rewrite Hl. lra.
      - rewrite list_lookup_total_alt, (proj2 (lookup_ge_None _ _)) by lia. reflexivity. }
    assert (E : forall g,
              fst (atom <| Atom.force_per_atom := g |>,
                   c1 <| gpu_cavity_force_ :=
                           copy_into (cpu_cavity_force_ c1) (gpu_cavity_force_ c1) |>)
              = atom <| Atom.force_per_atom := g |>) by reflexivity.
    assert (Egpu : gpu_cavity_force_
                     (c1 <| gpu_cavity_force_ :=
                              copy_into (cpu_cavity_force_ c1) (gpu_cavity_force_ c1) |>)
                   = cpu_cavity_force_ c1).
    { transitivity (copy_into (cpu_cavity_force_ c1) (gpu_cavity_force_ c1));
        [now destruct c1|].
      apply copy_into_same_length. congruence. }
    assert (EN : number_of_atoms_
                   (c1 <| gpu_cavity_force_ :=
                            copy_into (cpu_cavity_force_ c1) (gpu_cavity_force_ c1) |>)
                 = number_of_atoms_ c) by (rewrite <- HN; now destruct c1).
    cbv zeta. rewrite Egpu, EN, apply_cavity_force_unfold.
    assert (Eid : forall l v,
              foldl (fun v n1 =>
                       force_added (number_of_atoms_ c) (cpu_cavity_force_ c1) n1 v) v l = v).
    { induction l as [|n1 l IH]; intros v; cbn [foldl]; [reflexivity|].
      rewrite <- (IH v) at 2. f_equal. unfold force_added. cbv zeta.
      rewrite !Hcav.
      rewrite (insert_same v) by lra.
      rewrite (insert_same v) by lra.
      apply insert_same. lra. }
    rewrite Eid. now destruct atom.
  - destruct (step_cavity_fields time c) as (_ & _ & _ & _ & _ & Hc & Hs).
    cbv zeta in Hc, Hs. rewrite Hc, Hs, Hl. split; lra.
Qed.

End DipolePerStep.

(** * The oscillator between the samples *)

Section FreeOscillator.
Context `{Collaborators}.
Local Open Scope R_scope.

(** X16. Between two samples of the dipole the coordinates
    [canonical_position] and [canonical_momentum] compute are those of a
    free harmonic oscillator: [p^2 + (w q)^2] has the same value
    [w^2 (Icos^2 + (Isin - q0)^2)] at every time. *)
Theorem free_oscillator_energy_is_constant (c : Cavity) (time : R) :
  let w := cavity_frequency c in
  let c' := canonical_momentum time (canonical_position time c) in
  p c' * p c' + (w * q c') * (w * q c')
  = w * w * (cos_integral c * cos_integral c
             + (sin_integral c - q0 c) * (sin_integral c - q0 c)).
Proof.
  destruct c as [en n ncs nn pot potj cs cf ch m ms ac av cd gd cj gj ccf gcf pd
                 q0' ci si pt q' p' cp ck].
  cbv zeta. unfold canonical_momentum, canonical_position. fields.
  pose proof (sin2_cos2 (cf * time)) as Hunit. unfold Rsqr in Hunit.
  set (s := sin (cf * time)) in *. set (k := cos (cf * time)) in *.
  replace (cf * (k * ci + s * si - q0' * s) * (cf * (k * ci + s * si - q0' * s))
           + cf * (s * ci - k * si + q0' * k) * (cf * (s * ci - k * si + q0' * k)))
    with (cf * cf * ((s * s + k * k) * (ci * ci + (si - q0') * (si - q0')))) by ring.
  rewrite Hunit. ring.
Qed.

Lemma derivable_pt_lim_eq (f g : R -> R) (x l : R) :
  (forall t, f t = g t) -> derivable_pt_lim f x l -> derivable_pt_lim g x l.
Proof.
  intros Hfg Hf eps Heps. destruct (Hf eps Heps) as [delta Hdelta].
  exists delta. intros h Hh Hlt. rewrite <- !Hfg. now apply Hdelta.
Qed.

Lemma derivable_pt_lim_sin_phase (w x : R) :
  derivable_pt_lim (fun t => sin (w * t)) x (w * cos (w * x)).
Proof.
  apply (derivable_pt_lim_eq (comp sin (mult_real_fct w id))); [reflexivity|].
  replace (w * cos (w * x)) with (cos (mult_real_fct w id x) * (w * 1))
    by (unfold mult_real_fct, id; ring).
  apply derivable_pt_lim_comp.
  - apply derivable_pt_lim_scal, derivable_pt_lim_id.
  - apply derivable_pt_lim_sin.
Qed.

Lemma derivable_pt_lim_cos_phase (w x : R) :
  derivable_pt_lim (fun t => cos (w * t)) x (- (w * sin (w * x))).
Proof.
  apply (derivable_pt_lim_eq (comp cos (mult_real_fct w id))); [reflexivity|].
  replace (- (w * sin (w * x))) with (- sin (mult_real_fct w id x) * (w * 1))
    by (unfold mult_real_fct, id; ring).
  apply derivable_pt_lim_comp.
  - apply derivable_pt_lim_scal, derivable_pt_lim_id.
  - apply derivable_pt_lim_cos.
Qed.

(** X17. As functions of the time, with the integrals held fixed, the
    position [canonical_position] stores has the momentum
    [canonical_momentum] stores as its derivative, and that momentum has
    the derivative [- w^2 q]: the pair solves the equations of motion of
    the oscillator of frequency [w]. *)
Theorem canonical_coordinates_solve_the_oscillator (c : Cavity) (time : R) :
  let w := cavity_frequency c in
  derivable_pt_lim (fun t => q (canonical_position t c)) time
                   (p (canonical_momentum time c))
  /\ derivable_pt_lim (fun t => p (canonical_momentum t c)) time
                      (- (w * w) * q (canonical_position time c)).
Proof.
  destruct c as [en n ncs nn pot potj cs cf ch m ms ac av cd gd cj gj ccf gcf pd
                 q0' ci si pt q' p' cp ck].
  cbv zeta. unfold canonical_momentum, canonical_position. fields.
  pose proof (derivable_pt_lim_sin_phase cf time) as Hs.
  pose proof (derivable_pt_lim_cos_phase cf time) as Hc.
  split.
  - apply (derivable_pt_lim_eq
             (mult_real_fct ci (fun t => sin (cf * t))
              - mult_real_fct si (fun t => cos (cf * t))
              + mult_real_fct q0' (fun t => cos (cf * t)))%F).
    { intros t. unfold plus_fct, minus_fct, mult_real_fct. ring. }
    replace (cf * (cos (cf * time) * ci + sin (cf * time) * si - q0' * sin (cf * time)))
      with (ci * (cf * cos (cf * time)) - si * - (cf * sin (cf * time))
            + q0' * - (cf * sin (cf * time))) by ring.
    apply derivable_pt_lim_plus; [apply derivable_pt_lim_minus|];
      now apply derivable_pt_lim_scal.
  - apply (derivable_pt_lim_eq
             (mult_real_fct cf
                (mult_real_fct ci (fun t => cos (cf * t))
                 + mult_real_fct si (fun t => sin (cf * t))
                 - mult_real_fct q0' (fun t => sin (cf * t))))%F).
    { intros t. unfold plus_fct, minus_fct, mult_real_fct. ring. }
    replace (- (cf * cf) * (sin (cf * time) * ci - cos (cf * time) * si + q0' * cos (cf * time)))
      with (cf * (ci * - (cf * sin (cf * time)) + si * (cf * cos (cf * time))
                  - q0' * (cf * cos (cf * time)))) by ring.
    apply derivable_pt_lim_scal.
    apply derivable_pt_lim_minus; [apply derivable_pt_lim_plus|];
      now apply derivable_pt_lim_scal.
Qed.

Lemma std_copy_twice {A} (src dst : list A) :
  std_copy src (std_copy src dst) = std_copy src dst.
Proof.
  unfold std_copy. f_equal. rewrite drop_app_length. reflexivity.
Qed.

Lemma update_cavity_enabled (step : Z) (global_time : R) (c : Cavity) :
  enabled_ c = true ->
  update_cavity step global_time c
  = let time := global_time * TIME_UNIT_CONVERSION in
    cavity_kinetic_energy
      (cavity_potential_energy
         (canonical_momentum time (canonical_position time (step_cavity time c)))).
Proof. intros Hen. unfold update_cavity. rewrite Hen. reflexivity. Qed.

Lemma step_cavity_keeps_q0 (time : R) (c : Cavity) : q0 (step_cavity time c) = q0 c.
Proof. now destruct c. Qed.

(** The coordinates and energies of a sample, as the four assignments
    after the step leave them. *)
Lemma sampled_coordinates (time : R) (c : Cavity) :
  let c' := cavity_kinetic_energy
              (cavity_potential_energy
                 (canonical_momentum time (canonical_position time c))) in
  let w := cavity_frequency c in
  prevtime c' = prevtime c
  /\ cos_integral c' = cos_integral c
  /\ sin_integral c' = sin_integral c
  /\ q c' = sin (w * time) * cos_integral c - cos (w * time) * sin_integral c
            + q0 c * cos (w * time)
  /\ p c' = w * (cos (w * time) * cos_integral c + sin (w * time) * sin_integral c
                 - q0 c * sin (w * time))
  /\ cavity_pot c'
     = 0.5 * (w * q c' - coupling_strength c * cpu_dipole_ c !!! 2%nat)
           * (w * q c' - coupling_strength c * cpu_dipole_ c !!! 2%nat)
  /\ cavity_kin c' = 0.5 * p c' * p c'.
Proof. destruct c. repeat split. Qed.

(** X18. [update_cavity] on an enabled object samples at
    [global_time * TIME_UNIT_CONVERSION]: it steps the integrals to that
    time, stores the position and momentum of that time and the energies
    [0.5 (w q - l mu_z)^2] and [0.5 p^2] of these two, which are never
    negative. *)
Theorem update_cavity_reports_the_energies (step : Z) (global_time : R) (c : Cavity) :
  enabled_ c = true ->
  let time := global_time * TIME_UNIT_CONVERSION in
  let c' := update_cavity step global_time c in
  let w := cavity_frequency c in
  prevtime c' = time
  /\ cos_integral c' = cos_integral (step_cavity time c)
  /\ sin_integral c' = sin_integral (step_cavity time c)
  /\ q c' = sin (w * time) * cos_integral c' - cos (w * time) * sin_integral c'
            + q0 c * cos (w * time)
  /\ p c' = w * (cos (w * time) * cos_integral c' + sin (w * time) * sin_integral c'
                 - q0 c * sin (w * time))
  /\ cavity_pot c'
     = 0.5 * (w * q c' - coupling_strength c * cpu_dipole_ c !!! 2%nat)
           * (w * q c' - coupling_strength c * cpu_dipole_ c !!! 2%nat)
  /\ cavity_kin c' = 0.5 * p c' * p c'
  /\ 0 <= cavity_pot c'
  /\ 0 <= cavity_kin c'.
Proof.
  intros Hen. cbv zeta. rewrite (update_cavity_enabled step global_time c Hen).
  set (time := global_time * TIME_UNIT_CONVERSION).
  destruct (step_cavity_fields time c) as (Hw & Hl & Hd & _ & Ht & _ & _).
  pose proof (step_cavity_keeps_q0 time c) as Hq0.
  destruct (sampled_coordinates time (step_cavity time c))
    as (Et & Ec & Es & Eq & Ep & Epot & Ekin).
  cbv zeta in Et, Ec, Es, Eq, Ep, Epot, Ekin.
  rewrite Hw, Hl, Hd, Hq0 in *.
  set (c' := cavity_kinetic_energy _) in *.
  split; [congruence|]. split; [exact Ec|]. split; [exact Es|].
  split; [rewrite Ec, Es; exact Eq|]. split; [rewrite Ec, Es; exact Ep|].
  split; [exact Epot|]. split; [exact Ekin|].
  rewrite Epot, Ekin. split.
  - match goal with |- 0 <= 0.5 * ?a * ?a => generalize a end. intros a. nra.
  - match goal with |- 0 <= 0.5 * ?a * ?a => generalize a end. intros a. nra.
Qed.

Lemma update_cavity_disabled (step : Z) (global_time : R) (c : Cavity) :
  enabled_ c = false -> update_cavity step global_time c = c.
Proof. intros Hen. unfold update_cavity. rewrite Hen. reflexivity. Qed.

(** A step to the time of the last sample, with the dipole of the last
    sample, changes nothing. *)
Lemma step_cavity_at_prevtime (time : R) (c : Cavity) :
  prevtime c = time ->
  prevdipole c = std_copy (cpu_dipole_ c) (prevdipole c) ->
  step_cavity time c = c.
Proof.
  destruct c as [en n ncs nn pot potj cs cf ch m ms ac av cd gd cj gj ccf gcf pd
                 q0' ci si pt q' p' cp ck].
  cbn [prevtime prevdipole cpu_dipole_]. intros <- Hpd.
  unfold step_cavity. fields. rewrite <- Hpd. f_equal; lra.
Qed.

(** The four assignments after the step, done twice, are done once, and
    touch nothing the step reads or writes. *)
Lemma sampled_twice (time : R) (c : Cavity) :
  let sample c := cavity_kinetic_energy
                    (cavity_potential_energy
                       (canonical_momentum time (canonical_position time c))) in
  sample (sample c) = sample c
  /\ enabled_ (sample c) = enabled_ c
  /\ prevtime (sample c) = prevtime c
  /\ prevdipole (sample c) = prevdipole c
  /\ cpu_dipole_ (sample c) = cpu_dipole_ c.
Proof. destruct c. repeat split. Qed.

Lemma step_cavity_enabled (time : R) (c : Cavity) :
  enabled_ (step_cavity time c) = enabled_ c.
Proof. now destruct c. Qed.

(** X19. A second [update_cavity] at the same time changes nothing: the
    step it takes has length zero. *)
Theorem update_cavity_twice_is_once (step step' : Z) (global_time : R) (c : Cavity) :
  update_cavity step' global_time (update_cavity step global_time c)
  = update_cavity step global_time c.
Proof.
  destruct (enabled_ c) eqn:Hen.
  2:{ now rewrite !update_cavity_disabled by (rewrite ?update_cavity_disabled; assumption). }
  rewrite (update_cavity_enabled step global_time c Hen). cbv zeta.
  set (time := global_time * TIME_UNIT_CONVERSION).
  destruct (step_cavity_fields time c) as (_ & _ & Hd & Hp & Ht & _ & _).
  destruct (sampled_twice time (step_cavity time c)) as (Etwice & Een & Et & Ep & Ed).
  cbv zeta in Etwice, Een, Et, Ep, Ed.
  set (c1 := cavity_kinetic_energy
               (cavity_potential_energy
                  (canonical_momentum time (canonical_position time (step_cavity time c)))))
    in *.
  rewrite update_cavity_enabled by (rewrite Een, step_cavity_enabled; exact Hen).
  cbv zeta. fold time.
  rewrite (step_cavity_at_prevtime time c1).
  - exact Etwice.
  - congruence.
  - rewrite Ep, Ed, Hp, Hd. symmetry. apply std_copy_twice.
Qed.

Lemma initialize_disabled (box : Box) (atom : Atom.t) (force : Force.t) (c : Cavity)
    (log : list R) :
  enabled_ c = false -> initialize box atom force c log = Done c log.
Proof. intros Hen. lazy beta delta [initialize]. rewrite Hen. reflexivity. Qed.

Lemma compute_dipole_and_jacobian_disabled (step : Z) (box : Box) (atom : Atom.t)
    (force : Force.t) (c : Cavity) (log : list R) :
  enabled_ c = false -> compute_dipole_and_jacobian step box atom force c log = Done c log.
Proof.
  intros Hen. lazy beta delta [compute_dipole_and_jacobian]. rewrite Hen. reflexivity.
Qed.

Lemma compute_and_apply_cavity_force_disabled (atom : Atom.t) (c : Cavity) :
  enabled_ c = false -> compute_and_apply_cavity_force atom c = (atom, c).
Proof.
  intros Hen. lazy beta delta [compute_and_apply_cavity_force]. rewrite Hen. reflexivity.
Qed.

(** X20. [finalize] clears [enabled_] and nothing else, and a finalized
    object is inert: [initialize], [compute_dipole_and_jacobian],
    [compute_and_apply_cavity_force], [update_cavity] and a second
    [finalize] return it, and the atoms, unchanged, without a division. *)
Theorem finalized_object_is_inert (c : Cavity) (step : Z) (global_time : R) (box : Box)
    (atom : Atom.t) (force : Force.t) (log : list R) :
  let c' := finalize c in
  c' = c <| enabled_ := false |>
  /\ finalize c' = c'
  /\ initialize box atom force c' log = Done c' log
  /\ compute_dipole_and_jacobian step box atom force c' log = Done c' log
  /\ compute_and_apply_cavity_force atom c' = (atom, c')
  /\ update_cavity step global_time c' = c'.
Proof.
  cbv zeta.
  assert (E : finalize c = c <| enabled_ := false |>).
  { unfold finalize. destruct c as [[|]]; reflexivity. }
  assert (Hen : enabled_ (finalize c) = false) by (rewrite E; now destruct c).
  split; [exact E|].
  generalize dependent (finalize c). intros c' _ Hen.
  split; [unfold finalize; now rewrite Hen|].
  split; [now apply initialize_disabled|].
  split; [now apply compute_dipole_and_jacobian_disabled|].
  split; [now apply compute_and_apply_cavity_force_disabled|].
  now apply update_cavity_disabled.
Qed.

End FreeOscillator.

Section UpdateFrame.
Context `{Collaborators}.
Local Open Scope R_scope.

Lemma step_cavity_frame (time : R) (c : Cavity) :
  step_cavity time c
  = c <| cos_integral := cos_integral (step_cavity time c) |>
      <| sin_integral := sin_integral (step_cavity time c) |>
      <| prevtime := time |>
      <| prevdipole := std_copy (cpu_dipole_ c) (prevdipole c) |>.
Proof. now destruct c. Qed.

Lemma sampled_frame (time : R) (c : Cavity) :
  let c' := cavity_kinetic_energy
              (cavity_potential_energy
                 (canonical_momentum time (canonical_position time c))) in
  c' = c <| q := q c' |> <| p := p c' |> <| cavity_pot := cavity_pot c' |>
         <| cavity_kin := cavity_kin c' |>.
Proof. now destruct c. Qed.

(** X23. [update_cavity] changes the oscillator only: the two integrals,
    [prevtime], [prevdipole], [q], [p] and the two energies; the dipole,
    the Jacobian, the cavity force, the private copies and the
    parameters are as before. *)
Theorem update_cavity_changes_the_oscillator_only (step : Z) (global_time : R)
    (c : Cavity) :
  let c' := update_cavity step global_time c in
  c' = c <| cos_integral := cos_integral c' |>
         <| sin_integral := sin_integral c' |>
         <| prevtime := prevtime c' |>
         <| prevdipole := prevdipole c' |>
         <| q := q c' |> <| p := p c' |>
         <| cavity_pot := cavity_pot c' |>
         <| cavity_kin := cavity_kin c' |>.
Proof.
  cbv zeta. destruct (enabled_ c) eqn:Hen.
  2:{ rewrite update_cavity_disabled by assumption. now destruct c. }
  rewrite (update_cavity_enabled step global_time c Hen). cbv zeta.
  set (time := global_time * TIME_UNIT_CONVERSION).
  pose proof (sampled_frame time (step_cavity time c)) as Esample.
  destruct (sampled_coordinates time (step_cavity time c)) as (Et & Ec & Es & _).
  destruct (sampled_twice time (step_cavity time c)) as (_ & _ & _ & Ep & _).
  cbv zeta in Esample, Et, Ec, Es, Ep.
  set (c' := cavity_kinetic_energy
               (cavity_potential_energy
                  (canonical_momentum time (canonical_position time (step_cavity time c)))))
    in *.
  rewrite Et, Ec, Es, Ep.
  rewrite Esample at 1. rewrite (step_cavity_frame time c) at 1.
  destruct (step_cavity_fields time c) as (_ & _ & _ & Hp & Ht & _ & _).
  rewrite Hp, Ht. clear Esample Et Ec Es Ep Hp Ht. clearbody c'.
  generalize (cos_integral (step_cavity time c)), (sin_integral (step_cavity time c)).
  intros Icos Isin. now destruct c.
Qed.

End UpdateFrame.

(** * Commands and initialization *)

Section Commands.
Context `{Collaborators}.
Local Open Scope R_scope.

(** [parse], check by check. *)
Lemma parse_outcome (param : list string) (num_param : Z) (N : nat) (c : Cavity)
    (log : list R) :
  parse param num_param N c log
  = if decide (fscanf_count (param !!! 1%nat) ≠ 1%Z)
    then Fatal "reading error for potential file."
    else if decide (num_param ≠ 5%Z)
    then Fatal "cavity should have 4 parameters."
    else match is_valid_real (param !!! 2%nat) with
         | None => Fatal "coupling strength should be a real number."
         | Some l =>
             if Rlt_dec l 0
             then Fatal "coupling strength cannot be negative."
             else match is_valid_real (param !!! 3%nat) with
                  | None => Fatal "cavity frequency should be a real number."
                  | Some w =>
                      if Rlt_dec w 0
                      then Fatal "cavity frequency cannot be negative."
                      else match is_valid_int (param !!! 4%nat) with
                           | None => Fatal "total system charge should be an integer."
                           | Some ch => Done (configured N l w ch c) log
                           end
                  end
         end.
Proof.
  destruct c as [en n ncs nn pot potj cs cf ch' m ms ac av cd gd cj gj ccf gcf pd
                 q0' ci si pt q' p' cp ck].
  unfold parse, configured. fields. unfold bind, ret, PRINT_INPUT_ERROR.
  destruct (decide (fscanf_count (param !!! 1%nat) ≠ 1%Z)); [reflexivity|].
  destruct (decide (num_param ≠ 5%Z)); [reflexivity|].
  destruct (is_valid_real (param !!! 2%nat)) as [l|]; [|reflexivity]. fields.
  destruct (Rlt_dec l 0.0) as [Hl|Hl]; destruct (Rlt_dec l 0) as [Hl'|Hl'];
    try (exfalso; lra); [reflexivity|].
  destruct (is_valid_real (param !!! 3%nat)) as [w|]; [|reflexivity]. fields.
  destruct (Rlt_dec w 0.0) as [Hw|Hw]; destruct (Rlt_dec w 0) as [Hw'|Hw'];
    try (exfalso; lra); [reflexivity|].
  destruct (is_valid_int (param !!! 4%nat)) as [ch|]; reflexivity.
Qed.

(** A product of [int]s that fits in 32 bits is the product. *)
Lemma int_mul_exact (a b : Z) :
  (-2147483648 <= a * b <= 2147483647)%Z -> int_mul a b = (a * b)%Z.
Proof. intros Hr. unfold int_mul. rewrite Z.mod_small by lia. lia. Qed.

Lemma int_mul_range (a b : Z) : (-2147483648 <= int_mul a b <= 2147483647)%Z.
Proof.
  unfold int_mul.
  pose proof (Z.mod_pos_bound (a * b + 2147483648) 4294967296 ltac:(lia)). lia.
Qed.

(** X4. [parse] raises none of its input errors exactly on the commands
    for which [fscanf] reads the name of the potential, with five
    parameters, a coupling strength and a frequency that are real numbers
    and not negative, and an integer charge; it then enables the object,
    stores the three values and [N], and divides nothing.  The two counts
    of the copied system are [int] products: they are [12 N] and
    [12 N N] as long as [12 N N] fits in 32 bits, that is up to
    [N = 13377]; beyond, the count of atoms stored is another number,
    [-2147316688] for [N = 13378]. *)
Theorem parse_accepts_the_well_formed_commands (param : list string) (num_param : Z)
    (N : nat) (c : Cavity) (log : list R) :
  (forall c' log',
     parse param num_param N c log = Done c' log' ->
     fscanf_count (param !!! 1%nat) = 1%Z
     /\ num_param = 5%Z
     /\ is_valid_real (param !!! 2%nat) = Some (coupling_strength c')
     /\ 0 <= coupling_strength c'
     /\ is_valid_real (param !!! 3%nat) = Some (cavity_frequency c')
     /\ 0 <= cavity_frequency c'
     /\ is_valid_int (param !!! 4%nat) = Some (charge c')
     /\ log' = log
     /\ c' = configured N (coupling_strength c') (cavity_frequency c') (charge c') c)
  /\ (forall l w ch,
        fscanf_count (param !!! 1%nat) = 1%Z ->
        num_param = 5%Z ->
        is_valid_real (param !!! 2%nat) = Some l -> 0 <= l ->
        is_valid_real (param !!! 3%nat) = Some w -> 0 <= w ->
        is_valid_int (param !!! 4%nat) = Some ch ->
        parse param num_param N c log = Done (configured N l w ch c) log)
  /\ (forall l w ch,
        let c' := configured N l w ch c in
        let n := Z.of_nat N in
        enabled_ c' = true
        /\ number_of_atoms_ c' = N
        /\ coupling_strength c' = l
        /\ cavity_frequency c' = w
        /\ charge c' = ch
        /\ N2 (potential c') = n
        /\ N2 (potential_jacobian c') = number_of_atoms_in_copied_system_ c'
        /\ ((12 * n * n <= 2147483647)%Z ->
            number_of_copied_systems_ c' = (12 * n)%Z
            /\ number_of_atoms_in_copied_system_ c' = (12 * n * n)%Z)
        /\ ((2147483647 < 12 * n * n)%Z ->
            number_of_atoms_in_copied_system_ c' <> (12 * n * n)%Z)
        /\ ((12 * n * n <= 2147483647)%Z <-> (n <= 13377)%Z)
        /\ (n = 13378%Z -> number_of_atoms_in_copied_system_ c' = (-2147316688)%Z)).
Proof.
  rewrite parse_outcome. split; [|split].
  - intros c' log'.
    destruct (decide (fscanf_count (param !!! 1%nat) ≠ 1%Z)) as [|Hcount]; [discriminate|].
    destruct (decide (num_param ≠ 5%Z)) as [|Hnum]; [discriminate|].
    destruct (is_valid_real (param !!! 2%nat)) as [l|]; [|discriminate].
    destruct (Rlt_dec l 0) as [|Hl]; [discriminate|].
    destruct (is_valid_real (param !!! 3%nat)) as [w|]; [|discriminate].
    destruct (Rlt_dec w 0) as [|Hw]; [discriminate|].
    destruct (is_valid_int (param !!! 4%nat)) as [ch|]; [|discriminate].
    intros [= <- <-].
    assert (El : coupling_strength (configured N l w ch c) = l) by now destruct c.
    assert (Ew : cavity_frequency (configured N l w ch c) = w) by now destruct c.
    assert (Ech : charge (configured N l w ch c) = ch) by now destruct c.
    rewrite El, Ew, Ech.
    repeat split; try reflexivity; try lra.
    + destruct (decide (fscanf_count (param !!! 1%nat) = 1%Z)); [assumption|contradiction].
    + destruct (decide (num_param = 5%Z)); [assumption|contradiction].
  - intros l w ch Hcount Hnum -> Hl -> Hw ->.
    destruct (decide _) as [|_]; [contradiction|].
    destruct (decide _) as [|_]; [contradiction|].
    destruct (Rlt_dec l 0); [exfalso; lra|].
    destruct (Rlt_dec w 0); [exfalso; lra|]. reflexivity.
  - intros l w ch. cbv zeta.
    assert (Ecopies : number_of_copied_systems_ (configured N l w ch c)
                      = int_mul 12 (Z.of_nat N)) by now destruct c.
    assert (Eatoms : number_of_atoms_in_copied_system_ (configured N l w ch c)
                     = int_mul (int_mul 12 (Z.of_nat N)) (Z.of_nat N)) by now destruct c.
    rewrite Ecopies, Eatoms.
    do 7 (split; [now destruct c|]).
    pose proof (Nat2Z.is_nonneg N) as Hn.
    split; [|split; [|split]].
    + intros Hfit.
      assert (E12 : int_mul 12 (Z.of_nat N) = (12 * Z.of_nat N)%Z)
        by (apply int_mul_exact; nia).
      rewrite E12. split; [reflexivity|]. apply int_mul_exact. nia.
    + intros Hover Heq.
      pose proof (int_mul_range (int_mul 12 (Z.of_nat N)) (Z.of_nat N)). lia.
    + split; intros Hb; nia.
    + intros ->. reflexivity.
Qed.

(** X5. [parse] reports the first check that fails, in the order of the
    source: the potential file, the number of parameters, the coupling
    strength, the frequency, the charge. *)
Theorem parse_reports_the_first_failed_check (param : list string) (num_param : Z)
    (N : nat) (c : Cavity) (log : list R) :
  let run := parse param num_param N c log in
  (fscanf_count (param !!! 1%nat) <> 1%Z ->
   run = Fatal "reading error for potential file.")
  /\ (fscanf_count (param !!! 1%nat) = 1%Z ->
      (num_param <> 5%Z -> run = Fatal "cavity should have 4 parameters.")
      /\ (num_param = 5%Z ->
          (is_valid_real (param !!! 2%nat) = None ->
           run = Fatal "coupling strength should be a real number.")
          /\ (forall l, is_valid_real (param !!! 2%nat) = Some l ->
                (l < 0 -> run = Fatal "coupling strength cannot be negative.")
                /\ (0 <= l ->
                    (is_valid_real (param !!! 3%nat) = None ->
                     run = Fatal "cavity frequency should be a real number.")
                    /\ (forall w, is_valid_real (param !!! 3%nat) = Some w ->
                          (w < 0 -> run = Fatal "cavity frequency cannot be negative.")
                          /\ (0 <= w -> is_valid_int (param !!! 4%nat) = None ->
                              run = Fatal "total system charge should be an integer.")))))).
Proof.
  cbv zeta. rewrite parse_outcome. split.
  - intros Hcount. destruct (decide _); [reflexivity|contradiction].
  - intros Hcount. destruct (decide _) as [|_]; [contradiction|]. split.
    + intros Hnum. destruct (decide _); [reflexivity|contradiction].
    + intros Hnum. destruct (decide _) as [|_]; [contradiction|]. split.
      * intros ->. reflexivity.
      * intros l ->. split.
        -- intros Hl. destruct (Rlt_dec l 0); [reflexivity|contradiction].
        -- intros Hl. destruct (Rlt_dec l 0); [exfalso; lra|]. split.
           ++ intros ->. reflexivity.
           ++ intros w ->. split.
              ** intros Hw. destruct (Rlt_dec w 0); [reflexivity|contradiction].
              ** intros Hw ->. destruct (Rlt_dec w 0); [exfalso; lra|]. reflexivity.
Qed.

End Commands.

Section InitializationChecks.
Context `{Collaborators}.
Local Open Scope R_scope.

Lemma initialize_checks (box : Box) (atom : Atom.t) (force : Force.t) (c : Cavity)
    (log : list R) :
  enabled_ c = true ->
  (length (Force.potentials force) <> 2%nat ->
   initialize box atom force c log
   = Fatal "cavity requires two potentials to be specified.")
  /\ (length (Force.potentials force) = 2%nat ->
      nep_model_type (Force.potentials force !!! 1%nat) <> 1%Z ->
      initialize box atom force c log
      = Fatal "cavity requires the second NEP potential to be a dipole model.").
Proof.
  intros Hen.
  destruct c as [en n ncs nn pot potj cs cf ch m ms ac av cd gd cj gj ccf gcf pd
                 q0' ci si pt q' p' cp ck].
  destruct ac as [a1 a2 a3 a4 a5 a6 a7 a8 a9 a10].
  destruct av as [v1 v2 v3 v4 v5 v6 v7 v8 v9 v10 v11 v12].
  cbn [enabled_] in Hen. subst. lazy delta [initialize]. fields_by_need.
  split.
  - intros Hpot. unfold bind at 1.
    destruct (decide _) as [_|Heq]; [reflexivity|contradiction].
  - intros Hpot Hnep. unfold bind at 1.
    destruct (decide _) as [Hne|_]; [contradiction|]. unfold ret at 1.
    unfold bind at 1. destruct (decide _) as [_|Heq]; [reflexivity|contradiction].
Qed.

(** X6. [initialize] does nothing on an object that is not enabled; on an
    enabled one it exits exactly when the force field does not hold two
    potentials or the second one is not a dipole model
    ([nep_model_type] is not 1), with a message that says which. *)
Theorem initialize_requires_a_dipole_model (box : Box) (atom : Atom.t) (force : Force.t)
    (c : Cavity) (log : list R) :
  let run := initialize box atom force c log in
  let potentials := Force.potentials force in
  (enabled_ c = false -> run = Done c log)
  /\ (enabled_ c = true -> length potentials <> 2%nat ->
      run = Fatal "cavity requires two potentials to be specified.")
  /\ (enabled_ c = true -> length potentials = 2%nat ->
      nep_model_type (potentials !!! 1%nat) <> 1%Z ->
      run = Fatal "cavity requires the second NEP potential to be a dipole model.")
  /\ (aborted run <->
      enabled_ c = true
      /\ (length potentials <> 2%nat \/ nep_model_type (potentials !!! 1%nat) <> 1%Z)).
Proof.
  cbv zeta.
  split; [apply initialize_disabled|].
  split; [intros Hen; now apply initialize_checks|].
  split; [intros Hen; now apply initialize_checks|].
  destruct (enabled_ c) eqn:Hen.
  2:{ rewrite initialize_disabled by assumption. cbn [aborted].
      split; [contradiction|]. intros [Habs _]. discriminate. }
  destruct (initialize_checks box atom force c log Hen) as [Hcount Hmodel].
  destruct (decide (length (Force.potentials force) = 2%nat)) as [Hpot|Hpot].
  - destruct (decide (nep_model_type (Force.potentials force !!! 1%nat) = 1%Z))
      as [Hnep|Hnep].
    + destruct (initialize_done box atom force c log Hen Hpot Hnep) as (c' & Erun & _).
      cbv zeta in Erun. rewrite Erun. cbn [aborted].
      split; [contradiction|]. intros [_ [Hne|Hne]]; contradiction.
    + rewrite Hmodel by assumption. cbn [aborted]. split; [|tauto].
      intros _. split; [reflexivity|]. now right.
  - rewrite Hcount by assumption. cbn [aborted]. split; [|tauto].
    intros _. split; [reflexivity|]. now left.
Qed.

(** X8. [initialize] adds the masses of the atoms to [mass_] as it finds
    it, and of its eleven divisions one is by zero exactly when that
    total is zero or the cavity frequency is zero. *)
Theorem initialize_divisions (box : Box) (atom : Atom.t) (force : Force.t)
    (c : Cavity) (log : list R) :
  enabled_ c = true ->
  length (Force.potentials force) = 2%nat ->
  nep_model_type (Force.potentials force !!! 1%nat) = 1%Z ->
  exists c' divisors,
    initialize box atom force c log = Done c' (log ++ divisors)
    /\ length divisors = 11%nat
    /\ mass_ c'
       = mass_ c + sum_upto (number_of_atoms_ c) (fun i => Atom.cpu_mass atom !!! i)
    /\ (In 0 divisors <-> mass_ c' = 0 \/ cavity_frequency c = 0).
Proof.
  intros Hen Hpot Hnep.
  destruct (initialize_done box atom force c log Hen Hpot Hnep)
    as (c' & Erun & _ & _ & _ & _ & _ & _ & _ & _ & _ & _ & _ & _ & HM & _).
  cbv zeta in Erun, HM. exists c'. eexists. split; [exact Erun|].
  rewrite <- HM. split; [reflexivity|]. split; [reflexivity|].
  cbn [In app]. split.
  - intros Hin.
    repeat (destruct Hin as [Hin|Hin];
            [first [left; exact Hin | right; exact Hin | exfalso; lra]|]).
    contradiction.
  - intros [Hzero|Hzero]; [now left|]. do 10 right. now left.
Qed.

End InitializationChecks.

Section Equilibrium.
Context `{Collaborators}.
Local Open Scope R_scope.

(** What the four assignments after the step and the step itself keep. *)
Lemma sampled_keeps (time : R) (c : Cavity) :
  let c' := cavity_kinetic_energy
              (cavity_potential_energy
                 (canonical_momentum time (canonical_position time c))) in
  number_of_atoms_ c' = number_of_atoms_ c
  /\ cpu_cavity_force_ c' = cpu_cavity_force_ c
  /\ cpu_dipole_jacobian_ c' = cpu_dipole_jacobian_ c
  /\ coupling_strength c' = coupling_strength c
  /\ cavity_frequency c' = cavity_frequency c
  /\ cpu_dipole_ c' = cpu_dipole_ c
  /\ q0 c' = q0 c.
Proof. destruct c. repeat split. Qed.

Lemma step_cavity_keeps (time : R) (c : Cavity) :
  number_of_atoms_ (step_cavity time c) = number_of_atoms_ c
  /\ cpu_cavity_force_ (step_cavity time c) = cpu_cavity_force_ c
  /\ cpu_dipole_jacobian_ (step_cavity time c) = cpu_dipole_jacobian_ c.
Proof. destruct c. repeat split. Qed.

(** X9. The oscillator starts at rest in its equilibrium: when the
    frequency and the total mass (what [mass_] held plus the masses of
    the atoms) are not zero, [initialize] divides by zero nowhere, and
    [update_cavity] at time zero then gives [q = q0], [p = 0] and both
    energies zero, and [cavity_force] stores a zero force for every
    atom. *)
Theorem oscillator_starts_at_equilibrium (box : Box) (atom : Atom.t) (force : Force.t)
    (c : Cavity) (log : list R) (step : Z) :
  enabled_ c = true ->
  length (Force.potentials force) = 2%nat ->
  nep_model_type (Force.potentials force !!! 1%nat) = 1%Z ->
  cavity_frequency c <> 0 ->
  mass_ c + sum_upto (number_of_atoms_ c) (fun i => Atom.cpu_mass atom !!! i) <> 0 ->
  exists c1 divisors,
    initialize box atom force c log = Done c1 (log ++ divisors)
    /\ ~ In 0 divisors
    /\ let c2 := update_cavity step 0 c1 in
       q c2 = q0 c1
       /\ p c2 = 0
       /\ cavity_pot c2 = 0
       /\ cavity_kin c2 = 0
       /\ cpu_cavity_force_ (cavity_force c2) = replicate (3 * number_of_atoms_ c) 0.
Proof.
  intros Hen Hpot Hnep Hw Hmass.
  destruct (initialize_done box atom force c log Hen Hpot Hnep)
    as (c1 & Erun & Hq0 & Hcos & Hsin & Ht & Hprev & _ & _ & Hen1 & HN & Hl & Hw1 & _ & _
        & _ & Hcf & _).
  cbv zeta in Erun, HN.
  set (M := mass_ c + sum_upto (number_of_atoms_ c) (fun i => Atom.cpu_mass atom !!! i))
    in *.
  exists c1, ([M; M; M] ++ [M; M; M; M; 0.001; 12.0; 3.0] ++ [cavity_frequency c]).
  split; [exact Erun|]. split.
  { cbn [app In]. intros Hin.
    repeat (destruct Hin as [Hin|Hin]; [first [contradiction | lra]|]). exact Hin. }
  cbv zeta.
  rewrite (update_cavity_enabled step 0 c1 Hen1). cbv zeta.
  rewrite Rmult_0_l.
  destruct (step_cavity_fields 0 c1) as (Sw & Sl & Sd & _ & _ & Sc & Ss).
  cbv zeta in Sc, Ss.
  pose proof (step_cavity_keeps_q0 0 c1) as Sq0.
  destruct (step_cavity_keeps 0 c1) as (SN & Scf & _).
  destruct (sampled_coordinates 0 (step_cavity 0 c1)) as (_ & _ & _ & Eq & Ep & Epot & Ekin).
  destruct (sampled_keeps 0 (step_cavity 0 c1)) as (KN & Kcf & _ & Kl & Kw & Kd & _).
  cbv zeta in Eq, Ep, Epot, Ekin, KN, Kcf, Kl, Kw, Kd.
  set (c2 := cavity_kinetic_energy _) in *.
  rewrite Sw, Sl, Sd, Sq0, Sc, Ss, Hcos, Hsin, Ht, Rmult_0_r, sin_0, cos_0 in *.
  assert (Eq' : q c2 = q0 c1) by (rewrite Eq; lra).
  assert (Ep' : p c2 = 0) by (rewrite Ep; lra).
  assert (Efactor : cavity_frequency c1 * q c2
                    - coupling_strength c1 * cpu_dipole_ c1 !!! 2%nat = 0).
  { rewrite Eq', Hq0, Hw1, Hl. field. exact Hw. }
  split; [exact Eq'|]. split; [exact Ep'|].
  split; [rewrite Epot, Efactor; lra|]. split; [rewrite Ekin, Ep'; lra|].
  assert (HN2 : number_of_atoms_ c2 = number_of_atoms_ c) by congruence.
  destruct (cavity_force_cells c2) as [Hlen Hcell].
  { rewrite Kcf, Scf, Hcf, HN2. lia. }
  rewrite HN2 in Hlen, Hcell.
  apply vector_eq; [now rewrite length_replicate|].
  intros idx Hidx. rewrite Hlen in Hidx.
  destruct (block_cell (number_of_atoms_ c) idx Hidx) as (i & j & Hi & Hj & ->).
  rewrite Hcell by assumption. rewrite lookup_total_replicate_2 by lia.
  unfold cavity_force_entry. rewrite Kw, Kl, Kd, Efactor. lra.
Qed.

End Equilibrium.

(** * The records written *)

Section OutputRecords.
Context `{Collaborators}.
Local Open Scope R_scope.

Lemma printed_cells (v : list R) (file : list item) :
  foldl (fun file i => file ++ [Scientific (v !!! i)]) file (seq 0 (length v))
  = file ++ (Scientific <$> v).
Proof.
  induction v as [|x v IH] using rev_ind.
  - cbn. now rewrite app_nil_r.
  - rewrite length_app, Nat.add_comm. cbn [length Nat.add].
    rewrite seq_S, foldl_app. cbn [foldl Nat.add].
    rewrite fmap_app, app_assoc. cbn [fmap list_fmap].
    rewrite lookup_total_app_r, Nat.sub_diag by lia. cbn.
    f_equal. rewrite <- IH. apply foldl_ext_in.
    intros file' i Hi. apply elem_of_seq in Hi.
    now rewrite lookup_total_app_l by lia.
Qed.

(** X21. [write] on an enabled object appends one record to each stream
    and keeps what they hold: to [jacfile_] the step, the three cells of
    the dipole and every cell of the Jacobian buffer; to [cavfile_] the
    step, the converted time, [q], [p], the two energies and every cell
    of the cavity force.  On an object that is not enabled, as after
    [finalize], it writes nothing. *)
Theorem write_appends_one_record (step : Z) (global_time : R) (c : Cavity)
    (out : Streams) :
  let time := global_time * TIME_UNIT_CONVERSION in
  write step global_time c out
  = (if enabled_ c
     then {| jacfile_ :=
               jacfile_ out
               ++ [Integer step; Scientific (cpu_dipole_ c !!! 0%nat); Scientific (cpu_dipole_ c !!! 1%nat);
                   Scientific (cpu_dipole_ c !!! 2%nat)]
               ++ (Scientific <$> cpu_dipole_jacobian_ c) ++ [Newline];
             cavfile_ :=
               cavfile_ out
               ++ [Integer step; Scientific time; Scientific (q c); Scientific (p c); Scientific (cavity_pot c);
                   Scientific (cavity_kin c)]
               ++ (Scientific <$> cpu_cavity_force_ c) ++ [Newline] |}
     else out)
  /\ write step global_time (finalize c) out = out.
Proof.
  cbv zeta. split.
  - unfold write. destruct (enabled_ c); cbn [negb]; [|reflexivity].
    unfold write_cavity, write_dipole. cbn [jacfile_ cavfile_].
    rewrite !printed_cells, <- !app_assoc. reflexivity.
  - unfold write.
    assert (Hen : enabled_ (finalize c) = false).
    { unfold finalize. destruct c as [[|]]; reflexivity. }
    now rewrite Hen.
Qed.

End OutputRecords.

(** * The theorems on the single atom *)

Section Scenario.
Local Open Scope R_scope.

(** [step_cavity_trapezoid] on the single atom: one step to time 1, two
    uniform steps of length 1. *)
Lemma step_cavity_trapezoid_witness :
  length (cpu_dipole_ ready) = 3%nat
  /\ length (prevdipole ready) = 3%nat
  /\ prevtime (step_cavity 1 ready) = 1
  /\ prevdipole (step_cavity 1 ready) = cpu_dipole_ ready
  /\ cos_integral (uniform_steps (prevtime ready) 1 2 ready)
     = cos_integral ready
       + trapezoid_closed_form (fun t => cos (cavity_frequency ready * t))
           (coupling_strength ready * cpu_dipole_ ready !!! 2%nat) (prevtime ready) 1 2.
Proof.
  destruct (step_cavity_trapezoid ready 1 1 2 eq_refl eq_refl)
    as (_ & _ & Ht & Hp & Hk).
  repeat split; try assumption. apply Hk. reflexivity.
Defined.

(** [cavity_force_is_added] on the single atom. *)
Lemma cavity_force_is_added_witness :
  enabled_ ready = true
  /\ length (cpu_cavity_force_ ready) = (3 * number_of_atoms_ ready)%nat
  /\ length (gpu_cavity_force_ ready) = (3 * number_of_atoms_ ready)%nat
  /\ (3 * number_of_atoms_ ready <= length (Atom.force_per_atom one_atom))%nat
  /\ forall idx, (idx < 3)%nat ->
       Atom.force_per_atom (fst (compute_and_apply_cavity_force one_atom ready)) !!! idx
       = Atom.force_per_atom one_atom !!! idx
         + cpu_cavity_force_ (snd (compute_and_apply_cavity_force one_atom ready)) !!! idx.
Proof.
  assert (Hforce : (3 * number_of_atoms_ ready <= length (Atom.force_per_atom one_atom))%nat)
    by (simpl; lia).
  repeat (split; [first [reflexivity | assumption]|]).
  destruct (cavity_force_is_added one_atom ready eq_refl eq_refl eq_refl Hforce)
    as (_ & _ & Hadd & _).
  exact Hadd.
Defined.

(** The dipole the code reports for the single atom with the stub
    evaluator, as a function of the charge and of [mass_]. *)
Lemma single_atom_reported_dipole (ch : Z) (total_mass : R) :
  [ @reported_dipole scenario tt 1 [0%Z] [1] ch total_mass [1; 2; 3] 0;
    @reported_dipole scenario tt 1 [0%Z] [1] ch total_mass [1; 2; 3] 1;
    @reported_dipole scenario tt 1 [0%Z] [1] ch total_mass [1; 2; 3] 2 ]
  = [ IZR ch * (1 / total_mass); IZR ch * (2 / total_mass);
      3 * BOHR_IN_ANGSTROM + IZR ch * (3 / total_mass) ].
Proof.
  unfold reported_dipole, sum_dipole_sequential, center_of_mass_sequential,
    sequential_sum; cbn.
  repeat (case_decide; try lia). cbn.
  f_equal; [|f_equal; [|f_equal]]; unfold Rdiv; ring.
Qed.

(** The dipole of the single atom with charge 1 when [mass_] is its mass. *)
Lemma single_atom_first_dipole :
  let mu := @reported_dipole scenario tt (number_of_atoms_ charged)
              (Atom.cpu_type one_atom) (Atom.cpu_mass one_atom) (charge charged)
              (mass_ charged + sequential_sum (Atom.cpu_mass one_atom))
              (Atom.position_per_atom one_atom) in
  [mu 0%nat; mu 1%nat; mu 2%nat] = [1; 2; 3 * BOHR_IN_ANGSTROM + 3]
  /\ coupling_strength charged * mu 2%nat / cavity_frequency charged
     = 3 * BOHR_IN_ANGSTROM + 3.
Proof.
  cbv zeta.
  assert (Esum : mass_ charged + sequential_sum (Atom.cpu_mass one_atom) = 1)
    by (unfold sequential_sum; cbn; lra).
  rewrite Esum.
  change (number_of_atoms_ charged) with 1%nat.
  change (Atom.cpu_type one_atom) with [0%Z].
  change (Atom.cpu_mass one_atom) with [1].
  change (Atom.position_per_atom one_atom) with [1; 2; 3].
  change (charge charged) with 1%Z.
  pose proof (single_atom_reported_dipole 1 1) as Ed.
  injection Ed as E0 E1 E2. rewrite E0, E1, E2. split.
  - f_equal; [lra|]. f_equal; [lra|]. f_equal. lra.
  - cbn [coupling_strength cavity_frequency charged]. lra.
Qed.

(** [initialize_sets_oscillator] on the single atom with charge 1. *)
Lemma initialize_sets_oscillator_witness :
  enabled_ charged = true
  /\ length (Force.potentials two_potentials) = 2%nat
  /\ nep_model_type (Force.potentials two_potentials !!! 1%nat) = 1%Z
  /\ length (Atom.cpu_type one_atom) = number_of_atoms_ charged
  /\ length (Atom.cpu_mass one_atom) = number_of_atoms_ charged
  /\ length (Atom.position_per_atom one_atom) = (3 * number_of_atoms_ charged)%nat
  /\ exists c' log',
       @initialize scenario tt one_atom two_potentials charged [] = Done c' log'
       /\ cpu_dipole_ c' = [1; 2; 3 * BOHR_IN_ANGSTROM + 3]
       /\ q0 c' = 3 * BOHR_IN_ANGSTROM + 3
       /\ cos_integral c' = 0 /\ sin_integral c' = 0 /\ prevtime c' = 0
       /\ prevdipole c' = [1; 2; 3 * BOHR_IN_ANGSTROM + 3].
Proof.
  repeat (split; [reflexivity|]).
  destruct (@initialize_sets_oscillator scenario tt one_atom two_potentials charged []
              eq_refl eq_refl eq_refl eq_refl eq_refl eq_refl)
    as (c' & Erun & Hd & Hq & Hc & Hs & Ht & Hp & _).
  destruct single_atom_first_dipole as [Emu Eq0].
  cbv zeta in Erun, Hd, Hq, Hp, Emu, Eq0.
  exists c'. eexists. split; [exact Erun|].
  split; [exact (eq_trans Hd Emu)|]. split; [exact (eq_trans Hq Eq0)|].
  split; [exact Hc|]. split; [exact Hs|]. split; [exact Ht|].
  exact (eq_trans Hp Emu).
Defined.

(** [zero_mass_is_divided_by] on the atom without mass. *)
Lemma zero_mass_is_divided_by_witness :
  enabled_ massless = true
  /\ mass_ massless = 0
  /\ ~ aborted (@compute_dipole_and_jacobian scenario 0 tt one_atom two_potentials massless [])
  /\ divisors_of (@compute_dipole_and_jacobian scenario 0 tt one_atom two_potentials massless [])
     = [0; 0; 0; 0; 0; 0; 0; 0.001; 12.0; 3.0].
Proof.
  repeat (split; [reflexivity|]).
  exact (@zero_mass_is_divided_by scenario 0 tt one_atom two_potentials massless []
           eq_refl eq_refl).
Defined.

(** Against C9 as stated: on an atom without mass and on a system
    without atoms the total mass is zero, the step does not exit, and a
    division by that zero is among those it performs. *)
Lemma zero_mass_does_not_fail_fast :
  (mass_ massless = 0
   /\ ~ @fails_fast scenario 0 tt one_atom two_potentials massless
   /\ In 0 (divisors_of
              (@compute_dipole_and_jacobian scenario 0 tt one_atom two_potentials massless [])))
  /\ (number_of_atoms_ empty = 0%nat
      /\ ~ @fails_fast scenario 0 tt no_atoms two_potentials empty
      /\ In 0 (divisors_of
                 (@compute_dipole_and_jacobian scenario 0 tt no_atoms two_potentials empty []))).
Proof.
  split.
  - destruct (@compute_dipole_and_jacobian_done scenario 0 tt one_atom two_potentials
                massless [] eq_refl) as (c' & Erun & _).
    unfold fails_fast. rewrite Erun. cbn [aborted divisors_of].
    repeat split; [tauto|]. left. reflexivity.
  - destruct (@compute_dipole_and_jacobian_done scenario 0 tt no_atoms two_potentials
                empty [] eq_refl) as (c' & Erun & _).
    unfold fails_fast. rewrite Erun. cbn [aborted divisors_of].
    repeat split; [tauto|]. left. reflexivity.
Qed.

(** [zero_frequency_is_divided_by] on the command with frequency 0. *)
Lemma zero_frequency_is_divided_by_witness :
  @fscanf_count scenario (zero_frequency_command !!! 1%nat) = 1%Z
  /\ @is_valid_real scenario (zero_frequency_command !!! 2%nat) = Some 1
  /\ ~ 1 < 0
  /\ @is_valid_real scenario (zero_frequency_command !!! 3%nat) = Some 0
  /\ @is_valid_int scenario (zero_frequency_command !!! 4%nat) = Some 0%Z
  /\ length (Force.potentials two_potentials) = 2%nat
  /\ nep_model_type (Force.potentials two_potentials !!! 1%nat) = 1%Z
  /\ exists c1 c2 evaluation,
       @parse scenario zero_frequency_command 5 1 ready [] = Done c1 []
       /\ cavity_frequency c1 = 0
       /\ @initialize scenario tt one_atom two_potentials c1 [] = Done c2 (evaluation ++ [0])
       /\ q0 c2 = 1 * cpu_dipole_ c2 !!! 2%nat / 0.
Proof.
  assert (Hpos : ~ 1 < 0) by lra.
  repeat (split; [first [reflexivity | assumption]|]).
  destruct (@zero_frequency_is_divided_by scenario zero_frequency_command 1 tt one_atom
              two_potentials ready [] 1 0 0%Z eq_refl eq_refl Hpos eq_refl eq_refl
              eq_refl eq_refl) as [_ Hzero].
  destruct (Hzero eq_refl) as (c1 & c2 & ev & Ep & _ & _ & Hcf & Ei & Hq).
  exists c1, c2, ev. repeat split; assumption.
Defined.

(** The Jacobian buffer after [get_dipole_jacobian] on the single atom. *)
Lemma single_atom_jacobian_run :
  exists c' log',
    @get_dipole_jacobian scenario tt two_potentials 0.001 0 ready [] = Done c' log'
    /\ cpu_dipole_jacobian_ c' = replicate 9 1.0
    /\ AtomCavity.cpu_position_per_atom (atom_cavity c')
       = [1 + 0.001; 1 + 2 * 0.001; 1 + -1 * 0.001; 1 + -2 * 0.001;
          1; 1; 1; 1; 1; 1; 1; 1; 2; 3 + -2 * 0.001] ++ replicate 22 0
    /\ AtomCavity.cpu_system_index (atom_cavity c') = seq 0 12.
Proof.
  destruct (@get_dipole_jacobian_done scenario tt two_potentials 0.001 0 ready [])
    as (av & Erun & Ebufs).
  eexists. eexists. split; [exact Erun|].
  cbn in Ebufs. injection Ebufs as Epos Eidx.
  split; [|split; [exact Epos|exact Eidx]].
  apply (jacobian_stored_replicate 1). reflexivity.
Qed.

(** The stub dipole of the atom moved by [s] along axis [i], corrected
    as in section 4.1 (the charge is zero). *)
Lemma single_atom_dipole (i : nat) (s : R) :
  (i < 3)%nat ->
  @corrected_dipole scenario tt 1 [0%Z] [1] 0
    (<[(1 * i + 0)%nat := [1; 2; 3] !!! (1 * i + 0)%nat + s]> [1; 2; 3]) 2
  = (if decide (i = 2%nat) then 3 + s else 3) * BOHR_IN_ANGSTROM.
Proof.
  intros Hi. destruct i as [|[|[|i]]]; [| | |lia];
    unfold corrected_dipole, sum_dipole_sequential, center_of_mass_sequential,
      sequential_sum; cbn;
    repeat (case_decide; try lia); cbn; lra.
Qed.

(** C1. On a single atom with the dipole [mu = (0, 0, z)] the central
    difference of the corrected dipole is the Bohr radius in angstrom for
    [d mu_z / d z] and zero for [d mu_z / d x], while
    [get_dipole_jacobian] stores the placeholder [1.0] in all nine
    entries: the stored Jacobian is not the finite difference. *)
Theorem single_atom_jacobian_is_the_placeholder :
  exists c' log',
    @get_dipole_jacobian scenario tt two_potentials 0.001 0 ready [] = Done c' log'
    /\ cpu_dipole_jacobian_ c' = replicate 9 1.0
    /\ @jacobian_entry_spec scenario tt 1 [0%Z] [1] 0 [1; 2; 3] 0.001 2 0 2
       = BOHR_IN_ANGSTROM
    /\ @jacobian_entry_spec scenario tt 1 [0%Z] [1] 0 [1; 2; 3] 0.001 0 0 2 = 0
    /\ cpu_dipole_jacobian_ c' !!! (2 * 3 + 0 * 9 + 2)%nat
       <> @jacobian_entry_spec scenario tt 1 [0%Z] [1] 0 [1; 2; 3] 0.001 2 0 2
    /\ cpu_dipole_jacobian_ c' !!! (0 * 3 + 0 * 9 + 2)%nat
       <> @jacobian_entry_spec scenario tt 1 [0%Z] [1] 0 [1; 2; 3] 0.001 0 0 2.
Proof.
  destruct single_atom_jacobian_run as (c' & log' & Erun & Ejac & _).
  exists c', log'. split; [exact Erun|]. split; [exact Ejac|].
  assert (Ez : @jacobian_entry_spec scenario tt 1 [0%Z] [1] 0 [1; 2; 3] 0.001 2 0 2
               = BOHR_IN_ANGSTROM).
  { unfold jacobian_entry_spec, central_difference.
    rewrite !(single_atom_dipole 2) by lia. cbn [decide]. 
    destruct (decide (2%nat = 2%nat)); [|congruence].
    unfold BOHR_IN_ANGSTROM. lra. }
  assert (Ex : @jacobian_entry_spec scenario tt 1 [0%Z] [1] 0 [1; 2; 3] 0.001 0 0 2 = 0).
  { unfold jacobian_entry_spec, central_difference.
    rewrite !(single_atom_dipole 0) by lia.
    destruct (decide (0%nat = 2%nat)); [congruence|].
    unfold BOHR_IN_ANGSTROM. lra. }
  rewrite Ez, Ex, Ejac. cbn. unfold BOHR_IN_ANGSTROM. repeat split; lra.
Qed.

(** C2. On a single atom at [(1, 2, 3)] the twelve copies written by
    [get_dipole_jacobian] start one cell apart and are three cells long,
    so each is overwritten by the next two (the second copy already
    replaces the y and z cells of the first), and the shift of copy
    [copy_index] lands at [copy_index + displaced_index]: the replica for
    the y axis and [+h], [(1, 2 + h, 3)], is not in the buffer, which
    holds [2 + h] in no cell at all.  The tags are those of the claim. *)
Theorem single_atom_replicas_overlap :
  exists c' log',
    @get_dipole_jacobian scenario tt two_potentials 0.001 0 ready [] = Done c' log'
    /\ AtomCavity.cpu_position_per_atom (atom_cavity c')
       = [1 + 0.001; 1 + 2 * 0.001; 1 + -1 * 0.001; 1 + -2 * 0.001;
          1; 1; 1; 1; 1; 1; 1; 1; 2; 3 + -2 * 0.001] ++ replicate 22 0
    /\ AtomCavity.cpu_system_index (atom_cavity c') = seq 0 12
    /\ replica_spec 1 [1; 2; 3] 1 0 0.001 = [1; 2 + 0.001; 3]
    /\ fst (place_replica 1 [1; 2; 3] (shifts 0.001) 0 0 0
              (replicate 36 0, replicate 12 0%nat))
       = [1 + 0.001; 2; 3] ++ replicate 33 0
    /\ fst (place_replica 1 [1; 2; 3] (shifts 0.001) 0 0 1
              (place_replica 1 [1; 2; 3] (shifts 0.001) 0 0 0
                 (replicate 36 0, replicate 12 0%nat)))
       = [1 + 0.001; 1 + 2 * 0.001; 2; 3] ++ replicate 32 0
    /\ ~ In (2 + 0.001) (AtomCavity.cpu_position_per_atom (atom_cavity c')).
Proof.
  destruct single_atom_jacobian_run as (c' & log' & Erun & _ & Epos & Eidx).
  exists c', log'. repeat (split; [first [assumption | reflexivity]|]).
  rewrite Epos. cbn [app replicate In].
  intros Hin. repeat (destruct Hin as [Hin|Hin]; [lra|]). exact Hin.
Qed.

(** The stub evaluator keeps the sizes of the buffers it is given. *)
Lemma stub_lengths (position pe f virial pe' f' virial' : list R) :
  (pe', f', virial') = @compute scenario tt [0%Z] position (pe, f, virial) ->
  length pe' = length pe /\ length f' = length f /\ length virial' = length virial.
Proof. cbn. intros [= -> -> ->]. now rewrite length_imap. Qed.

(** The dipole of section 4.1 for the single atom with charge 1. *)
Lemma single_atom_corrected_dipole (k : nat) :
  (k < 3)%nat ->
  @corrected_dipole scenario tt 1 [0%Z] [1] 1 [1; 2; 3] k
  = [1; 2; 3 * BOHR_IN_ANGSTROM + 3] !!! k.
Proof.
  intros Hk. destruct k as [|[|[|k]]]; [| | |lia];
    unfold corrected_dipole, sum_dipole_sequential, center_of_mass_sequential,
      sequential_sum; cbn;
    repeat (case_decide; try lia); cbn;
    replace (0 + 1) with 1 by lra; lra.
Qed.

(** C5. The single atom of mass 1 and charge 1 at [(1, 2, 3)].  After a
    first [initialize] of the parsed object [mass_] is the mass of the
    atom and the dipole is the corrected dipole of section 4.1.  A second
    [initialize] adds the mass once more, so [mass_] is 2, twice the sum
    of the masses in the private copy, and [compute_dipole_and_jacobian]
    then reports the charge times half the center of mass: no component
    of the dipole is the corrected one. *)
Theorem reinitialized_dipole_is_not_corrected :
  exists c1 log1 c2 log2 c3 log3,
    @initialize scenario tt one_atom two_potentials charged [] = Done c1 log1
    /\ mass_ c1 = 1
    /\ cpu_dipole_ c1 = [1; 2; 3 * BOHR_IN_ANGSTROM + 3]
    /\ @initialize scenario tt one_atom two_potentials c1 log1 = Done c2 log2
    /\ mass_ c2 = 2
    /\ @compute_dipole_and_jacobian scenario 1 tt one_atom two_potentials c2 log2
       = Done c3 log3
    /\ charge c3 = 1%Z
    /\ Atom.mass (atom_copy c3) = [1]
    /\ Atom.position_per_atom (atom_copy c3) = [1; 2; 3]
    /\ cpu_dipole_ c3 = [1 / 2; 2 / 2; 3 * BOHR_IN_ANGSTROM + 3 / 2]
    /\ (forall k, (k < 3)%nat ->
          cpu_dipole_ c1 !!! k = @corrected_dipole scenario tt 1 [0%Z] [1] 1 [1; 2; 3] k)
    /\ (forall k, (k < 3)%nat ->
          cpu_dipole_ c3 !!! k <> @corrected_dipole scenario tt 1 [0%Z] [1] 1 [1; 2; 3] k).
Proof.
  assert (Esum : sequential_sum (Atom.cpu_mass one_atom) = 1)
    by (unfold sequential_sum; cbn; lra).
  destruct (@initialize_evaluation scenario tt one_atom two_potentials charged []
              eq_refl eq_refl eq_refl eq_refl eq_refl eq_refl)
    as (c1 & Erun1 & Ed1 & _ & _ & _ & _ & _ & Hen1 & HN1 & _ & _ & Hch1 & HM1 & _).
  cbv zeta in Erun1, Ed1, HN1, HM1.
  match type of Erun1 with _ = Done _ ?l => set (log1 := l) in * end.
  rewrite Esum in Ed1, HM1.
  replace (mass_ charged + 1) with 1 in Ed1, HM1 by (cbn; lra).
  destruct (@initialize_evaluation scenario tt one_atom two_potentials c1 log1
              Hen1 eq_refl eq_refl)
    as (c2 & Erun2 & Ed2 & _ & _ & _ & _ & _ & Hen2 & HN2 & _ & _ & Hch2 & HM2 & _
        & Ety2 & Em2 & Ep2 & Ec2 & Hg2 & _);
    try (rewrite HN1; reflexivity).
  cbv zeta in Erun2, Ed2, HN2, HM2, Ec2.
  match type of Erun2 with _ = Done _ ?l => set (log2 := l) in * end.
  rewrite Esum, HM1 in HM2. replace (1 + 1) with 2 in HM2 by lra.
  rewrite HN1 in HN2, Ec2.
  change (number_of_atoms_ charged) with 1%nat in *.
  change (Atom.cpu_type one_atom) with [0%Z] in *.
  change (Atom.cpu_mass one_atom) with [1] in *.
  change (Atom.position_per_atom one_atom) with [1; 2; 3] in *.
  change (charge charged) with 1%Z in *.
  destruct (stub_lengths _ _ _ _ _ _ _ Ec2) as (Hpe & Hf & Hvirial).
  rewrite length_replicate in Hpe, Hf, Hvirial.
  assert (Hd2 : length (cpu_dipole_ c2) = 3%nat) by now rewrite Ed2.
  destruct (@compute_dipole_and_jacobian_reports scenario 1 tt one_atom two_potentials
              c2 log2 Hen2 Hd2 Hg2)
    as (c3 & Erun3 & Ed3 & Em3 & Ep3 & _ & Hch3);
    rewrite ?HN2, ?Ep2; try reflexivity; try assumption.
  cbv zeta in Erun3, Ed3.
  rewrite HN2, Ety2, Em2, Hch2, Hch1, HM2 in Ed3.
  change (Atom.position_per_atom one_atom) with [1; 2; 3] in *.
  rewrite single_atom_reported_dipole in Ed1, Ed3.
  assert (Ed1' : cpu_dipole_ c1 = [1; 2; 3 * BOHR_IN_ANGSTROM + 3]).
  { rewrite Ed1. f_equal; [lra|]. f_equal; [lra|]. f_equal. lra. }
  assert (Ed3' : cpu_dipole_ c3 = [1 / 2; 2 / 2; 3 * BOHR_IN_ANGSTROM + 3 / 2]).
  { rewrite Ed3. f_equal; [lra|]. f_equal; [lra|]. f_equal. lra. }
  exists c1, log1, c2, log2, c3. eexists.
  split; [exact Erun1|]. split; [exact HM1|]. split; [exact Ed1'|].
  split; [exact Erun2|]. split; [exact HM2|]. split; [exact Erun3|].
  split; [congruence|]. split; [congruence|]. split; [exact Ep3|].
  split; [exact Ed3'|]. split.
  - intros k Hk. now rewrite Ed1', single_atom_corrected_dipole.
  - intros k Hk. rewrite Ed3', single_atom_corrected_dipole by assumption.
    destruct k as [|[|[|k]]]; [| | |lia]; cbn; lra.
Qed.

End Scenario.

(** * Further theorems on the single atom *)

Section SingleAtom.
Local Open Scope R_scope.

(** [initialize_properties_zeroes] on one atom and buffers with a cell
    to spare. *)
Lemma initialize_properties_zeroes_witness :
  (3 * 1 <= length [1; 2; 3; 4])%nat
  /\ (1 <= length [5; 6])%nat
  /\ (9 * 1 <= length (replicate 9 7 ++ [8]))%nat
  /\ fst (fst (initialize_properties (ceil_blocks 1 128) 1 [1; 2; 3; 4] [5; 6]
                 (replicate 9 7 ++ [8]))) !!! 3%nat = 4
  /\ snd (initialize_properties (ceil_blocks 1 128) 1 [1; 2; 3; 4] [5; 6]
            (replicate 9 7 ++ [8])) !!! 8%nat = 0.
Proof.
  assert (Hf : (3 * 1 <= length [1; 2; 3; 4])%nat) by (simpl; lia).
  assert (Hpe : (1 <= length [5; 6])%nat) by (simpl; lia).
  assert (Hvirial : (9 * 1 <= length (replicate 9 7 ++ [8]))%nat) by (simpl; lia).
  repeat (split; [assumption|]).
  destruct (initialize_properties_zeroes 1 [1; 2; 3; 4] [5; 6] (replicate 9 7 ++ [8])
              Hf Hpe Hvirial) as ((_ & Hforce) & _ & (_ & Hv)).
  split; [exact (Hforce 3%nat)|exact (Hv 8%nat)].
Defined.

(** [copy_mass_and_type_fills_twelve_copies] on one atom of mass 2 and
    type 1. *)
Lemma copy_mass_and_type_fills_twelve_copies_witness :
  (12 * 1 <= length (replicate 12 0))%nat
  /\ (12 * 1 <= length (replicate 12 0%Z))%nat
  /\ fst (copy_mass_and_type_to_cavity (ceil_blocks 1 128) 1 [2] [1%Z]
            (replicate 12 0) (replicate 12 0%Z)) !!! 11%nat = 2
  /\ snd (copy_mass_and_type_to_cavity (ceil_blocks 1 128) 1 [2] [1%Z]
            (replicate 12 0) (replicate 12 0%Z)) !!! 11%nat = 1%Z.
Proof.
  assert (Hm : (12 * 1 <= length (replicate 12 0))%nat) by (simpl; lia).
  assert (Ht : (12 * 1 <= length (replicate 12 0%Z))%nat) by (simpl; lia).
  repeat (split; [assumption|]).
  destruct (copy_mass_and_type_fills_twelve_copies 1 [2] [1%Z] (replicate 12 0)
              (replicate 12 0%Z) Hm Ht) as (_ & _ & Hfilled & _).
  exact (Hfilled 11%nat ltac:(lia)).
Defined.

(** [initialize_allocates] on the single atom with charge 1. *)
Lemma initialize_allocates_witness :
  enabled_ charged = true
  /\ length (Force.potentials two_potentials) = 2%nat
  /\ nep_model_type (Force.potentials two_potentials !!! 1%nat) = 1%Z
  /\ length (Atom.cpu_mass one_atom) = number_of_atoms_ charged
  /\ exists c' log',
       @initialize scenario tt one_atom two_potentials charged [] = Done c' log'
       /\ number_of_atoms_ c' = 1%nat
       /\ length (cpu_cavity_force_ c') = 3%nat
       /\ length (cpu_dipole_jacobian_ c') = 9%nat
       /\ masses_ c' = [1]
       /\ mass_ c' = mass_ charged + sequential_sum [1].
Proof.
  repeat (split; [reflexivity|]).
  destruct (@initialize_allocates scenario tt one_atom two_potentials charged []
              eq_refl eq_refl eq_refl eq_refl)
    as (c' & log' & Erun & _ & HN & _ & _ & _ & Hcf & _ & Hjac & _ & _ & _ & Hms & HM).
  exists c', log'. repeat split; assumption.
Defined.

(** [initialize_divisions] on the single atom. *)
Lemma initialize_divisions_witness :
  enabled_ ready = true
  /\ length (Force.potentials two_potentials) = 2%nat
  /\ nep_model_type (Force.potentials two_potentials !!! 1%nat) = 1%Z
  /\ exists c' divisors,
       @initialize scenario tt one_atom two_potentials ready [] = Done c' divisors
       /\ length divisors = 11%nat
       /\ (In 0 divisors <-> mass_ c' = 0 \/ cavity_frequency ready = 0).
Proof.
  repeat (split; [reflexivity|]).
  destruct (@initialize_divisions scenario tt one_atom two_potentials ready []
              eq_refl eq_refl eq_refl) as (c' & divisors & Erun & Hlen & _ & Hzero).
  exists c', divisors. split; [exact Erun|]. split; assumption.
Defined.

(** [oscillator_starts_at_equilibrium] on the single atom. *)
Lemma oscillator_starts_at_equilibrium_witness :
  enabled_ ready = true
  /\ length (Force.potentials two_potentials) = 2%nat
  /\ nep_model_type (Force.potentials two_potentials !!! 1%nat) = 1%Z
  /\ cavity_frequency ready <> 0
  /\ mass_ ready + sum_upto (number_of_atoms_ ready) (fun i => Atom.cpu_mass one_atom !!! i)
     <> 0
  /\ exists c1 divisors,
       @initialize scenario tt one_atom two_potentials ready [] = Done c1 divisors
       /\ ~ In 0 divisors
       /\ q (@update_cavity scenario 0 0 c1) = q0 c1
       /\ p (@update_cavity scenario 0 0 c1) = 0
       /\ cavity_pot (@update_cavity scenario 0 0 c1) = 0.
Proof.
  assert (Hw : cavity_frequency ready <> 0) by (simpl; lra).
  assert (Hmass : mass_ ready
                  + sum_upto (number_of_atoms_ ready) (fun i => Atom.cpu_mass one_atom !!! i)
                  <> 0)
    by (unfold sum_upto, sequential_sum; simpl; lra).
  repeat (split; [first [reflexivity | assumption]|]).
  destruct (@oscillator_starts_at_equilibrium scenario tt one_atom two_potentials ready []
              0%Z eq_refl eq_refl eq_refl Hw Hmass)
    as (c1 & divisors & Erun & Hnone & Hq & Hp & Hpot & _).
  exists c1, divisors. repeat split; assumption.
Defined.

(** [get_dipole_sums_a_fresh_evaluation] on the single atom. *)
Lemma get_dipole_sums_a_fresh_evaluation_witness :
  length (Atom.force_per_atom (atom_copy ready)) = (number_of_atoms_ ready * 3)%nat
  /\ length (Atom.potential_per_atom (atom_copy ready)) = number_of_atoms_ ready
  /\ length (Atom.virial_per_atom (atom_copy ready)) = (number_of_atoms_ ready * 9)%nat
  /\ length (cpu_dipole_ ready) = 3%nat
  /\ length (gpu_dipole_ ready) = 3%nat
  /\ cpu_dipole_ (@get_dipole scenario tt two_potentials ready) = [0.0; 0.0; 0.0]
  /\ Atom.position_per_atom (atom_copy (@get_dipole scenario tt two_potentials ready))
     = [1; 2; 3].
Proof.
  repeat (split; [reflexivity|]).
  destruct (@get_dipole_sums_a_fresh_evaluation scenario tt two_potentials ready
              eq_refl eq_refl eq_refl eq_refl eq_refl) as (_ & Hcpu & _ & Hpos & _).
  split; assumption.
Defined.

(** [batched_evaluation_is_tagged] on the single atom. *)
Lemma batched_evaluation_is_tagged_witness :
  Z.to_nat (number_of_atoms_in_copied_system_ ready)
  = (12 * number_of_atoms_ ready * number_of_atoms_ ready)%nat
  /\ length (AtomCavity.cpu_system_index (atom_cavity ready))
     = Z.to_nat (number_of_atoms_in_copied_system_ ready)
  /\ length (AtomCavity.system_index (atom_cavity ready))
     = Z.to_nat (number_of_atoms_in_copied_system_ ready)
  /\ length (AtomCavity.potential_per_atom (atom_cavity ready))
     = Z.to_nat (number_of_atoms_in_copied_system_ ready)
  /\ length (AtomCavity.force_per_atom (atom_cavity ready))
     = (Z.to_nat (number_of_atoms_in_copied_system_ ready) * 3)%nat
  /\ length (AtomCavity.virial_per_atom (atom_cavity ready))
     = (Z.to_nat (number_of_atoms_in_copied_system_ ready) * 9)%nat
  /\ exists c' log',
       @get_dipole_jacobian scenario tt two_potentials 0.001 0 ready [] = Done c' log'
       /\ AtomCavity.system_index (atom_cavity c') !!! 11%nat = 11%nat.
Proof.
  repeat (split; [reflexivity|]).
  destruct (@batched_evaluation_is_tagged scenario tt two_potentials 0.001 0 ready []
              eq_refl eq_refl eq_refl eq_refl eq_refl eq_refl)
    as (c' & log' & Erun & _ & Htag & _).
  exists c', log'. split; [exact Erun|].
  exact (Htag 11%nat 0%nat ltac:(simpl; lia) ltac:(simpl; lia)).
Defined.

(** [cavity_force_is_the_same_for_all_atoms] on the single atom. *)
Lemma cavity_force_is_the_same_for_all_atoms_witness :
  enabled_ ready = true
  /\ length (cpu_dipole_jacobian_ ready) = (9 * number_of_atoms_ ready)%nat
  /\ length (cpu_cavity_force_ ready) = (3 * number_of_atoms_ ready)%nat
  /\ exists c' log',
       @compute_dipole_and_jacobian scenario 0 tt one_atom two_potentials ready []
       = Done c' log'
       /\ cpu_dipole_jacobian_ c' = replicate 9 1.0.
Proof.
  repeat (split; [reflexivity|]).
  destruct (@cavity_force_is_the_same_for_all_atoms scenario 0%Z tt one_atom two_potentials
              ready [] eq_refl eq_refl eq_refl) as (c' & log' & Erun & Hjac & _).
  exists c', log'. split; assumption.
Defined.

(** [zero_coupling_decouples] on the single atom without coupling. *)
Lemma zero_coupling_decouples_witness :
  coupling_strength decoupled = 0
  /\ length (cpu_cavity_force_ decoupled)
     = (3 * number_of_atoms_ decoupled)%nat
  /\ length (gpu_cavity_force_ decoupled)
     = (3 * number_of_atoms_ decoupled)%nat
  /\ fst (compute_and_apply_cavity_force one_atom decoupled)
     = one_atom
  /\ cos_integral (step_cavity 1 decoupled) = 0.
Proof.
  repeat (split; [reflexivity|]).
  destruct (zero_coupling_decouples one_atom decoupled 1
              eq_refl eq_refl eq_refl) as (Hforce & Hcos & _).
  split; [exact Hforce|exact Hcos].
Defined.

(** [update_cavity_reports_the_energies] on the single atom. *)
Lemma update_cavity_reports_the_energies_witness :
  enabled_ ready = true
  /\ prevtime (@update_cavity scenario 0 2 ready) = 2 * 1
  /\ 0 <= cavity_pot (@update_cavity scenario 0 2 ready)
  /\ 0 <= cavity_kin (@update_cavity scenario 0 2 ready).
Proof.
  split; [reflexivity|].
  destruct (@update_cavity_reports_the_energies scenario 0%Z 2 ready eq_refl)
    as (Ht & _ & _ & _ & _ & _ & _ & Hpot & Hkin).
  repeat split; assumption.
Defined.

End SingleAtom.
